(** * Ralph context sidecar: sessions, fold decisions, transcript watcher,
      memory index and spawn protocol

    A shallow embedding of the Python services under [ralph-api/app] and the
    properties their specification states about them.

    Conventions of the embedding
    - Python [int] is [Z]; Python [float] is an exact rational [Q] (the
      properties below are about order and exact literals, rounding is not
      tracked, and where the code rounds a float to an integer the rounding
      is a parameter); [str] is [string], with the case mapping and the
      whitespace of ASCII.
    - A call that can raise returns [result]; a coroutine that works on the
      database or on the watcher is a function from the state before to the
      outcome and the state after.
    - The engine is a record of tables, each a [gmap] from primary keys to
      rows; what only the engine decides (pattern matching, the order of an
      enum column, a refused commit) is a parameter or an explicit input.
    - A [dict] whose iteration order does not influence the result is a
      [gmap]; the order in which a Python [set] is iterated is left open. *)

From Stdlib Require Import ZArith QArith Qround Lqa Lia Bool.
From Stdlib Require Import Strings.String Strings.Ascii.
From stdpp Require Import base option list gmap strings sorting pretty.

Set Warnings "-register-all".

Local Open Scope Z_scope.
Local Open Scope string_scope.
Local Open Scope list_scope.

(** ** Python runtime notions *)

Module Py.

Inductive exn : Type :=
  | ValueError (what : string) (key : positive)   (* "<what> <key> not found" *)
  | AttributeError (name : string)
  | TypeError
  | KeyError
  | JSONDecodeError
  | ZeroDivisionError
  | OSError
  | DBAPIError.

Inductive result (A : Type) : Type :=
  | Ok (a : A)
  | Raise (e : exn).
Arguments Ok {A} a.
Arguments Raise {A} e.

Definition bind {A B : Type} (r : result A) (k : A -> result B) : result B :=
  match r with
  | Ok a => k a
  | Raise e => Raise e
  end.

(** A coroutine over a mutable state [S]: it returns or raises, and leaves
    the state as it was at that point. *)
Definition Eff (S A : Type) : Type := S -> result A * S.

Definition ret {S A : Type} (a : A) : Eff S A := fun st => (Ok a, st).

Definition raise {S A : Type} (e : exn) : Eff S A := fun st => (Raise e, st).

Definition await {S A B : Type} (c : Eff S A) (k : A -> Eff S B) : Eff S B :=
  fun st =>
    match c st with
    | (Ok a, st') => k a st'
    | (Raise e, st') => (Raise e, st')
    end.

Definition lift {S A : Type} (r : result A) : Eff S A := fun st => (r, st).

(** [try: c  except Exception: pass] *)
Definition swallow {S : Type} (c : Eff S unit) : S -> S := fun st => snd (c st).

(** [os.path.dirname] and [os.path.join] on POSIX paths *)
Fixpoint drop_basename (rev_path : list ascii) : list ascii :=
  match rev_path with
  | [] => []
  | c :: rest => if Ascii.eqb c "/" then rev_path else drop_basename rest
  end.

Fixpoint drop_slashes (rev_path : list ascii) : list ascii :=
  match rev_path with
  | [] => []
  | c :: rest => if Ascii.eqb c "/" then drop_slashes rest else rev_path
  end.

Definition dirname (path : string) : string :=
  let head := drop_basename (rev (list_ascii_of_string path)) in
  match drop_slashes head with
  | [] => string_of_list_ascii (rev head)
  | stripped => string_of_list_ascii (rev stripped)
  end.

(** The double quote character *)
Definition dquote : ascii := Ascii.ascii_of_nat 34.

(** [s] between double quotes *)
Definition quoted (s : string) : string := String dquote (s ++ String dquote "").

(** [c.isspace()] restricted to ASCII: TAB, LF, VT, FF, CR, FS, GS, RS, US
    and the space. *)
Definition isspace (c : ascii) : bool :=
  let n := Ascii.nat_of_ascii c in
  ((9 <=? n) && (n <=? 13) || (28 <=? n) && (n <=? 32))%nat.

Definition lower_ascii (c : ascii) : ascii :=
  let n := Ascii.nat_of_ascii c in
  if ((65 <=? n) && (n <=? 90))%nat then Ascii.ascii_of_nat (n + 32) else c.

(** [s.lower()] *)
Fixpoint lower (s : string) : string :=
  match s with
  | EmptyString => EmptyString
  | String c rest => String (lower_ascii c) (lower rest)
  end.

(** [s.startswith(p)] *)
Fixpoint startswith (p s : string) : bool :=
  match p, s with
  | EmptyString, _ => true
  | String a p', String b s' => if Ascii.eqb a b then startswith p' s' else false
  | String _ _, EmptyString => false
  end.

(** [needle in hay] on strings *)
Fixpoint str_in (needle hay : string) : bool :=
  startswith needle hay ||
  match hay with
  | EmptyString => false
  | String _ rest => str_in needle rest
  end.

(** [s.lstrip()] and [s.strip()] with the default (whitespace) argument *)
Fixpoint lstrip (s : string) : string :=
  match s with
  | EmptyString => EmptyString
  | String c rest => if isspace c then lstrip rest else s
  end.

Fixpoint rstrip (s : string) : string :=
  match s with
  | EmptyString => EmptyString
  | String c rest =>
      match rstrip rest with
      | EmptyString => if isspace c then EmptyString else String c EmptyString
      | r => String c r
      end
  end.

Definition strip (s : string) : string := rstrip (lstrip s).

(** [s.split()]: maximal runs of non-whitespace characters. [cur] is the
    word being read, reversed. *)
Fixpoint split_ws_aux (s : string) (cur : list ascii) : list string :=
  let flush (k : list string) :=
    match cur with
    | [] => k
    | _ => string_of_list_ascii (rev cur) :: k
    end in
  match s with
  | EmptyString => flush []
  | String c rest =>
      if isspace c then flush (split_ws_aux rest [])
      else split_ws_aux rest (c :: cur)
  end.

Definition split_ws (s : string) : list string := split_ws_aux s [].

(** [s.split(sep)] for a non-empty separator: always at least one piece.
    [skip] counts the characters of a separator still to be passed over. *)
Fixpoint split_aux (sep s : string) (skip : nat) (cur : list ascii) : list string :=
  match s with
  | EmptyString => [string_of_list_ascii (rev cur)]
  | String c rest =>
      match skip with
      | S k => split_aux sep rest k cur
      | O =>
          if startswith sep s
          then string_of_list_ascii (rev cur)
                 :: split_aux sep rest (String.length sep - 1) []
          else split_aux sep rest 0 (c :: cur)
      end
  end.

Definition split (sep s : string) : list string := split_aux sep s 0 [].

(** [sep.join(parts)] *)
Fixpoint join (sep : string) (parts : list string) : string :=
  match parts with
  | [] => ""
  | [x] => x
  | x :: rest => x ++ sep ++ join sep rest
  end.

(** [s.endswith(p)] *)
Definition endswith (p s : string) : bool :=
  startswith (string_of_list_ascii (rev (list_ascii_of_string p)))
             (string_of_list_ascii (rev (list_ascii_of_string s))).

Definition endswith_slash_or_empty (dir : string) : bool :=
  String.eqb dir "" || endswith "/" dir.

Definition path_join (dir file : string) : string :=
  if startswith "/" file then file
  else if endswith_slash_or_empty dir then dir ++ file
  else dir ++ "/" ++ file.

(** [s.lstrip(chars)] for a one-character set *)
Fixpoint lstrip_char (ch : ascii) (s : string) : string :=
  match s with
  | EmptyString => EmptyString
  | String c rest => if Ascii.eqb c ch then lstrip_char ch rest else s
  end.

(** [l[-n:]] for [n > 0] *)
Definition last_n {A : Type} (n : nat) (l : list A) : list A :=
  skipn (length l - n) l.

(** [x is not None] *)
Definition is_not_None {A : Type} (x : option A) : bool :=
  match x with
  | Some _ => true
  | None => false
  end.

(** [bool(s)] on a string *)
Definition nonempty (s : string) : bool :=
  match s with
  | EmptyString => false
  | String _ _ => true
  end.

(** [d.get(key)] on a dict written as the list of its items *)
Fixpoint items_get {V : Type} (key : string) (items : list (string * V)) : option V :=
  match items with
  | [] => None
  | (k, v) :: rest => if String.eqb k key then Some v else items_get key rest
  end.

(** [x or y] on an optional string: [None] and the empty string are falsy *)
Definition or_str (x : option string) (y : string) : string :=
  match x with
  | Some (String c s) => String c s
  | _ => y
  end.

(** [a / b] on integers: true division, raising on a zero divisor *)
Definition truediv (a b : Z) : result Q :=
  if (b =? 0)%Z then Raise ZeroDivisionError else Ok (inject_Z a / inject_Z b)%Q.

(** [min(a, b)] returns its first argument unless the second is smaller *)
Definition min_Q (a b : Q) : Q := if Qlt_le_dec b a then b else a.

(** [round(x)]: to the nearest integer, ties to the even one *)
Definition round_half_even (x : Q) : Z :=
  let f := Qfloor x in
  let r := (x - inject_Z f)%Q in
  if Qlt_le_dec r (1 # 2) then f
  else if Qlt_le_dec (1 # 2) r then (f + 1)%Z
  else if Z.even f then f else (f + 1)%Z.

(** [seq[:n]] *)
Definition slice_to {A : Type} (n : Z) (l : list A) : list A :=
  if (0 <=? n)%Z then firstn (Z.to_nat n) l
  else firstn (Z.to_nat (Z.of_nat (length l) + n)) l.

(** [sorted(l, key=key, reverse=True)]: stable, larger keys first, equal keys
    keep their order. *)
Fixpoint insert_desc {A : Type} (key : A -> Q) (x : A) (l : list A) : list A :=
  match l with
  | [] => [x]
  | y :: l' =>
      if Qle_bool (key y) (key x) then x :: l
      else y :: insert_desc key x l'
  end.

Definition sorted_desc {A : Type} (key : A -> Q) (l : list A) : list A :=
  foldr (insert_desc key) [] l.

(** [a] does not come after [b] in descending order of [key] *)
Definition key_ge {A : Type} (key : A -> Q) (a b : A) : Prop := (key b <= key a)%Q.

End Py.

Import Py.

(** ** JSON values and a reader for transcript lines *)

Module Json.

(** What [json.loads] builds. Numbers are integers (token counts); an object
    is the list of the items of its [dict], one per key. *)
Inductive json : Type :=
  | JNull
  | JBool (b : bool)
  | JInt (n : Z)
  | JStr (s : string)
  | JArr (items : list json)
  | JObj (fields : list (string * json)).

(** [d.get(key)] and [d.get(key, default)] *)
Definition obj_get (key : string) (fields : list (string * json)) : option json :=
  items_get key fields.

Definition obj_get_default (key : string) (dflt : json)
    (fields : list (string * json)) : json :=
  default dflt (obj_get key fields).

(** [d[key] = v] *)
Fixpoint obj_set (key : string) (v : json) (fields : list (string * json))
    : list (string * json) :=
  match fields with
  | [] => [(key, v)]
  | (k, w) :: rest =>
      if String.eqb k key then (k, v) :: rest else (k, w) :: obj_set key v rest
  end.

(** [bool(v)] *)
Definition truthy (v : json) : bool :=
  match v with
  | JNull => false
  | JBool b => b
  | JInt n => negb (n =? 0)%Z
  | JStr s => negb (String.eqb s "")
  | JArr items => match items with [] => false | _ => true end
  | JObj fields => match fields with [] => false | _ => true end
  end.

(** [a + b] *)
Definition add (a b : json) : result json :=
  match a, b with
  | JInt x, JInt y => Ok (JInt (x + y))
  | JInt x, JBool y => Ok (JInt (x + Z.b2z y))
  | JBool x, JInt y => Ok (JInt (Z.b2z x + y))
  | JBool x, JBool y => Ok (JInt (Z.b2z x + Z.b2z y))
  | JStr x, JStr y => Ok (JStr (x ++ y))
  | JArr x, JArr y => Ok (JArr (x ++ y))
  | _, _ => Raise TypeError
  end.

(** The value as an integer, where it is one ([bool] is a subclass of [int]) *)
Definition as_int (v : json) : option Z :=
  match v with
  | JInt n => Some n
  | JBool b => Some (Z.b2z b)
  | _ => None
  end.

(** *** A reader for the JSON subset transcripts are written in

    Objects, arrays, strings with the one-character escapes, integers and the
    three literals. A number with a fraction or an exponent and a [\u] escape
    are outside the subset and are refused. *)

Definition is_json_ws (c : ascii) : bool :=
  let n := Ascii.nat_of_ascii c in
  ((n =? 32) || (n =? 9) || (n =? 10) || (n =? 13))%nat.

Fixpoint skip_ws (s : list ascii) : list ascii :=
  match s with
  | c :: rest => if is_json_ws c then skip_ws rest else s
  | [] => []
  end.

Definition is_digit (c : ascii) : bool :=
  let n := Ascii.nat_of_ascii c in ((48 <=? n) && (n <=? 57))%nat.

Definition digit_value (c : ascii) : Z := Z.of_nat (Ascii.nat_of_ascii c) - 48.

Fixpoint read_digits (s : list ascii) (acc : Z) : Z * list ascii :=
  match s with
  | c :: rest =>
      if is_digit c then read_digits rest (10 * acc + digit_value c) else (acc, s)
  | [] => (acc, [])
  end.

Definition starts_fraction (s : list ascii) : bool :=
  match s with
  | c :: _ => Ascii.eqb c "." || Ascii.eqb c "e" || Ascii.eqb c "E"
  | [] => false
  end.

(** An unsigned integer: a lone [0] or a digit string without leading zero *)
Definition read_nat (s : list ascii) : option (Z * list ascii) :=
  match s with
  | c :: rest =>
      if Ascii.eqb c "0" then
        if starts_fraction rest then None else Some (0, rest)
      else if is_digit c then
        let '(n, rest') := read_digits s 0 in
        if starts_fraction rest' then None else Some (n, rest')
      else None
  | [] => None
  end.

Definition unescape (c : ascii) : option ascii :=
  if Ascii.eqb c dquote then Some dquote
  else if Ascii.eqb c "\" then Some "\"%char
  else if Ascii.eqb c "/" then Some "/"%char
  else if Ascii.eqb c "b" then Some (Ascii.ascii_of_nat 8)
  else if Ascii.eqb c "f" then Some (Ascii.ascii_of_nat 12)
  else if Ascii.eqb c "n" then Some (Ascii.ascii_of_nat 10)
  else if Ascii.eqb c "r" then Some (Ascii.ascii_of_nat 13)
  else if Ascii.eqb c "t" then Some (Ascii.ascii_of_nat 9)
  else None.

(** The rest of a string literal, after its opening quote *)
Fixpoint read_string (s : list ascii) (acc : list ascii) : option (string * list ascii) :=
  match s with
  | [] => None
  | c :: rest =>
      if Ascii.eqb c dquote then Some (string_of_list_ascii (rev acc), rest)
      else if Ascii.eqb c "\" then
        match rest with
        | e :: rest' =>
            match unescape e with
            | Some d => read_string rest' (d :: acc)
            | None => None
            end
        | [] => None
        end
      else if (Ascii.nat_of_ascii c <? 32)%nat then None
      else read_string rest (c :: acc)
  end.

Definition read_literal (word : string) (v : json) (s : list ascii)
    : option (json * list ascii) :=
  let w := list_ascii_of_string word in
  if decide (firstn (length w) s = w) then Some (v, skipn (length w) s) else None.

Fixpoint read_value (fuel : nat) (s : list ascii) {struct fuel}
    : option (json * list ascii) :=
  match fuel with
  | O => None
  | S fuel' =>
      match skip_ws s with
      | [] => None
      | c :: rest =>
          if Ascii.eqb c "{" then
            match skip_ws rest with
            | d :: rest' =>
                if Ascii.eqb d "}" then Some (JObj [], rest')
                else read_members fuel' rest []
            | [] => None
            end
          else if Ascii.eqb c "[" then
            match skip_ws rest with
            | d :: rest' =>
                if Ascii.eqb d "]" then Some (JArr [], rest')
                else read_items fuel' rest []
            | [] => None
            end
          else if Ascii.eqb c dquote then
            match read_string rest [] with
            | Some (str, rest') => Some (JStr str, rest')
            | None => None
            end
          else if Ascii.eqb c "-" then
            match read_nat rest with
            | Some (n, rest') => Some (JInt (- n), rest')
            | None => None
            end
          else if is_digit c then
            match read_nat (c :: rest) with
            | Some (n, rest') => Some (JInt n, rest')
            | None => None
            end
          else if Ascii.eqb c "n" then read_literal "null" JNull (c :: rest)
          else if Ascii.eqb c "t" then read_literal "true" (JBool true) (c :: rest)
          else if Ascii.eqb c "f" then read_literal "false" (JBool false) (c :: rest)
          else None
      end
  end
with read_items (fuel : nat) (s : list ascii) (acc : list json) {struct fuel}
    : option (json * list ascii) :=
  match fuel with
  | O => None
  | S fuel' =>
      match read_value fuel' s with
      | Some (v, rest) =>
          match skip_ws rest with
          | c :: rest' =>
              if Ascii.eqb c "," then read_items fuel' rest' (v :: acc)
              else if Ascii.eqb c "]" then Some (JArr (rev (v :: acc)), rest')
              else None
          | [] => None
          end
      | None => None
      end
  end
with read_members (fuel : nat) (s : list ascii) (acc : list (string * json))
    {struct fuel} : option (json * list ascii) :=
  match fuel with
  | O => None
  | S fuel' =>
      match skip_ws s with
      | q :: rest =>
          if Ascii.eqb q dquote then
            match read_string rest [] with
            | Some (key, rest1) =>
                match skip_ws rest1 with
                | colon :: rest2 =>
                    if Ascii.eqb colon ":" then
                      match read_value fuel' rest2 with
                      | Some (v, rest3) =>
                          match skip_ws rest3 with
                          | c :: rest4 =>
                              if Ascii.eqb c ","
                              then read_members fuel' rest4 (obj_set key v acc)
                              else if Ascii.eqb c "}"
                              then Some (JObj (obj_set key v acc), rest4)
                              else None
                          | [] => None
                          end
                      | None => None
                      end
                    else None
                | [] => None
                end
            | None => None
            end
          else None
      | [] => None
      end
  end.

(** One JSON document and nothing after it *)
Definition loads (text : string) : result json :=
  let s := list_ascii_of_string text in
  match read_value (S (2 * length s)) s with
  | Some (v, rest) =>
      match skip_ws rest with
      | [] => Ok v
      | _ => Raise JSONDecodeError
      end
  | None => Raise JSONDecodeError
  end.

(** The compact text of a value, as the host writes its transcript lines.
    Strings are taken to hold no quote, backslash or control character. *)
Fixpoint dumps (v : json) : string :=
  match v with
  | JNull => "null"
  | JBool true => "true"
  | JBool false => "false"
  | JInt n => pretty n
  | JStr s => quoted s
  | JArr items => "[" ++ join "," (map dumps items) ++ "]"
  | JObj fields =>
      "{" ++ join "," (map (fun kv => quoted (fst kv) ++ ":" ++ dumps (snd kv)) fields)
          ++ "}"
  end%string.

End Json.

Import Json.

(** ** fold_service.py *)

Module FoldService.

Inductive Urgency : Type := LOW | MEDIUM | HIGH | CRITICAL.

Definition Urgency_value (u : Urgency) : string :=
  match u with
  | LOW => "low"
  | MEDIUM => "medium"
  | HIGH => "high"
  | CRITICAL => "critical"
  end.

Record ShouldFoldResult : Type := {
  should_fold_flag : bool;
  urgency : Urgency;
  reason : string;
  recommended_action : string;
  context_usage : Q;
  provider : string
}.

(** One row of a threshold table: [threshold: (urgency, reason, action)] *)
Definition Row : Type := (Q * (Urgency * string * string))%type.

Definition PROVIDER_THRESHOLDS : list (string * list Row) :=
  [ ("anthropic",
      [ (0.60%Q, (MEDIUM, "Consider milestone checkpoint", "checkpoint"));
        (0.75%Q, (HIGH, "Safety checkpoint recommended", "checkpoint"));
        (0.85%Q, (HIGH, "Fold/compress REQUIRED", "compress"));
        (0.95%Q, (CRITICAL, "MUST spawn new agent", "spawn")) ]);
    ("glm",
      [ (0.50%Q, (MEDIUM, "Consider milestone checkpoint (GLM)", "checkpoint"));
        (0.65%Q, (HIGH, "Safety checkpoint recommended (GLM)", "checkpoint"));
        (0.75%Q, (HIGH, "Fold/compress REQUIRED (GLM)", "compress"));
        (0.85%Q, (CRITICAL, "MUST spawn new agent (GLM)", "spawn")) ]);
    ("openai",
      [ (0.60%Q, (MEDIUM, "Consider milestone checkpoint", "checkpoint"));
        (0.75%Q, (HIGH, "Safety checkpoint recommended", "checkpoint"));
        (0.85%Q, (HIGH, "Fold/compress REQUIRED", "compress"));
        (0.95%Q, (CRITICAL, "MUST spawn new agent", "spawn")) ]);
    ("google",
      [ (0.70%Q, (MEDIUM, "Consider milestone checkpoint (Gemini)", "checkpoint"));
        (0.80%Q, (HIGH, "Safety checkpoint recommended (Gemini)", "checkpoint"));
        (0.90%Q, (HIGH, "Fold/compress REQUIRED (Gemini)", "compress"));
        (0.97%Q, (CRITICAL, "MUST spawn new agent (Gemini)", "spawn")) ]) ].

Definition anthropic_thresholds : list Row :=
  default [] (items_get "anthropic" PROVIDER_THRESHOLDS).

(** The state of [~/.ccs/config.json] when it is looked at *)
Inductive ConfigFile : Type :=
  | Absent
  | Unreadable
  | Content (text : string).

Section Decision.

(** [json.loads] *)
Variable json_loads : string -> result json.

(** Whatever goes wrong after the file was found ends in the [except] clause
    and in the fallback: a read error, malformed JSON, a document that is no
    object, a [current] that is no string. *)
Definition detect_active_provider (ccs_config : ConfigFile) : string :=
  match ccs_config with
  | Absent => "anthropic"
  | Unreadable => "anthropic"
  | Content text =>
      match json_loads text with
      | Ok (JObj config) =>
          match obj_get_default "current" (JStr "anthropic") config with
          | JStr current =>
              if str_in "glm" (lower current) then "glm"
              else if str_in "openai" (lower current) || str_in "gpt" (lower current)
              then "openai"
              else if str_in "google" (lower current) || str_in "gemini" (lower current)
              then "google"
              else "anthropic"
          | _ => "anthropic"
          end
      | _ => "anthropic"
      end
  end.

Definition get_thresholds_for_provider (ccs_config : ConfigFile)
    (provider : option string) : list Row :=
  let provider :=
    match provider with
    | None => detect_active_provider ccs_config
    | Some p => p
    end in
  default anthropic_thresholds (items_get provider PROVIDER_THRESHOLDS).

(** The [for ... in sorted(thresholds.items(), reverse=True)] loop: the first
    row, from the largest threshold down, with [context_usage >= threshold]. *)
Fixpoint first_row_reached (context_usage : Q) (rows : list Row) : option Row :=
  match rows with
  | [] => None
  | (threshold, payload) :: rest =>
      if Qle_bool threshold context_usage then Some (threshold, payload)
      else first_row_reached context_usage rest
  end.

Definition should_fold (ccs_config : ConfigFile) (context_usage : Q)
    (memory_count : Z) (provider : option string) : ShouldFoldResult :=
  let detected_provider := or_str provider (detect_active_provider ccs_config) in
  let thresholds := get_thresholds_for_provider ccs_config (Some detected_provider) in
  match first_row_reached context_usage (sorted_desc fst thresholds) with
  | Some (_, (urgency, reason, action)) =>
      {| should_fold_flag := true;
         urgency := urgency;
         reason := reason;
         recommended_action := action;
         context_usage := context_usage;
         provider := detected_provider |}
  | None =>
      {| should_fold_flag := false;
         urgency := LOW;
         reason := "Context usage acceptable";
         recommended_action := "continue";
         context_usage := context_usage;
         provider := detected_provider |}
  end.

End Decision.

(** The order low < medium < high < critical *)
Definition Urgency_rank (u : Urgency) : Z :=
  match u with
  | LOW => 0
  | MEDIUM => 1
  | HIGH => 2
  | CRITICAL => 3
  end.

Definition Urgency_le (a b : Urgency) : Prop := Urgency_rank a <= Urgency_rank b.

(** The urgency and the action a scan result stands for *)
Definition row_urgency (r : option Row) : Urgency :=
  match r with
  | Some (_, (u, _, _)) => u
  | None => LOW
  end.

(** Along the scan, later rows are never more urgent than earlier ones *)
Fixpoint urgency_descends (rows : list Row) : Prop :=
  match rows with
  | [] => True
  | (_, (u, _, _)) :: rest =>
      Forall (fun r : Row => Urgency_le (row_urgency (Some r)) u) rest
      /\ urgency_descends rest
  end.

(** The threshold rule in the words of the specification: among the rows
    whose threshold [context_usage] has reached, the one with the highest
    threshold wins. *)
Definition higher_row (context_usage : Q) (best : option Row) (r : Row) : option Row :=
  if Qle_bool (fst r) context_usage then
    match best with
    | Some b => if Qle_bool (fst r) (fst b) then Some b else Some r
    | None => Some r
    end
  else best.

Definition highest_matching_row (context_usage : Q) (rows : list Row) : option Row :=
  foldl (higher_row context_usage) None rows.

Definition row_action (r : option Row) : string :=
  match r with
  | Some (_, (_, _, action)) => action
  | None => "continue"
  end.

End FoldService.


(** ** models: session.py, memory.py, checkpoint.py, session_lineage.py *)

Module Models.

(** Primary keys ([uuid.uuid4] values) *)
Definition UUID : Type := positive.

Inductive SessionStatus : Type := ACTIVE | COMPLETED | TERMINATED.

#[global] Instance SessionStatus_eq_dec : EqDecision SessionStatus.
Proof. solve_decision. Defined.

Definition SessionStatus_value (s : SessionStatus) : string :=
  match s with
  | ACTIVE => "active"
  | COMPLETED => "completed"
  | TERMINATED => "terminated"
  end.

(** The members the class [SessionStatus] declares, by attribute name *)
Definition SessionStatus_members : list (string * SessionStatus) :=
  [ ("ACTIVE", ACTIVE); ("COMPLETED", COMPLETED); ("TERMINATED", TERMINATED) ].

(** [SessionStatus.<name>]: attribute access on the enum class *)
Definition SessionStatus_attr (name : string) : result SessionStatus :=
  match items_get name SessionStatus_members with
  | Some s => Ok s
  | None => Raise (AttributeError name)
  end.

Module Session.

Record t : Type := mk {
  id : UUID;
  task_description : string;
  max_tokens : Z;
  current_tokens : Z;
  status : SessionStatus;
  created_at : Z;
  updated_at : Z
}.

#[global] Instance eq_dec : EqDecision t.
Proof. solve_decision. Defined.

Definition set_updated_at (self : t) (v : Z) : t :=
  mk (id self) (task_description self) (max_tokens self) (current_tokens self)
     (status self) (created_at self) v.

Definition set_current_tokens (self : t) (v : Z) : t :=
  mk (id self) (task_description self) (max_tokens self) v (status self)
     (created_at self) (updated_at self).

Definition set_status (self : t) (v : SessionStatus) : t :=
  mk (id self) (task_description self) (max_tokens self) (current_tokens self) v
     (created_at self) (updated_at self).

(** The property [context_usage] *)
Definition context_usage (self : t) : result Q :=
  if (max_tokens self =? 0)%Z then Ok 0%Q
  else truediv (current_tokens self) (max_tokens self).

(** The property [context_usage_percent]; [to_int] stands for
    [int(x * 100)] as binary floating point evaluates it. *)
Definition context_usage_percent (to_int : Q -> Z) (self : t) : result Z :=
  bind (context_usage self) (fun u => Ok (to_int (u * 100)%Q)).

End Session.

Inductive MemoryCategory : Type :=
  DECISION | ACTION | ERROR | PROGRESS | CONTEXT | OTHER.

Inductive MemoryPriority : Type := PRIO_HIGH | PRIO_NORMAL | PRIO_LOW.

Definition MemoryCategory_value (c : MemoryCategory) : string :=
  match c with
  | DECISION => "decision"
  | ACTION => "action"
  | ERROR => "error"
  | PROGRESS => "progress"
  | CONTEXT => "context"
  | OTHER => "other"
  end.

Definition MemoryPriority_value (p : MemoryPriority) : string :=
  match p with
  | PRIO_HIGH => "high"
  | PRIO_NORMAL => "normal"
  | PRIO_LOW => "low"
  end.

Module Memory.

Record t : Type := mk {
  id : UUID;
  session_id : UUID;
  content : string;
  category : MemoryCategory;
  priority : MemoryPriority;
  access_count : Z;
  created_at : Z
}.

End Memory.

Module Checkpoint.

Record t : Type := mk {
  id : UUID;
  session_id : UUID;
  label : string;
  state_task_description : string;
  state_current_tokens : Z;
  state_max_tokens : Z;
  state_status : string;
  context_usage : Z;
  memories_snapshot : list UUID;
  created_at : Z
}.

End Checkpoint.

Module SessionLineage.

Record t : Type := mk {
  id : UUID;
  parent_session_id : option UUID;
  child_session_id : UUID;
  handoff_reason : string;
  handoff_prompt : string;
  checkpoint_id : option UUID;
  created_at : Z
}.

End SessionLineage.

End Models.

Import Models.

(** ** core/database.py: the engine and an [AsyncSession] on it *)

Module Database.

(** The tables *)
Record Db : Type := mkDb {
  sessions : gmap UUID Session.t;
  memories : gmap UUID Memory.t;
  checkpoints : gmap UUID Checkpoint.t;
  session_lineage : gmap UUID SessionLineage.t
}.

Definition empty_db : Db := mkDb ∅ ∅ ∅ ∅.

(** An open [AsyncSession]: [stored] is what the engine has committed,
    [working] is what the session sees ([stored] with its own uncommitted
    changes on top). [next_uuid] feeds [uuid4], [clock] is [utcnow], and
    [commit_faults] says which of the coming commits the engine refuses. *)
Record AsyncSession : Type := mkAS {
  stored : Db;
  working : Db;
  next_uuid : positive;
  clock : Z;
  commit_faults : list bool
}.

(** [async_session_maker()]: a fresh session on the engine *)
Definition open_session (engine : Db) (next : positive) (now : Z)
    (faults : list bool) : AsyncSession :=
  mkAS engine engine next now faults.

(** A coroutine that receives [db] *)
Definition Task (A : Type) : Type := Eff AsyncSession A.

Notation "'let*' x ':=' c 'in' k" := (await c (fun x => k))
  (at level 10, x name, c at level 100, k at level 200).

Definition with_working (f : Db -> Db) : Task unit :=
  fun db => (Ok tt, mkAS (stored db) (f (working db)) (next_uuid db) (clock db)
                         (commit_faults db)).

Definition uuid4 : Task UUID :=
  fun db => (Ok (next_uuid db),
             mkAS (stored db) (working db) (Pos.succ (next_uuid db)) (clock db)
                  (commit_faults db)).

Definition utcnow : Task Z := fun db => (Ok (clock db), db).

(** [await db.commit()]: on success the engine takes the session's view; on an
    engine error the transaction is rolled back and the error is raised. *)
Definition commit : Task unit :=
  fun db =>
    match commit_faults db with
    | true :: rest =>
        (Raise DBAPIError,
         mkAS (stored db) (stored db) (next_uuid db) (clock db) rest)
    | false :: rest =>
        (Ok tt, mkAS (working db) (working db) (next_uuid db) (clock db) rest)
    | [] =>
        (Ok tt, mkAS (working db) (working db) (next_uuid db) (clock db) [])
    end.

(** [await db.get(Session, id)] *)
Definition get_Session (id : UUID) : Task (option Session.t) :=
  fun db => (Ok (sessions (working db) !! id), db).

(** [db.add] of a new row *)
Definition add_Session (s : Session.t) : Task unit :=
  with_working (fun d => mkDb (<[Session.id s := s]> (sessions d)) (memories d)
                              (checkpoints d) (session_lineage d)).

(** Attribute assignments on a loaded row: [old] is the row as loaded, [new]
    the row after the assignments. A row that really changed is written with
    [updated_at] set by the column's [onupdate=datetime.utcnow]. *)
Definition assign_Session (old new : Session.t) : Task unit :=
  if decide (old = new) then ret tt
  else let* now := utcnow in add_Session (Session.set_updated_at new now).

Definition add_Checkpoint (c : Checkpoint.t) : Task unit :=
  with_working (fun d => mkDb (sessions d) (memories d)
                              (<[Checkpoint.id c := c]> (checkpoints d))
                              (session_lineage d)).

Definition add_SessionLineage (l : SessionLineage.t) : Task unit :=
  with_working (fun d => mkDb (sessions d) (memories d) (checkpoints d)
                              (<[SessionLineage.id l := l]> (session_lineage d))).

(** [await db.refresh(row)]: the row as the engine has it *)
Definition refresh_Session (s : Session.t) : Task Session.t :=
  fun db =>
    match sessions (stored db) !! Session.id s with
    | Some s' => (Ok s', db)
    | None => (Raise DBAPIError, db)
    end.

Definition refresh_Checkpoint (c : Checkpoint.t) : Task Checkpoint.t :=
  fun db =>
    match checkpoints (stored db) !! Checkpoint.id c with
    | Some c' => (Ok c', db)
    | None => (Raise DBAPIError, db)
    end.

(** [select(Memory).where(Memory.session_id == session_id)] *)
Definition select_memories_of (session_id : UUID) : Task (list Memory.t) :=
  fun db =>
    (Ok (filter (fun m => Memory.session_id m = session_id)
                (map snd (map_to_list (memories (stored db))))), db).

(** Every memory sits under its own primary key *)
Definition memories_keyed (d : Db) : Prop :=
  map_Forall (fun k m => Memory.id m = k) (memories d).

End Database.

Import Database.

Notation "'let*' x ':=' c 'in' k" := (await c (fun x => k))
  (at level 10, x name, c at level 100, k at level 200).

(** ** session_service.py *)

Module SessionService.

Definition DEFAULT_MAX_TOKENS : Z := 200000.

(** [max_tokens or settings.DEFAULT_MAX_TOKENS] *)
Definition or_default (max_tokens : option Z) : Z :=
  match max_tokens with
  | None => DEFAULT_MAX_TOKENS
  | Some n => if (n =? 0)%Z then DEFAULT_MAX_TOKENS else n
  end.

Definition create_session (task_description : string) (max_tokens : option Z)
    : Task Session.t :=
  let* id := uuid4 in
  let* now := utcnow in
  let session :=
    Session.mk id task_description (or_default max_tokens) 0 ACTIVE now now in
  let* _ := add_Session session in
  let* _ := commit in
  let* session := refresh_Session session in
  ret session.

Definition get_session (session_id : UUID) : Task (option Session.t) :=
  get_Session session_id.

Definition update_tokens (session_id : UUID) (tokens : Z) : Task Session.t :=
  let* session := get_Session session_id in
  match session with
  | None => raise (ValueError "Session" session_id)
  | Some session =>
      let session' := Session.set_current_tokens session tokens in
      let* _ := assign_Session session session' in
      let* _ := commit in
      let* session := refresh_Session session' in
      ret session
  end.

Definition complete_session (session_id : UUID) : Task Session.t :=
  let* session := get_Session session_id in
  match session with
  | None => raise (ValueError "Session" session_id)
  | Some session =>
      let session' := Session.set_status session COMPLETED in
      let* _ := assign_Session session session' in
      let* _ := commit in
      let* session := refresh_Session session' in
      ret session
  end.

Definition terminate_session (session_id : UUID) : Task Session.t :=
  let* session := get_Session session_id in
  match session with
  | None => raise (ValueError "Session" session_id)
  | Some session =>
      let session' := Session.set_status session TERMINATED in
      let* _ := assign_Session session session' in
      let* _ := commit in
      let* session := refresh_Session session' in
      ret session
  end.

(** Terminal states *)
Definition terminal (st : SessionStatus) : bool :=
  match st with
  | ACTIVE => false
  | COMPLETED | TERMINATED => true
  end.

(** Every row of the session table sits under its own primary key *)
Definition keyed (d : Db) : Prop :=
  forall k s, sessions d !! k = Some s -> Session.id s = k.

(** The next [commit] is not refused by the engine *)
Definition commit_goes_through (db : AsyncSession) : Prop :=
  head (commit_faults db) <> Some true.

(** [UpdateTokens] as the specification words it: an update with
    [tokens > max_tokens] or on a terminal session is rejected and leaves the
    stored row as it was. *)
Definition update_tokens_rejects : Prop :=
  forall (db : AsyncSession) (session_id : UUID) (tokens : Z) (s : Session.t),
    sessions (working db) !! session_id = Some s ->
    (tokens > Session.max_tokens s)%Z \/ terminal (Session.status s) = true ->
    (exists e, fst (update_tokens session_id tokens db) = Raise e)
    /\ sessions (stored (snd (update_tokens session_id tokens db))) !! session_id
       = sessions (stored db) !! session_id.

End SessionService.

(** ** transcript_watcher.py *)

Module TranscriptWatcher.

Definition TRANSCRIPT_TAIL_SIZE : Z := 10240.
Definition MAX_CONTEXT_TOKENS : Z := 200000.
Definition BYTES_PER_TOKEN : Z := 6.
Definition SYSTEM_OVERHEAD_TOKENS : Z := 2000.

Module ClaudeSource.

Record t : Type := mk {
  name : string;
  projects_dir : string;
  color : string
}.

End ClaudeSource.

Module ProjectData.

Record t : Type := mk {
  name : string;
  project_path : string;
  current_tokens : Z;
  max_tokens : Z;
  context_usage : Q;
  last_updated : Z;
  transcript_path : string;
  is_real_data : bool;
  source_name : string;
  source_color : string
}.

End ProjectData.

Record FileChangeEvent : Type := {
  event_type : string;
  path : string;
  timestamp : Q
}.

(** What the watcher asks of the file system. [read_file] is the bytes of a
    file ([None]: it cannot be opened), [listdir] the entries of a directory,
    [st_mtime] the modification time [os.stat] reports. *)
Record FileSystem : Type := {
  read_file : string -> option string;
  listdir : string -> option (list string);
  st_mtime : string -> option Q;
  isdir : string -> bool;
  path_exists : string -> bool
}.

(** One row of the [projects] list of a status snapshot *)
Record ProjectStatus : Type := {
  name : string;
  projectPath : string;
  currentTokens : Z;
  maxTokens : Z;
  contextUsage : Q;
  pct : Z;
  lastUpdated : Z;
  isRealData : bool;
  source : string * string;
  transcriptPath : string
}.

Record Status : Type := {
  connected : bool;
  projectCount : Z;
  projects : list ProjectStatus;
  status_sources : list (string * string);
  totalTokens : Z;
  status_timestamp : Z
}.

(** The watcher object together with what it acts on: the engine behind
    [async_session_maker] and the messages handed to the SSE manager. *)
Record State : Type := mkState {
  sources : list ClaudeSource.t;
  cached_projects : gmap string ProjectData.t;
  sse_manager : bool;
  sent : list (string * Status);
  engine : Db;
  uuid_supply : positive;
  now : Z;
  engine_faults : list bool
}.

(** [TranscriptWatcher(sse_manager)] on a given engine *)
Definition init (sse : bool) (db : Db) (next : positive) (clock : Z)
    (faults : list bool) : State :=
  mkState [] ∅ sse [] db next clock faults.

Definition set_cached_projects (w : State) (c : gmap string ProjectData.t) : State :=
  mkState (sources w) c (sse_manager w) (sent w) (engine w) (uuid_supply w)
          (now w) (engine_faults w).

Definition set_sources (w : State) (l : list ClaudeSource.t) : State :=
  mkState l (cached_projects w) (sse_manager w) (sent w) (engine w)
          (uuid_supply w) (now w) (engine_faults w).

Definition set_sse_manager (w : State) (sse : bool) : State :=
  mkState (sources w) (cached_projects w) sse (sent w) (engine w)
          (uuid_supply w) (now w) (engine_faults w).

(** [await self.sse_manager.broadcast(event, data)] *)
Definition broadcast (event : string) (data : Status) : Eff State unit :=
  fun w => (Ok tt, mkState (sources w) (cached_projects w) (sse_manager w)
                           (sent w ++ [(event, data)]) (engine w)
                           (uuid_supply w) (now w) (engine_faults w)).

(** [async with async_session_maker() as db: body] *)
Definition with_db {A : Type} (body : Task A) : Eff State A :=
  fun w =>
    let '(r, db) :=
      body (open_session (engine w) (uuid_supply w) (now w) (engine_faults w)) in
    (r, mkState (sources w) (cached_projects w) (sse_manager w) (sent w)
                (stored db) (next_uuid db) (now w) (commit_faults db)).

(** *** decode_project_name *)

(** The pieces of the patterns: literal text and [[^-]+]. Every [[^-]+] of
    the patterns is followed by a literal that starts with a dash, so it takes
    exactly the run of non-dash characters before it. *)
Inductive piece : Type :=
  | Lit (s : string)
  | NotDashes.

Fixpoint drop_str (n : nat) (s : string) : string :=
  match n, s with
  | S k, String _ rest => drop_str k rest
  | _, _ => s
  end.

Fixpoint skip_not_dash (s : string) : string :=
  match s with
  | EmptyString => EmptyString
  | String c rest => if Ascii.eqb c "-" then s else skip_not_dash rest
  end.

(** What is left of [s] after a match of [^pattern] *)
Fixpoint match_prefix (pattern : list piece) (s : string) : option string :=
  match pattern with
  | [] => Some s
  | Lit l :: pattern' =>
      if startswith l s then match_prefix pattern' (drop_str (String.length l) s)
      else None
  | NotDashes :: pattern' =>
      match s with
      | EmptyString => None
      | String c _ =>
          if Ascii.eqb c "-" then None else match_prefix pattern' (skip_not_dash s)
      end
  end.

(** [re.sub(pattern, "", name)] for a pattern anchored at the start *)
Definition re_sub_prefix (name : string) (pattern : list piece) : string :=
  default name (match_prefix pattern name).

Definition patterns : list (list piece) :=
  [ [Lit "-home-"; NotDashes; Lit "-Documents-lab-"; NotDashes; Lit "-"];
    [Lit "-home-"; NotDashes; Lit "-Documents-lab-"];
    [Lit "-home-"; NotDashes; Lit "-Documents-"];
    [Lit "-home-"; NotDashes; Lit "-"];
    [Lit "-home"];
    [Lit "-"] ].

Definition decode_project_name (project_dir : string) : string :=
  let name := foldl re_sub_prefix project_dir patterns in
  if (40 <? String.length name)%nat
  then join "-" (last_n 3 (split "-" name))
  else name.

(** *** _extract_project_info *)

Fixpoint first_source (sources : list ClaudeSource.t) (transcript_path : string)
    : option string :=
  match sources with
  | [] => None
  | source :: rest =>
      if str_in (ClaudeSource.projects_dir source) transcript_path
      then Some (ClaudeSource.name source)
      else first_source rest transcript_path
  end.

Fixpoint first_dot_dir (parts : list string) : option string :=
  match parts with
  | [] => None
  | part :: rest =>
      if startswith ".claude" part || String.eqb part ".opencode"
      then Some (lstrip_char "." part)
      else first_dot_dir rest
  end.

Definition _extract_project_info (self : State) (transcript_path : string)
    : option string * option string :=
  let parts := split "/projects/" transcript_path in
  match parts with
  | _ :: after :: _ =>
      let source_name :=
        match first_source (sources self) transcript_path with
        | Some n => Some n
        | None => first_dot_dir (split "/" transcript_path)
        end in
      match source_name with
      | None => (None, None)
      | Some source_name =>
          let project_dir := hd "" (split "/" after) in
          (Some source_name, Some (decode_project_name project_dir))
      end
  | _ => (None, None)
  end.

(** *** Token extraction *)

Section Extraction.

(** [json.loads] *)
Variable json_loads : string -> result json.

(** The text ["type":"assistant"] *)
Definition marker : string := (quoted "type" ++ ":" ++ quoted "assistant")%string.

(** One turn of the loop body of [_extract_usage_from_content], before its
    [except] clause: [Ok (Some v)] is [return v], [Ok None] falls through to
    the next line. *)
Definition scan_line (line : string) : result (option json) :=
  if negb (str_in marker line) then Ok None
  else
    bind (json_loads line) (fun msg =>
    match msg with
    | JObj msg =>
        match obj_get "type" msg with
        | Some (JStr "assistant") =>
            match obj_get_default "message" (JObj []) msg with
            | JObj message =>
                if truthy (default JNull (obj_get "usage" message)) then
                  match obj_get "usage" message with
                  | Some (JObj usage) =>
                      bind (add (obj_get_default "input_tokens" (JInt 0) usage)
                                (obj_get_default "cache_creation_input_tokens"
                                                 (JInt 0) usage))
                           (fun total_context => Ok (Some total_context))
                  | _ => Raise (AttributeError "get")
                  end
                else Ok None
            | _ => Raise (AttributeError "get")
            end
        | _ => Ok None
        end
    | _ => Raise (AttributeError "get")
    end).

(** [except (json.JSONDecodeError, KeyError): continue] *)
Definition caught (e : exn) : bool :=
  match e with
  | JSONDecodeError | KeyError => true
  | _ => false
  end.

Fixpoint scan_lines (reversed_lines : list string) : result (option json) :=
  match reversed_lines with
  | [] => Ok None
  | line :: rest =>
      match scan_line line with
      | Ok (Some v) => Ok (Some v)
      | Ok None => scan_lines rest
      | Raise e => if caught e then scan_lines rest else Raise e
      end
  end.

Definition content_lines (content : string) : list string :=
  split (String (Ascii.ascii_of_nat 10) "") (strip content).

Definition _extract_usage_from_content (content : string) : result (option json) :=
  scan_lines (rev (content_lines content)).

(** An assistant turn with a usage block, as the scan recognises one *)
Definition usage_turn (line : string) (usage : list (string * json)) : Prop :=
  str_in marker line = true
  /\ exists msg message,
       json_loads line = Ok (JObj msg)
       /\ obj_get "type" msg = Some (JStr "assistant")
       /\ obj_get "message" msg = Some (JObj message)
       /\ obj_get "usage" message = Some (JObj usage)
       /\ usage <> [].

(** A line the scan goes past: no return, and nothing raised beyond what the
    [except] clause takes *)
Definition passed_over (line : string) : Prop :=
  scan_line line = Ok None
  \/ exists e, scan_line line = Raise e /\ caught e = true.

(** The integer under [key] of a usage block, 0 when the key is missing *)
Definition token_field (key : string) (usage : list (string * json)) (n : Z) : Prop :=
  obj_get_default key (JInt 0) usage = JInt n.

(** Text mode reading: universal newlines *)
Fixpoint universal_newlines (s : string) : string :=
  match s with
  | EmptyString => EmptyString
  | String c rest =>
      if Ascii.eqb c (Ascii.ascii_of_nat 13) then
        match rest with
        | String d rest' =>
            if Ascii.eqb d (Ascii.ascii_of_nat 10)
            then String d (universal_newlines rest')
            else String (Ascii.ascii_of_nat 10) (universal_newlines rest)
        | EmptyString => String (Ascii.ascii_of_nat 10) EmptyString
        end
      else String c (universal_newlines rest)
  end.

Definition get_last_assistant_usage (fs : FileSystem) (transcript_path : string)
    : option json :=
  match read_file fs transcript_path with
  | None => None
  | Some data =>
      let file_size := Z.of_nat (String.length data) in
      let content :=
        if (file_size <=? TRANSCRIPT_TAIL_SIZE)%Z then universal_newlines data
        else drop_str (Z.to_nat (file_size - TRANSCRIPT_TAIL_SIZE)) data in
      match _extract_usage_from_content content with
      | Ok v => v
      | Raise _ => None
      end
  end.

End Extraction.

(** *** The watcher's operations *)

Section Watcher.

Variable json_loads : string -> result json.

(** [round(x * 100)] as binary floating point evaluates it *)
Variable round_percent : Q -> Z.

(** [_get_project_transcripts]: the [try] spans the loop, so the first
    [os.stat] that fails ends the listing with what was found before it. *)
Fixpoint collect_transcripts (fs : FileSystem) (project_dir : string)
    (files : list string) : list (string * Q) :=
  match files with
  | [] => []
  | file :: rest =>
      if negb (endswith ".jsonl" file) || startswith "agent-" file
      then collect_transcripts fs project_dir rest
      else
        let path := path_join project_dir file in
        match st_mtime fs path with
        | Some mtime => (path, mtime) :: collect_transcripts fs project_dir rest
        | None => []
        end
  end.

Definition _get_project_transcripts (fs : FileSystem) (project_dir : string)
    : list (string * Q) :=
  match listdir fs project_dir with
  | Some files => collect_transcripts fs project_dir files
  | None => []
  end.

Definition _is_active_transcript (fs : FileSystem)
    (transcript_path project_dir : string) : bool :=
  match sorted_desc snd (_get_project_transcripts fs project_dir) with
  | [] => true
  | (newest, _) :: _ => String.eqb newest transcript_path
  end.

Definition get_status (self : State) : Status :=
  let projects_list :=
    map (fun p : ProjectData.t =>
           {| name := (ProjectData.source_name p ++ "—" ++ ProjectData.name p)%string;
              projectPath := ProjectData.project_path p;
              currentTokens := ProjectData.current_tokens p;
              maxTokens := ProjectData.max_tokens p;
              contextUsage := ProjectData.context_usage p;
              pct := round_percent (ProjectData.context_usage p * 100)%Q;
              lastUpdated := ProjectData.last_updated p;
              isRealData := ProjectData.is_real_data p;
              source := (ProjectData.source_name p, ProjectData.source_color p);
              transcriptPath := ProjectData.transcript_path p |})
        (map snd (map_to_list (cached_projects self))) in
  let projects_list :=
    sorted_desc (fun x => inject_Z (currentTokens x)) projects_list in
  let total_tokens := foldr Z.add 0 (map currentTokens projects_list) in
  {| connected := true;
     projectCount := Z.of_nat (length projects_list);
     projects := projects_list;
     status_sources :=
       map (fun s => (ClaudeSource.name s, ClaudeSource.color s)) (sources self);
     totalTokens := total_tokens;
     status_timestamp := now self |}.

(** The newest row of [select(Session).where(task_description == task)
    .order_by(created_at.desc()).limit(1)] *)
Definition newer (best : option Session.t) (s : Session.t) : option Session.t :=
  match best with
  | None => Some s
  | Some b => if (Session.created_at b <? Session.created_at s)%Z then Some s else Some b
  end.

Definition select_latest_by_task (task : string) : Task (option Session.t) :=
  fun db =>
    (Ok (foldl newer None
           (filter (fun s => Session.task_description s = task)
                   (map snd (map_to_list (sessions (stored db)))))), db).

(** The token count [_update_project_tokens] settles on *)
Definition count_tokens (fs : FileSystem) (transcript_path : string)
    (real_tokens : option json) : result Z :=
  match real_tokens with
  | None =>
      match read_file fs transcript_path with
      | None => Raise OSError
      | Some data =>
          let file_size := Z.of_nat (String.length data) in
          Ok (Z.min (file_size / BYTES_PER_TOKEN + SYSTEM_OVERHEAD_TOKENS)
                    MAX_CONTEXT_TOKENS)
      end
  | Some v =>
      match as_int v with
      | Some n => Ok (Z.min n MAX_CONTEXT_TOKENS)
      | None => Raise TypeError
      end
  end.

Definition store_tokens (session_key : string) (tokens : Z) : Task unit :=
  let* session := select_latest_by_task ("Auto-detected: " ++ session_key)%string in
  match session with
  | Some session =>
      if (Session.current_tokens session =? tokens)%Z then ret tt
      else
        let* _ := assign_Session session (Session.set_current_tokens session tokens) in
        commit
  | None =>
      let* id := uuid4 in
      let* created := utcnow in
      let new_session :=
        Session.mk id ("Auto-detected: " ++ session_key)%string MAX_CONTEXT_TOKENS tokens
                   ACTIVE created created in
      let* _ := add_Session new_session in
      commit
  end.

(** The body of the [try] of [_update_project_tokens] *)
Definition update_project_tokens_body (fs : FileSystem)
    (source_name project_name transcript_path : string) : Eff State unit :=
  let real_tokens := get_last_assistant_usage json_loads fs transcript_path in
  let* tokens := lift (count_tokens fs transcript_path real_tokens) in
  let session_key := (source_name ++ ":" ++ project_name)%string in
  let* _ := with_db (store_tokens session_key tokens) in
  let key := (source_name ++ ":" ++ project_name)%string in
  let* usage := lift (truediv tokens MAX_CONTEXT_TOKENS) in
  let* _ := (fun self =>
    (Ok tt, set_cached_projects self
       (<[ key := ProjectData.mk project_name project_name tokens MAX_CONTEXT_TOKENS
                    (min_Q 0.99 usage) (now self) transcript_path
                    (is_not_None real_tokens) source_name "" ]>
          (cached_projects self)))) in
  fun self =>
    if sse_manager self then broadcast "update" (get_status self) self
    else (Ok tt, self).

Definition _update_project_tokens (fs : FileSystem)
    (source_name project_name transcript_path : string) (self : State) : State :=
  swallow (update_project_tokens_body fs source_name project_name transcript_path) self.

Definition mark_inactive (session_key : string) : Task unit :=
  let* session := select_latest_by_task ("Auto-detected: " ++ session_key)%string in
  match session with
  | Some session =>
      let* inactive := lift (SessionStatus_attr "INACTIVE") in
      let* _ := assign_Session session (Session.set_status session inactive) in
      commit
  | None => ret tt
  end.

Definition _handle_deleted_transcript (path : string) : Eff State unit :=
  fun self =>
    match _extract_project_info self path with
    | (Some source_name, Some project_name) =>
        if nonempty source_name && nonempty project_name then
          let session_key := (source_name ++ ":" ++ project_name)%string in
          (let* _ := with_db (mark_inactive session_key) in
           fun self =>
             (Ok tt, set_cached_projects self
                       (delete session_key (cached_projects self)))) self
        else (Ok tt, self)
    | _ => (Ok tt, self)
    end.

Definition _handle_file_event (fs : FileSystem) (event : FileChangeEvent)
    : Eff State unit :=
  if String.eqb (event_type event) "deleted"
  then _handle_deleted_transcript (path event)
  else fun self =>
    match split "/projects/" (path event) with
    | _ :: _ :: _ =>
        let project_dir := dirname (path event) in
        if negb (_is_active_transcript fs (path event) project_dir)
        then (Ok tt, self)
        else
          match _extract_project_info self (path event) with
          | (Some source_name, Some project_name) =>
              if nonempty source_name && nonempty project_name
              then (Ok tt, _update_project_tokens fs source_name project_name
                                                  (path event) self)
              else (Ok tt, self)
          | _ => (Ok tt, self)
          end
    | _ => (Ok tt, self)
    end.

(** One turn of [_process_events_loop] past the throttle: whatever the
    handler raises is logged and dropped. *)
Definition process_event (fs : FileSystem) (event : FileChangeEvent)
    (self : State) : State :=
  swallow (_handle_file_event fs event) self.

Definition sync_project (fs : FileSystem) (source : ClaudeSource.t)
    (self : State) (project_dir : string) : State :=
  let project_path := path_join (ClaudeSource.projects_dir source) project_dir in
  if negb (isdir fs project_path) then self
  else
    match sorted_desc snd (_get_project_transcripts fs project_path) with
    | [] => self
    | (active_path, _) :: _ =>
        _update_project_tokens fs (ClaudeSource.name source)
                               (decode_project_name project_dir) active_path self
    end.

Definition sync_source (fs : FileSystem) (self : State) (source : ClaudeSource.t)
    : State :=
  if negb (path_exists fs (ClaudeSource.projects_dir source)) then self
  else
    match listdir fs (ClaudeSource.projects_dir source) with
    | None => self
    | Some dirs => foldl (sync_project fs source) self dirs
    end.

Definition _initial_sync (fs : FileSystem) (self : State) : State :=
  foldl (sync_source fs) self (sources self).

(** What the dashboard is told about context usage stays at or below 0.99 *)
Definition snapshot_bounded (st : Status) : Prop :=
  Forall (fun p => (contextUsage p <= 0.99)%Q) (projects st).

(** The invariant behind the bound: every cached project and every snapshot
    handed to the SSE manager respects it. *)
Definition cache_bounded (c : gmap string ProjectData.t) : Prop :=
  map_Forall (fun _ p => (ProjectData.context_usage p <= 0.99)%Q) c.

Definition bounded (self : State) : Prop :=
  cache_bounded (cached_projects self)
  /\ Forall (fun m => snapshot_bounded (snd m)) (sent self).

(** Other writers change the engine and time passes *)
Definition set_world (self : State) (db : Db) (next : positive) (clock : Z)
    (faults : list bool) : State :=
  mkState (sources self) (cached_projects self) (sse_manager self) (sent self)
          db next clock faults.

(** The states a watcher goes through: construction, source detection,
    attaching the SSE manager, the initial sync and processed events, under
    whatever the file system holds at the time. *)
Inductive reachable : State -> Prop :=
  | reach_init sse db next clock faults :
      reachable (init sse db next clock faults)
  | reach_sources self l :
      reachable self -> reachable (set_sources self l)
  | reach_sse self sse :
      reachable self -> reachable (set_sse_manager self sse)
  | reach_world self db next clock faults :
      reachable self -> reachable (set_world self db next clock faults)
  | reach_sync self fs :
      reachable self -> reachable (_initial_sync fs self)
  | reach_event self fs event :
      reachable self -> reachable (process_event fs event self).

End Watcher.

End TranscriptWatcher.

Import TranscriptWatcher.

(** ** memory_service.py *)

Module MemoryService.

(** [MemoryIndexItem]; [id] is [str(m.id)], the text of a UUID being
    identified with the UUID. *)
Record MemoryIndexItem : Type := {
  id : UUID;
  summary : string;
  category : string;
  priority : string;
  score : Q
}.

Definition set_score (item : MemoryIndexItem) (v : Q) : MemoryIndexItem :=
  {| id := id item; summary := summary item; category := category item;
     priority := priority item; score := v |}.

(** [content[:50] + ("..." if len(content) > 50 else "")] *)
Definition summarize (content : string) : string :=
  (String.substring 0 50 content
   ++ (if (50 <? String.length content)%nat then "..." else ""))%string.

(** [sum(1 for kw in keywords if kw in content_lower)] *)
Fixpoint count_matches (keywords : list string) (content_lower : string) : Z :=
  match keywords with
  | [] => 0
  | kw :: rest =>
      if str_in kw content_lower then 1 + count_matches rest content_lower
      else count_matches rest content_lower
  end.

(** The local function [calc_score] of [search_index] *)
Definition calc_score (keywords : list string) (memory : Memory.t) : result Q :=
  let content_lower := lower (Memory.content memory) in
  let matches := count_matches keywords content_lower in
  match keywords with
  | [] => Ok 0%Q
  | _ => truediv matches (Z.of_nat (length keywords))
  end.

Definition index_item (keywords : list string) (m : Memory.t)
    : result MemoryIndexItem :=
  bind (calc_score keywords m) (fun s =>
  Ok {| id := Memory.id m;
        summary := summarize (Memory.content m);
        category := MemoryCategory_value (Memory.category m);
        priority := MemoryPriority_value (Memory.priority m);
        score := s |}).

(** [[f(x) for x in l]] where [f] can raise *)
Fixpoint for_each {A B : Type} (f : A -> result B) (l : list A) : result (list B) :=
  match l with
  | [] => Ok []
  | x :: rest =>
      bind (f x) (fun y => bind (for_each f rest) (fun ys => Ok (y :: ys)))
  end.

(** [{r.id: (i + 1, ...) for i, r in enumerate(results)}], keeping the rank;
    a later item with the same id replaces an earlier one. *)
Fixpoint ranks_from (i : Z) (ids : list UUID) (acc : gmap UUID Z) : gmap UUID Z :=
  match ids with
  | [] => acc
  | x :: rest => ranks_from (i + 1) rest (<[x := i + 1]> acc)
  end.

Definition ranks (ids : list UUID) : gmap UUID Z := ranks_from 0 ids ∅.

(** [{r.id: r for r in keyword_results}] *)
Definition lookup_table (items : list MemoryIndexItem) : gmap UUID MemoryIndexItem :=
  foldl (fun acc r => <[id r := r]> acc) ∅ items.

(** The body of the fusion loop for one [memory_id] *)
Definition rrf_score (keyword_weight vector_weight : Q)
    (keyword_scores vector_scores : gmap UUID Z) (memory_id : UUID) : Q :=
  let k := 60%Z in
  let rrf_score := 0%Q in
  let rrf_score :=
    match keyword_scores !! memory_id with
    | Some rank => (rrf_score + keyword_weight * (1 / inject_Z (k + rank)))%Q
    | None => rrf_score
    end in
  let rrf_score :=
    match vector_scores !! memory_id with
    | Some rank => (rrf_score + vector_weight * (1 / inject_Z (k + rank)))%Q
    | None => rrf_score
    end in
  rrf_score.

(** The scoring rule in the words of the specification, with and without
    the word "distinct": the query is lowercased and split on whitespace, and
    a token counts when it occurs in the (lowercased) content. *)
Definition query_tokens (query : string) : list string := split_ws (lower query).

Definition occurs_in (content token : string) : bool :=
  str_in token (lower content).

Definition hit_ratio (tokens : list string) (content : string) : Q :=
  (inject_Z (Z.of_nat (length (filter (fun t => occurs_in content t = true) tokens)))
   / inject_Z (Z.of_nat (length tokens)))%Q.

Definition token_score (query content : string) : Q :=
  hit_ratio (query_tokens query) content.

Definition distinct_token_score (query content : string) : Q :=
  hit_ratio (remove_dups (query_tokens query)) content.

(** [content ILIKE '%kw%'] for a keyword without wildcard characters, and the
    order of the [memory_priority] type as the schema declares it *)
Definition ilike_plain (kw content : string) : bool :=
  str_in (lower kw) (lower content).

Definition priority_declared (p : MemoryPriority) : Z :=
  match p with
  | PRIO_HIGH => 1
  | PRIO_NORMAL => 2
  | PRIO_LOW => 3
  end.

Section Search.

(** What the engine decides: [content ILIKE '%kw%'], the sort key of the
    [priority] column, and the vector path (query embedding, then the rows
    nearest to it with their similarity), which can fail as a whole. *)
Variable ilike : string -> string -> bool.
Variable priority_key : MemoryPriority -> Z.
Variable has_embedding_provider : bool.
Variable vector_path : Db -> UUID -> string -> Z -> result (list (UUID * Q)).

(** The order in which a [set] of ids is iterated *)
Variable set_order : gset UUID -> list UUID.

(** The query of [search_index] *)
Definition select_index_rows (session_id : UUID) (keywords : list string)
    (top_k : Z) : Task (list Memory.t) :=
  fun db =>
    if (top_k <? 0)%Z then (Raise DBAPIError, db)
    else
      let rows :=
        filter (fun m => Memory.session_id m = session_id
                         /\ existsb (fun kw => ilike kw (Memory.content m)) keywords = true)
               (map snd (map_to_list (memories (stored db)))) in
      let rows := sorted_desc (fun m => inject_Z (Memory.created_at m)) rows in
      let rows := sorted_desc (fun m => inject_Z (priority_key (Memory.priority m))) rows in
      (Ok (firstn (Z.to_nat top_k) rows), db).

Definition search_index (session_id : UUID) (query : string) (top_k : Z)
    : Task (list MemoryIndexItem) :=
  let keywords := split_ws (lower query) in
  match keywords with
  | [] => ret []
  | _ =>
      let* memories := select_index_rows session_id keywords top_k in
      lift (for_each (index_item keywords) memories)
  end.

(** The scoring claim as the specification states it *)
Definition scores_distinct_tokens : Prop :=
  forall (db db' : AsyncSession) (session_id : UUID) (query : string) (top_k : Z)
         (items : list MemoryIndexItem),
    search_index session_id query top_k db = (Ok items, db') ->
    forall item, item ∈ items ->
      exists m, memories (stored db) !! id item = Some m
                /\ (score item == distinct_token_score query (Memory.content m))%Q.

(** [select(Memory).where(Memory.id.in_([memory_id]))] *)
Definition fetch_memory (memory_id : UUID) : Task (option Memory.t) :=
  fun db => (Ok (memories (stored db) !! memory_id), db).

(** The loop that builds the result items *)
Fixpoint build_results (sorted_ids : list UUID)
    (keyword_lookup : gmap UUID MemoryIndexItem) (combined_scores : gmap UUID Q)
    : Task (list MemoryIndexItem) :=
  match sorted_ids with
  | [] => ret []
  | memory_id :: rest =>
      let combined := default 0%Q (combined_scores !! memory_id) in
      match keyword_lookup !! memory_id with
      | Some item =>
          let* results := build_results rest keyword_lookup combined_scores in
          ret (set_score item combined :: results)
      | None =>
          let* memory := fetch_memory memory_id in
          let* results := build_results rest keyword_lookup combined_scores in
          match memory with
          | Some memory =>
              ret ({| id := Memory.id memory;
                      summary := summarize (Memory.content memory);
                      category := MemoryCategory_value (Memory.category memory);
                      priority := MemoryPriority_value (Memory.priority memory);
                      score := combined |} :: results)
          | None => ret results
          end
      end
  end.

(** The item the loop appends for one id, if any *)
Definition result_item (d : Db) (keyword_lookup : gmap UUID MemoryIndexItem)
    (combined_scores : gmap UUID Q) (memory_id : UUID) : option MemoryIndexItem :=
  let combined := default 0%Q (combined_scores !! memory_id) in
  match keyword_lookup !! memory_id with
  | Some item => Some (set_score item combined)
  | None =>
      match memories d !! memory_id with
      | Some memory =>
          Some {| id := Memory.id memory;
                  summary := summarize (Memory.content memory);
                  category := MemoryCategory_value (Memory.category memory);
                  priority := MemoryPriority_value (Memory.priority memory);
                  score := combined |}
      | None => None
      end
  end.

Definition hybrid_search (session_id : UUID) (query : string) (top_k : Z)
    (keyword_weight vector_weight : Q) : Task (list MemoryIndexItem) :=
  let* keyword_results := search_index session_id query (top_k * 2) in
  let keyword_scores := ranks (map id keyword_results) in
  let* vector_scores :=
    (fun db =>
       (Ok (if has_embedding_provider then
              match vector_path (stored db) session_id query (top_k * 2) with
              | Ok vector_results => ranks (map fst vector_results)
              | Raise _ => ∅
              end
            else ∅), db)) in
  let all_ids := set_order (dom keyword_scores ∪ dom vector_scores) in
  let combined_scores :=
    foldl (fun acc memory_id =>
             <[memory_id := rrf_score keyword_weight vector_weight
                                      keyword_scores vector_scores memory_id]> acc)
          (∅ : gmap UUID Q) all_ids in
  let sorted_ids :=
    slice_to top_k
      (sorted_desc (fun x => default 0%Q (combined_scores !! x)) all_ids) in
  let keyword_lookup := lookup_table keyword_results in
  build_results sorted_ids keyword_lookup combined_scores.

End Search.

End MemoryService.

(** ** checkpoint_service.py and spawn_service.py *)

Module SpawnService.

Record SpawnResult : Type := {
  parent_session_id : UUID;
  child_session_id : UUID;
  handoff_prompt : string;
  checkpoint_id : option UUID
}.

Section Spawn.

(** [int(x * 100)] as binary floating point evaluates it *)
Variable percent_int : Q -> Z.

(** [llm.complete(prompt)] for the handoff prompt built from the parent's task
    description, the reason and the percentage of context used *)
Variable llm_complete : string -> string -> Z -> result string.

(** The [metadata] argument is handed to the [Checkpoint] constructor under a
    name that is no column of the table ([extra_data] is), so no stored field
    depends on it. *)
Definition create_checkpoint (session_id : UUID) (label : string)
    (metadata : list (string * string)) : Task Checkpoint.t :=
  let* session := get_Session session_id in
  match session with
  | None => raise (ValueError "Session" session_id)
  | Some session =>
      let* memories := select_memories_of session_id in
      let memory_ids := map Memory.id memories in
      let* context_usage := lift (Session.context_usage_percent percent_int session) in
      let* id := uuid4 in
      let* now := utcnow in
      let checkpoint :=
        Checkpoint.mk id session_id label
          (Session.task_description session)
          (Session.current_tokens session)
          (Session.max_tokens session)
          (SessionStatus_value (Session.status session))
          context_usage memory_ids now in
      let* _ := add_Checkpoint checkpoint in
      let* _ := commit in
      let* checkpoint := refresh_Checkpoint checkpoint in
      ret checkpoint
  end.

Definition _generate_handoff_prompt (session : Session.t) (reason : string)
    : Task string :=
  let* percent := lift (Session.context_usage_percent percent_int session) in
  lift (llm_complete (Session.task_description session) reason percent).

Definition execute_spawn (parent_session_id : UUID) (handoff_reason : string)
    (task_description : option string) : Task SpawnResult :=
  let* parent := get_Session parent_session_id in
  match parent with
  | None => raise (ValueError "Parent session" parent_session_id)
  | Some parent =>
      let* checkpoint :=
        create_checkpoint parent_session_id
          ("spawn-" ++ String.substring 0 20 handoff_reason)%string
          [("handoff_reason", handoff_reason)] in
      let* handoff_prompt := _generate_handoff_prompt parent handoff_reason in
      let* child :=
        SessionService.create_session (or_str task_description handoff_prompt)
                       (Some (Session.max_tokens parent)) in
      let* lineage_id := uuid4 in
      let* now := utcnow in
      let lineage :=
        SessionLineage.mk lineage_id (Some parent_session_id) (Session.id child)
                          handoff_reason handoff_prompt
                          (Some (Checkpoint.id checkpoint)) now in
      let* _ := add_SessionLineage lineage in
      let* _ := assign_Session parent (Session.set_status parent COMPLETED) in
      let* _ := commit in
      ret {| parent_session_id := parent_session_id;
             child_session_id := Session.id child;
             handoff_prompt := handoff_prompt;
             checkpoint_id := Some (Checkpoint.id checkpoint) |}
  end.

(** Spawn execution as the specification words it: when the last step (the
    lineage row and the parent's completion, written by the third commit)
    fails after the first three went through, the store is as it was. *)
Definition spawn_rolls_back : Prop :=
  forall (db : AsyncSession) (parent_session_id : UUID) (handoff_reason : string)
         (task_description : option string) (rest : list bool)
         (parent : Session.t) (percent : Z) (prompt : string),
    working db = stored db ->
    sessions (stored db) !! parent_session_id = Some parent ->
    Session.context_usage_percent percent_int parent = Ok percent ->
    llm_complete (Session.task_description parent) handoff_reason percent = Ok prompt ->
    commit_faults db = false :: false :: true :: rest ->
    stored (snd (execute_spawn parent_session_id handoff_reason task_description db))
    = stored db.

End Spawn.

(** [int(x)] on an exact rational: truncation towards zero *)
Definition percent_exact (x : Q) : Z := Z.quot (Qnum x) (Zpos (Qden x)).

End SpawnService.

(** ** Scenarios the properties are tried on *)

Module Scenarios.

Import FoldService MemoryService.

(** A configuration switched to a GLM profile *)
Definition glm_config : ConfigFile :=
  Content (dumps (JObj [ ("current", JStr "GLM-4.6"); ("profiles", JArr []) ])).

(** A completed session with a window of 100 tokens *)
Definition example_session : Session.t :=
  Session.mk 1%positive "task" 100 10 COMPLETED 0 0.

Definition example_db : AsyncSession :=
  open_session (mkDb {[ 1%positive := example_session ]} ∅ ∅ ∅) 2%positive 5 [].

(** A transcript whose last assistant turn reads 50000 tokens from the cache *)
Definition cache_scenario_usage : list (string * json) :=
  [ ("input_tokens", JInt 1000); ("cache_creation_input_tokens", JInt 500);
    ("cache_read_input_tokens", JInt 50000); ("output_tokens", JInt 7) ].

Definition user_line (text : string) : string :=
  dumps (JObj [ ("type", JStr "user"); ("message", JObj [ ("content", JStr text) ]) ]).

Definition assistant_line (usage : list (string * json)) : string :=
  dumps (JObj [ ("type", JStr "assistant");
                ("message", JObj [ ("role", JStr "assistant"); ("usage", JObj usage) ]) ]).

Definition newline : string := String (Ascii.ascii_of_nat 10) "".

Definition cache_scenario : string :=
  (user_line "hi" ++ newline ++ assistant_line cache_scenario_usage ++ newline
   ++ user_line "next" ++ newline)%string.

(** One project of one source, with one transcript and one auxiliary file *)
Definition demo_dir : string := "/home/u/.claude/projects/-home-u-ralph".

Definition demo_path : string := "/home/u/.claude/projects/-home-u-ralph/A.jsonl".

(** A transcript whose last assistant turn fills the whole window *)
Definition full_transcript : string :=
  assistant_line
    [ ("input_tokens", JInt 150000); ("cache_creation_input_tokens", JInt 50000);
      ("cache_read_input_tokens", JInt 90000) ].

Definition demo_fs : FileSystem :=
  {| read_file := fun p => if String.eqb p demo_path then Some full_transcript else None;
     listdir := fun d => if String.eqb d demo_dir then Some ["A.jsonl"; "agent-1.jsonl"] else None;
     st_mtime := fun p => if String.eqb p demo_path then Some 10%Q else None;
     isdir := fun _ => true;
     path_exists := fun _ => true |}.

Definition demo_watcher : State :=
  set_sources (init true empty_db 1%positive 0 [])
    [ClaudeSource.mk "claude" "/home/u/.claude/projects" "#3B82F6"].

Definition modified_event : FileChangeEvent :=
  {| event_type := "modified"; path := demo_path; timestamp := 0%Q |}.

Definition cached_fs : FileSystem :=
  {| read_file := fun p => if String.eqb p demo_path then Some cache_scenario else None;
     listdir := listdir demo_fs;
     st_mtime := st_mtime demo_fs;
     isdir := isdir demo_fs;
     path_exists := path_exists demo_fs |}.

(** The watcher after it has seen the transcript change *)
Definition watching : State :=
  process_event Json.loads round_half_even demo_fs modified_event demo_watcher.

(** One memory, and a query that repeats a token *)
Definition jwt_memory : Memory.t :=
  Memory.mk 7%positive 1%positive "JWT tokens" DECISION PRIO_NORMAL 0 0.

Definition jwt_db : AsyncSession :=
  open_session (mkDb ∅ {[ 7%positive := jwt_memory ]} ∅ ∅) 8%positive 0 [].

(** The hybrid search scenario: M1 and M2 mention jwt, the vector path ranks
    M2 first and M3 second. *)
Definition M1 : Memory.t :=
  Memory.mk 1%positive 1%positive "use jwt for auth" DECISION PRIO_NORMAL 0 20.

Definition M2 : Memory.t :=
  Memory.mk 2%positive 1%positive "jwt tokens" CONTEXT PRIO_NORMAL 0 10.

Definition M3 : Memory.t :=
  Memory.mk 3%positive 1%positive "postgres schema" CONTEXT PRIO_NORMAL 0 5.

Definition hybrid_db : AsyncSession :=
  open_session
    (mkDb ∅ (<[1%positive := M1]> (<[2%positive := M2]> {[ 3%positive := M3 ]})) ∅ ∅)
    4%positive 0 [].

Definition hybrid_vector_path (d : Db) (session_id : UUID) (query : string)
    (top_k : Z) : result (list (UUID * Q)) :=
  Ok [(2%positive, 0.9%Q); (3%positive, 0.8%Q)].

Definition hybrid_keyword_results : list MemoryIndexItem :=
  [ {| id := 1%positive; summary := "use jwt for auth"; category := "decision";
       priority := "normal"; score := (inject_Z 1 / inject_Z 1)%Q |};
    {| id := 2%positive; summary := "jwt tokens"; category := "context";
       priority := "normal"; score := (inject_Z 1 / inject_Z 1)%Q |} ].

Definition hybrid_item (memory_id : UUID) (text kind : string) : MemoryIndexItem :=
  {| id := memory_id; summary := text; category := kind; priority := "normal";
     score := rrf_score 0.5 0.5 (ranks [1%positive; 2%positive])
                (ranks [2%positive; 3%positive]) memory_id |}.

Definition hybrid_items : list MemoryIndexItem :=
  [ hybrid_item 2%positive "jwt tokens" "context";
    hybrid_item 1%positive "use jwt for auth" "decision";
    hybrid_item 3%positive "postgres schema" "context" ].

(** A parent session at 95% of its window, and an engine that refuses the
    third commit *)
Definition drained_parent : Session.t :=
  Session.mk 1%positive "refactor the parser" 200000 190000 ACTIVE 0 0.

Definition failing_db : AsyncSession :=
  open_session (mkDb {[ 1%positive := drained_parent ]} ∅ ∅ ∅) 2%positive 9
               [false; false; true].

Definition canned_llm (task reason : string) (percent : Z) : result string :=
  Ok "Continue refactoring the parser.".

End Scenarios.

Import Scenarios.

(** * More of the services *)

(** ** spawn_service.py: the spawn decision *)

Module SpawnDecision.

Record ShouldSpawnResult : Type := {
  should_spawn_flag : bool;
  reason : string;
  handoff_prompt : option string;
  preserve_context : list string;
  estimated_progress : Z
}.

(** [len(set(l))] *)
Definition distinct_count (l : list string) : nat := length (remove_dups l).

(** [recent_outputs and len(recent_outputs) >= 3] followed by the test on the
    last three outputs *)
Definition loop_detected (recent_outputs : option (list string)) : bool :=
  match recent_outputs with
  | None => false
  | Some [] => false
  | Some outputs =>
      if (3 <=? length outputs)%nat
      then (distinct_count (last_n 3 outputs) =? 1)%nat
      else false
  end.

Definition should_spawn (context_usage : Q) (task_progress : Z)
    (recent_outputs : option (list string)) (error_count : Z) : ShouldSpawnResult :=
  if (90 <=? task_progress)%Z then
    {| should_spawn_flag := false;
       reason := "Task nearly complete (>=90%), finish in current session";
       handoff_prompt := None;
       preserve_context := [];
       estimated_progress := task_progress |}
  else if Qle_bool 0.90 context_usage && (task_progress <? 80)%Z then
    {| should_spawn_flag := true;
       reason := "Context usage critical (>=90%), spawning subprocess";
       handoff_prompt := None;
       preserve_context := ["decisions"; "files"; "errors"];
       estimated_progress := task_progress |}
  else if loop_detected recent_outputs then
    {| should_spawn_flag := true;
       reason := "Loop detected (same output 3+ times), fresh context needed";
       handoff_prompt := None;
       preserve_context := ["decisions"; "files"];
       estimated_progress := task_progress |}
  else if (5 <? error_count)%Z then
    {| should_spawn_flag := true;
       reason := "Too many consecutive errors (>5), resetting context";
       handoff_prompt := None;
       preserve_context := ["errors"; "decisions"];
       estimated_progress := task_progress |}
  else
    {| should_spawn_flag := false;
       reason := "Making steady progress, continue current session";
       handoff_prompt := None;
       preserve_context := [];
       estimated_progress := task_progress |}.

(** The outputs end with the same output three times *)
Definition ends_in_loop (recent_outputs : option (list string)) : Prop :=
  exists earlier x, recent_outputs = Some (earlier ++ [x; x; x]).

End SpawnDecision.


(** ** session_service.py: the listing of active sessions *)

Module SessionQueries.

(** [select(Session).where(Session.status == ACTIVE)
    .order_by(Session.created_at.desc())] *)
Definition list_active_sessions : Task (list Session.t) :=
  fun db =>
    (Ok (sorted_desc (fun s => inject_Z (Session.created_at s))
           (filter (fun s => Session.status s = ACTIVE)
                   (map snd (map_to_list (sessions (stored db)))))), db).

(** The sessions a listing holds *)
Definition listed (db : AsyncSession) (s : Session.t) : Prop :=
  exists l, fst (list_active_sessions db) = Ok l /\ s ∈ l.

End SessionQueries.


(** ** checkpoint_service.py: reading checkpoints back *)

Module CheckpointQueries.

(** One entry of the [memories] list of a restored checkpoint *)
Record MemoryBrief : Type := {
  id : UUID;
  content : string;
  category : string;
  priority : string
}.

(** What [restore_checkpoint] returns *)
Record Restored : Type := {
  checkpoint_id : UUID;
  label : string;
  state_task_description : string;
  state_current_tokens : Z;
  state_max_tokens : Z;
  state_status : string;
  context_usage : Z;
  memories_restored : list MemoryBrief;
  created_at : Z
}.

(** One entry of [list_checkpoints] *)
Record Listed : Type := {
  listed_id : UUID;
  listed_label : string;
  listed_context_usage : Z;
  memory_count : Z;
  listed_created_at : Z
}.

Definition brief (m : Memory.t) : MemoryBrief :=
  {| id := Memory.id m;
     content := Memory.content m;
     category := MemoryCategory_value (Memory.category m);
     priority := MemoryPriority_value (Memory.priority m) |}.

(** [await db.get(Checkpoint, id)] *)
Definition get_Checkpoint (id : UUID) : Task (option Checkpoint.t) :=
  fun db => (Ok (checkpoints (working db) !! id), db).

(** [select(Memory).where(Memory.id.in_(memory_ids))] *)
Definition select_memories_in (memory_ids : list UUID) : Task (list Memory.t) :=
  fun db =>
    (Ok (filter (fun m => Memory.id m ∈ memory_ids)
                (map snd (map_to_list (memories (stored db))))), db).

Definition restore_checkpoint (checkpoint_id : UUID) : Task Restored :=
  let* checkpoint := get_Checkpoint checkpoint_id in
  match checkpoint with
  | None => raise (ValueError "Checkpoint" checkpoint_id)
  | Some checkpoint =>
      let memory_ids := Checkpoint.memories_snapshot checkpoint in
      let* memories := select_memories_in memory_ids in
      ret {| checkpoint_id := Checkpoint.id checkpoint;
             label := Checkpoint.label checkpoint;
             state_task_description := Checkpoint.state_task_description checkpoint;
             state_current_tokens := Checkpoint.state_current_tokens checkpoint;
             state_max_tokens := Checkpoint.state_max_tokens checkpoint;
             state_status := Checkpoint.state_status checkpoint;
             context_usage := Checkpoint.context_usage checkpoint;
             memories_restored := map brief memories;
             created_at := Checkpoint.created_at checkpoint |}
  end.

(** [select(Checkpoint).where(Checkpoint.session_id == session_id)
    .order_by(Checkpoint.created_at.desc())] *)
Definition select_checkpoints_of (session_id : UUID) : Task (list Checkpoint.t) :=
  fun db =>
    (Ok (sorted_desc (fun c => inject_Z (Checkpoint.created_at c))
           (filter (fun c => Checkpoint.session_id c = session_id)
                   (map snd (map_to_list (checkpoints (stored db)))))), db).

Definition list_checkpoints (session_id : UUID) : Task (list Listed) :=
  let* checkpoints := select_checkpoints_of session_id in
  ret (map (fun c =>
              {| listed_id := Checkpoint.id c;
                 listed_label := Checkpoint.label c;
                 listed_context_usage := Checkpoint.context_usage c;
                 memory_count := Z.of_nat (length (Checkpoint.memories_snapshot c));
                 listed_created_at := Checkpoint.created_at c |})
           checkpoints).

(** The same query with [.limit(1)] and [scalar_one_or_none()] *)
Definition get_latest_checkpoint (session_id : UUID) : Task (option Checkpoint.t) :=
  let* checkpoints := select_checkpoints_of session_id in
  ret (head checkpoints).

End CheckpointQueries.

(** ** memory_service.py: deleting a memory *)

Module MemoryStore.

(** [await db.get(Memory, id)] *)
Definition get_Memory (id : UUID) : Task (option Memory.t) :=
  fun db => (Ok (memories (working db) !! id), db).

(** [await db.delete(memory)] *)
Definition delete_Memory (m : Memory.t) : Task unit :=
  with_working (fun d => mkDb (sessions d) (delete (Memory.id m) (memories d))
                              (checkpoints d) (session_lineage d)).

Definition delete_memory (memory_id : UUID) : Task bool :=
  let* memory := get_Memory memory_id in
  match memory with
  | None => ret false
  | Some memory =>
      let* _ := delete_Memory memory in
      let* _ := commit in
      ret true
  end.

End MemoryStore.

(** ** lineage_service.py *)

Module LineageService.

(** One entry of the history [get_session_lineage] returns *)
Record Entry : Type := {
  session_id : UUID;
  task : string;
  status : string;
  tokens_used : Z;
  context_usage : Z;
  created_at : Z
}.

(** How a call ends: with the history, with [MultipleResultsFound] out of
    [scalar_one_or_none], with another exception, or not within the turns of
    the loop it was given. *)
Inductive outcome : Type :=
  | Lineage (history : list Entry)
  | MultipleResultsFound
  | Raised (e : exn)
  | StillWalking.

Section Walk.

(** [int(x * 100)] as binary floating point evaluates it *)
Variable percent_int : Q -> Z.

Definition entry_of (session : Session.t) : result Entry :=
  bind (Session.context_usage_percent percent_int session) (fun percent =>
  Ok {| session_id := Session.id session;
        task := String.substring 0 100 (Session.task_description session);
        status := SessionStatus_value (Session.status session);
        tokens_used := Session.current_tokens session;
        context_usage := percent;
        created_at := Session.created_at session |}).

(** [select(SessionLineage).where(SessionLineage.child_session_id == id)] *)
Definition links_to (d : Db) (child : UUID) : list SessionLineage.t :=
  filter (fun l => SessionLineage.child_session_id l = child)
         (map snd (map_to_list (session_lineage d))).

(** The [while current_id:] loop, for at most [turns] turns *)
Fixpoint walk_up (turns : nat) (db : AsyncSession) (current_id : option UUID)
    (history : list Entry) : outcome :=
  match current_id with
  | None => Lineage (rev history)
  | Some id =>
      match turns with
      | O => StillWalking
      | S turns' =>
          match sessions (working db) !! id with
          | None => Lineage (rev history)
          | Some session =>
              match entry_of session with
              | Raise e => Raised e
              | Ok entry =>
                  match links_to (stored db) id with
                  | [] => walk_up turns' db None (history ++ [entry])
                  | [parent_link] =>
                      walk_up turns' db (SessionLineage.parent_session_id parent_link)
                              (history ++ [entry])
                  | _ => MultipleResultsFound
                  end
              end
          end
      end
  end.

Definition get_session_lineage (turns : nat) (session_id : UUID) (db : AsyncSession)
    : outcome :=
  walk_up turns db (Some session_id) [].

End Walk.

End LineageService.

(** ** fold_service.py: executing a fold *)

Module FoldExecution.

(** [CompressResult] of compression_service.py *)
Record CompressResult : Type := {
  summary : string;
  decisions : list string;
  files : list string;
  errors : list string;
  original_tokens : Z;
  compressed_tokens : Z;
  tokens_saved : Z;
  compression_ratio : Q
}.

Record FoldResult : Type := {
  checkpoint_id : UUID;
  fold_summary : string;
  tokens_before : Z;
  tokens_after : Z;
  tokens_freed : Z;
  fold_compression_ratio : Q
}.

Section Fold.

Variable percent_int : Q -> Z.

(** [await compress(trajectory, ratio)]: the call to the language model and
    the reading of its reply *)
Variable compress : string -> Q -> result CompressResult.

(** The checkpoint's [metadata] dict (the summary, the lists and the ratio of
    the compression) is not stored by [create_checkpoint]; the summary stands
    for it here. *)
Definition execute_fold (session_id : UUID) (trajectory label : string)
    : Task FoldResult :=
  let* session := get_Session session_id in
  match session with
  | None => raise (ValueError "Session" session_id)
  | Some session =>
      let tokens_before := Session.current_tokens session in
      let* compressed := lift (compress trajectory 0.25%Q) in
      let* checkpoint :=
        SpawnService.create_checkpoint percent_int session_id label
          [("compressed_summary", summary compressed)] in
      let* _ :=
        assign_Session session
          (Session.set_current_tokens session (compressed_tokens compressed)) in
      let* _ := commit in
      ret {| checkpoint_id := Checkpoint.id checkpoint;
             fold_summary := summary compressed;
             tokens_before := tokens_before;
             tokens_after := compressed_tokens compressed;
             tokens_freed := tokens_saved compressed;
             fold_compression_ratio := compression_ratio compressed |}
  end.

End Fold.

End FoldExecution.

(** ** What is asked of a session before a run *)

Module Preconditions.

(** None of the next [n] commits is refused *)
Definition commits_go_through (n : nat) (db : AsyncSession) : Prop :=
  forall i, (i < n)%nat -> commit_faults db !! i <> Some true.

End Preconditions.


(** ** More scenarios *)

Module MoreScenarios.

(** A session near its limit with one memory, on an engine that takes the
    next three commits *)
Definition spawning_db : AsyncSession :=
  open_session (mkDb {[ 1%positive := drained_parent ]}
                     {[ 7%positive := jwt_memory ]} ∅ ∅)
               8%positive 9 [false; false; false].

(** A language model that cannot be reached *)
Definition unreachable_llm (task reason : string) (percent : Z) : result string :=
  Raise OSError.

End MoreScenarios.

Import MoreScenarios.


(** ** compression_service.py *)

Module Compression.

Import FoldExecution.

(** The line feed *)
Definition LF : string := String (Ascii.ascii_of_nat 10) "".

(** [s[n:]] *)
Fixpoint slice_from (n : nat) (s : string) : string :=
  match n, s with
  | O, _ => s
  | S _, EmptyString => EmptyString
  | S n', String _ rest => slice_from n' rest
  end.

(** [int(x)] on a product of an integer and 0.25, exact in binary floating
    point: truncation towards zero *)
Definition int_of (x : Q) : Z := Z.quot (Qnum x) (Zpos (Qden x)).

Section Compress.

(** [estimate_tokens] of llm_provider.py: the tokenizer's count, or a quarter
    of the length when the tokenizer fails *)
Variable estimate_tokens : string -> Z.

(** The text of [COMPRESSION_SYSTEM_PROMPT] *)
Variable COMPRESSION_SYSTEM_PROMPT : string.

(** [await llm.complete(prompt, system, max_tokens=n)] *)
Variable llm_complete : string -> string -> Z -> result string.

(** [_extract_section]: the regular expression search for the text under a
    heading, stripped; the empty string when the heading is not found *)
Variable _extract_section : string -> string -> string.

(** One line of a list section: the item it holds, if any *)
Definition list_item (line : string) : option string :=
  let line := strip line in
  if startswith "- " line then Some (strip (slice_from 2 line))
  else if startswith "* " line then Some (strip (slice_from 2 line))
  else if nonempty line && negb (startswith "#" line) then Some line
  else None.

Definition _extract_list_section (text section_name : string) : list string :=
  let content := _extract_section text section_name in
  if negb (nonempty content) then []
  else omap list_item (split LF content).

Definition compression_prompt (target_tokens : Z) (trajectory : string) : string :=
  ("Compress this agent trajectory to approximately " ++ pretty target_tokens
   ++ " tokens." ++ LF ++ LF
   ++ "TRAJECTORY TO COMPRESS:" ++ LF
   ++ trajectory ++ LF ++ LF
   ++ "Remember:" ++ LF
   ++ "- Preserve ALL decisions, file paths with line numbers, and error fixes" ++ LF
   ++ "- Be extremely concise but complete" ++ LF
   ++ "- Use the exact output format specified")%string.

Definition compress (trajectory : string) (ratio : Q) : result CompressResult :=
  let original_tokens := estimate_tokens trajectory in
  let target_tokens := int_of (inject_Z original_tokens * ratio)%Q in
  bind (llm_complete (compression_prompt target_tokens trajectory)
                     COMPRESSION_SYSTEM_PROMPT (target_tokens + 500))
       (fun compressed =>
  let summary := _extract_section compressed "SUMMARY" in
  let decisions := _extract_list_section compressed "DECISIONS" in
  let files := _extract_list_section compressed "FILES" in
  let errors := _extract_list_section compressed "ERRORS" in
  let compressed_tokens := estimate_tokens compressed in
  Ok {| summary := summary;
        decisions := decisions;
        files := files;
        errors := errors;
        original_tokens := original_tokens;
        compressed_tokens := compressed_tokens;
        tokens_saved := original_tokens - compressed_tokens;
        compression_ratio :=
          if (0 <? original_tokens)%Z
          then (inject_Z compressed_tokens / inject_Z original_tokens)%Q
          else 0%Q |}).

End Compress.

(** Only ASCII white space *)
Fixpoint all_space (s : string) : bool :=
  match s with
  | EmptyString => true
  | String c rest => isspace c && all_space rest
  end.

End Compression.

Module FoldScenarios.

Import Compression.

(** A tokenizer that counts a token every four characters *)
Definition four_chars_a_token (text : string) : Z :=
  Z.of_nat (String.length text) / 4.

Definition canned_compression (prompt system : string) (max_tokens : Z)
    : result string :=
  Ok ("SUMMARY:" ++ LF ++ "Parser refactored.")%string.

(** A heading search that finds nothing *)
Definition no_section (text section_name : string) : string := "".

Definition fold_db : AsyncSession :=
  open_session (mkDb {[ 1%positive := drained_parent ]}
                     {[ 7%positive := jwt_memory ]} ∅ ∅)
               8%positive 9 [false; false].

End FoldScenarios.

Import FoldScenarios.


(** ** What the watcher keeps of a project *)

Module WatcherInvariants.

(** A cached project as [_update_project_tokens] writes one: at most the
    whole window, the usage capped at 0.99, under the key source:project *)
Definition entry_well_formed (key : string) (p : ProjectData.t) : Prop :=
  ProjectData.current_tokens p <= MAX_CONTEXT_TOKENS
  /\ ProjectData.max_tokens p = MAX_CONTEXT_TOKENS
  /\ ProjectData.context_usage p
     = min_Q 0.99 (inject_Z (ProjectData.current_tokens p)
                   / inject_Z MAX_CONTEXT_TOKENS)%Q
  /\ ProjectData.project_path p = ProjectData.name p
  /\ key = (ProjectData.source_name p ++ ":" ++ ProjectData.name p)%string.

Definition snapshot_well_formed (st : Status) : Prop :=
  Forall (fun r => currentTokens r <= maxTokens r
                   /\ maxTokens r = MAX_CONTEXT_TOKENS
                   /\ contextUsage r
                      = min_Q 0.99 (inject_Z (currentTokens r)
                                    / inject_Z MAX_CONTEXT_TOKENS)%Q)
         (projects st)
  /\ totalTokens st <= MAX_CONTEXT_TOKENS * projectCount st.

Definition well_formed (self : State) : Prop :=
  map_Forall entry_well_formed (cached_projects self)
  /\ Forall (fun m => snapshot_well_formed (snd m)) (sent self).

(** A transcript the listing of a project directory can hold *)
Definition is_transcript_name (file : string) : Prop :=
  endswith ".jsonl" file = true /\ startswith "agent-" file = false.

End WatcherInvariants.


(** ** What the watcher finds in the engine *)

Module WatcherQueries.

(** The engine holds an auto-detected session for the project *)
Definition session_known (d : Db) (session_key : string) : Prop :=
  exists k s, sessions d !! k = Some s
              /\ Session.task_description s
                 = ("Auto-detected: " ++ session_key)%string.

(** Every file of the directory can be looked at *)
Definition all_stat (fs : FileSystem) (project_dir : string) (files : list string)
    : Prop :=
  forall file, file ∈ files -> is_Some (st_mtime fs (path_join project_dir file)).

End WatcherQueries.


Module WatcherScenarios.

(** A project directory with two transcripts, B.jsonl written after A.jsonl *)
Definition two_transcripts_fs : FileSystem :=
  {| read_file := read_file demo_fs;
     listdir := fun d =>
       if String.eqb d demo_dir then Some ["A.jsonl"; "B.jsonl"] else None;
     st_mtime := fun p =>
       if String.eqb p demo_path then Some 10%Q
       else if String.eqb p (path_join demo_dir "B.jsonl") then Some 20%Q
       else None;
     isdir := fun _ => true;
     path_exists := fun _ => true |}.

End WatcherScenarios.

Import WatcherScenarios.


Module CompressionScenarios.

(** A reply that is one section: the search returns the text itself *)
Definition whole_reply (text section_name : string) : string := strip text.

Definition two_decisions : string :=
  ("- fix the lexer  " ++ Compression.LF ++ "* add tests")%string.

End CompressionScenarios.

Import CompressionScenarios.


(** ** memory_service.py: the three layers of retrieval *)

Module ProgressiveDisclosure.

Import MemoryService.

Record MemoryTimelineItem : Type := {
  timeline_id : UUID;
  timeline_summary : string;
  timeline_category : string;
  timeline_created_at : Z;
  context_before : option string;
  context_after : option string
}.

(** [MemoryFullItem] without its [metadata], which copies a column the rows
    here do not carry *)
Record MemoryFullItem : Type := {
  full_id : UUID;
  full_content : string;
  full_category : string;
  full_priority : string;
  full_created_at : Z
}.

(** [ORDER BY created_at]: earlier rows first *)
Definition oldest_first (rows : list Memory.t) : list Memory.t :=
  sorted_desc (fun m => inject_Z (- Memory.created_at m)) rows.

(** [next((i for i, m in enumerate(l) if m.id == id), -1)] *)
Fixpoint position_from (i : Z) (id : UUID) (l : list Memory.t) : Z :=
  match l with
  | [] => -1
  | m :: rest => if decide (Memory.id m = id) then i else position_from (i + 1) id rest
  end.

Definition position (id : UUID) (l : list Memory.t) : Z := position_from 0 id l.

(** [content[:50] + "..."] *)
Definition neighbour_summary (m : Memory.t) : string :=
  (String.substring 0 50 (Memory.content m) ++ "...")%string.

(** [content[:150] + ("..." if len(content) > 150 else "")] *)
Definition timeline_summarize (content : string) : string :=
  (String.substring 0 150 content
   ++ (if (150 <? String.length content)%nat then "..." else ""))%string.

(** One turn of the loop of [get_timeline]; the two tests keep the indices
    inside [all_memories] *)
Definition timeline_item (all_memories : list Memory.t) (memory : Memory.t)
    : MemoryTimelineItem :=
  let idx := position (Memory.id memory) all_memories in
  let context_before :=
    if (0 <? idx)%Z
    then neighbour_summary <$> all_memories !! Z.to_nat (idx - 1)
    else None in
  let context_after :=
    if (idx <? Z.of_nat (length all_memories) - 1)%Z
    then neighbour_summary <$> all_memories !! Z.to_nat (idx + 1)
    else None in
  {| timeline_id := Memory.id memory;
     timeline_summary := timeline_summarize (Memory.content memory);
     timeline_category := MemoryCategory_value (Memory.category memory);
     timeline_created_at := Memory.created_at memory;
     context_before := context_before;
     context_after := context_after |}.

(** [select(Memory).where(session_id == s).where(id.in_(uuids))] *)
Definition select_requested (session_id : UUID) (uuids : list UUID)
    : Task (list Memory.t) :=
  fun db =>
    (Ok (filter (fun m => Memory.session_id m = session_id /\ Memory.id m ∈ uuids)
                (map snd (map_to_list (memories (stored db))))), db).

Definition get_timeline (session_id : UUID) (memory_ids : list UUID)
    : Task (list MemoryTimelineItem) :=
  match memory_ids with
  | [] => ret []
  | _ =>
      let* memories := select_requested session_id memory_ids in
      let memories := oldest_first memories in
      match memories with
      | [] => ret []
      | _ =>
          let* all_memories := select_memories_of session_id in
          let all_memories := oldest_first all_memories in
          ret (map (timeline_item all_memories) memories)
      end
  end.

Definition get_full (session_id : UUID) (memory_ids : list UUID)
    : Task (list MemoryFullItem) :=
  match memory_ids with
  | [] => ret []
  | _ =>
      let* memories := select_requested session_id memory_ids in
      let memories :=
        sorted_desc (fun m => inject_Z (Memory.created_at m)) memories in
      ret (map (fun m =>
                  {| full_id := Memory.id m;
                     full_content := String.substring 0 2000 (Memory.content m);
                     full_category := MemoryCategory_value (Memory.category m);
                     full_priority := MemoryPriority_value (Memory.priority m);
                     full_created_at := Memory.created_at m |})
               memories)
  end.

Inductive Results : Type :=
  | IndexResults (l : list MemoryIndexItem)
  | TimelineResults (l : list MemoryTimelineItem)
  | FullResults (l : list MemoryFullItem).

(** The dict [progressive_search] returns *)
Record Disclosure : Type := {
  layer : string;
  count : Z;
  estimated_tokens : Z;
  results : Results;
  hint : option string
}.

Section Progressive.

Variable ilike : string -> string -> bool.
Variable priority_key : MemoryPriority -> Z.

Definition progressive_search (session_id : UUID) (query : string) (depth top_k : Z)
    : Task Disclosure :=
  let* index_results := search_index ilike priority_key session_id query top_k in
  if (depth =? 1)%Z then
    ret {| layer := "index";
           count := Z.of_nat (length index_results);
           estimated_tokens := Z.of_nat (length index_results) * 50;
           results := IndexResults index_results;
           hint := Some "Use depth=2 for timeline or depth=3 for full content" |}
  else
    let memory_ids := map id index_results in
    if (depth =? 2)%Z then
      let* timeline_results := get_timeline session_id memory_ids in
      ret {| layer := "timeline";
             count := Z.of_nat (length timeline_results);
             estimated_tokens := Z.of_nat (length timeline_results) * 150;
             results := TimelineResults timeline_results;
             hint := Some "Use depth=3 for full content" |}
    else
      let* full_results := get_full session_id memory_ids in
      ret {| layer := "full";
             count := Z.of_nat (length full_results);
             estimated_tokens := Z.of_nat (length full_results) * 500;
             results := FullResults full_results;
             hint := None |}.

End Progressive.

(** The layer and the tokens per result of a depth *)
Definition layer_of (depth : Z) : string * Z :=
  if (depth =? 1)%Z then ("index", 50)
  else if (depth =? 2)%Z then ("timeline", 150)
  else ("full", 500).

End ProgressiveDisclosure.


(** ** curation_service.py *)

Module CurationService.

Record CurationResult : Type := {
  removed_count : Z;
  remaining_count : Z;
  tokens_freed : Z
}.

(** [preserve_categories or ["decision", "error"]] *)
Definition or_categories (preserve_categories : option (list string)) : list string :=
  match preserve_categories with
  | Some (c :: rest) => c :: rest
  | _ => ["decision"; "error"]
  end.

(** [select(Memory).where(session_id == s).order_by(created_at.desc())] *)
Definition select_newest_first (session_id : UUID) : Task (list Memory.t) :=
  fun db =>
    (Ok (sorted_desc (fun m => inject_Z (Memory.created_at m))
           (filter (fun m => Memory.session_id m = session_id)
                   (map snd (map_to_list (memories (stored db)))))), db).

(** [m.category.value in preserve_categories] *)
Definition is_protected (preserve_categories : list string) (m : Memory.t) : bool :=
  bool_decide (MemoryCategory_value (Memory.category m) ∈ preserve_categories).

(** [for memory in to_remove: await db.delete(memory)] *)
Fixpoint delete_each (to_remove : list Memory.t) : Task unit :=
  match to_remove with
  | [] => ret tt
  | memory :: rest =>
      let* _ := MemoryStore.delete_Memory memory in
      delete_each rest
  end.

Definition curate_memories (session_id : UUID) (keep_top : Z)
    (preserve_categories : option (list string)) : Task CurationResult :=
  let preserve_categories := or_categories preserve_categories in
  let* memories := select_newest_first session_id in
  if (Z.of_nat (length memories) <=? keep_top)%Z then
    ret {| removed_count := 0;
           remaining_count := Z.of_nat (length memories);
           tokens_freed := 0 |}
  else
    let protected :=
      filter (fun m => is_protected preserve_categories m = true) memories in
    let candidates :=
      filter (fun m => is_protected preserve_categories m = false) memories in
    let protected_count := Z.of_nat (length protected) in
    let candidates_to_keep := Z.max 0 (keep_top - protected_count) in
    let to_remove := drop (Z.to_nat candidates_to_keep) candidates in
    match to_remove with
    | [] =>
        ret {| removed_count := 0;
               remaining_count := Z.of_nat (length memories);
               tokens_freed := 0 |}
    | _ =>
        let tokens_freed :=
          foldr Z.add 0
            (map (fun m => Z.of_nat (String.length (Memory.content m)) / 4)
                 to_remove) in
        let* _ := delete_each to_remove in
        let* _ := commit in
        ret {| removed_count := Z.of_nat (length to_remove);
               remaining_count :=
                 Z.of_nat (length memories) - Z.of_nat (length to_remove);
               tokens_freed := tokens_freed |}
    end.

(** The rows of a session, and those of them in a protected category *)
Definition session_rows (d : Db) (session_id : UUID) : list Memory.t :=
  filter (fun m => Memory.session_id m = session_id)
         (map snd (map_to_list (memories d))).

Definition protected_rows (d : Db) (session_id : UUID)
    (preserve_categories : list string) : list Memory.t :=
  filter (fun m => is_protected preserve_categories m = true)
         (session_rows d session_id).

End CurationService.

Module CurationScenarios.

(** Three memories of one session, the oldest a decision *)
Definition note (id : UUID) (text : string) (kind : MemoryCategory) (at_ : Z)
    : Memory.t :=
  Memory.mk id 1%positive text kind PRIO_NORMAL 0 at_.

Definition crowded_db : AsyncSession :=
  open_session
    (mkDb ∅ (<[1%positive := note 1%positive "use sqlite" DECISION 1]>
             (<[2%positive := note 2%positive "ran the tests" ACTION 2]>
              {[ 3%positive := note 3%positive "opened the editor" ACTION 3 ]}))
          ∅ ∅)
    4%positive 9 [false].

End CurationScenarios.

Import CurationScenarios.


(** ** lineage_service.py: children, and resuming from a parent *)

Module LineageRestore.

(** The dict [restore_from_parent] returns *)
Record RestoreResult : Type := {
  new_session_id : UUID;
  parent_session_id : UUID;
  checkpoint_restored : bool;
  checkpoint_id : option UUID;
  memories_count : Z;
  task : string
}.

Definition restore_from_parent (parent_session_id : UUID) (new_task : option string)
    : Task RestoreResult :=
  let* parent := get_Session parent_session_id in
  match parent with
  | None => raise (ValueError "Parent session" parent_session_id)
  | Some parent =>
      let* checkpoint := CheckpointQueries.get_latest_checkpoint parent_session_id in
      let task :=
        or_str new_task
          ("Continue: " ++ String.substring 0 80 (Session.task_description parent))%string in
      let* child :=
        SessionService.create_session task (Some (Session.max_tokens parent)) in
      let* lineage_id := uuid4 in
      let* now := utcnow in
      let lineage :=
        SessionLineage.mk lineage_id (Some parent_session_id) (Session.id child)
                          "5-hour boundary reset" task
                          (Checkpoint.id <$> checkpoint) now in
      let* _ := add_SessionLineage lineage in
      let* _ := commit in
      let* restored_data :=
        match checkpoint with
        | Some checkpoint =>
            let* data := CheckpointQueries.restore_checkpoint (Checkpoint.id checkpoint) in
            ret (Some data)
        | None => ret None
        end in
      ret {| new_session_id := Session.id child;
             parent_session_id := parent_session_id;
             checkpoint_restored := is_not_None checkpoint;
             checkpoint_id := Checkpoint.id <$> checkpoint;
             memories_count :=
               match restored_data with
               | Some data =>
                   Z.of_nat (length (CheckpointQueries.memories_restored data))
               | None => 0
               end;
             task := task |}
  end.

(** One entry of the list [get_children] returns *)
Record Child : Type := {
  child_session_id : UUID;
  child_task : string;
  child_status : string;
  child_handoff_reason : string;
  child_created_at : Z
}.

(** [select(SessionLineage).where(parent_session_id == id)] *)
Definition select_links_from (session_id : UUID) : Task (list SessionLineage.t) :=
  fun db =>
    (Ok (filter (fun l => SessionLineage.parent_session_id l = Some session_id)
                (map snd (map_to_list (session_lineage (stored db))))), db).

(** The loop of [get_children]: a link whose child row is gone is skipped *)
Fixpoint children_of (lineages : list SessionLineage.t) : Task (list Child) :=
  match lineages with
  | [] => ret []
  | lineage :: rest =>
      let* child := get_Session (SessionLineage.child_session_id lineage) in
      let* children := children_of rest in
      match child with
      | Some child =>
          ret ({| child_session_id := Session.id child;
                  child_task := String.substring 0 100 (Session.task_description child);
                  child_status := SessionStatus_value (Session.status child);
                  child_handoff_reason := SessionLineage.handoff_reason lineage;
                  child_created_at := Session.created_at child |} :: children)
      | None => ret children
      end
  end.

Definition get_children (session_id : UUID) : Task (list Child) :=
  let* lineages := select_links_from session_id in
  children_of lineages.

(** Every checkpoint sits under its own primary key *)
Definition checkpoints_keyed (d : Db) : Prop :=
  map_Forall (fun k c => Checkpoint.id c = k) (checkpoints d).

End LineageRestore.

Module RestoreScenarios.

Definition early_checkpoint : Checkpoint.t :=
  Checkpoint.mk 5%positive 1%positive "milestone" "refactor the parser" 90000 200000
                "active" 45 [7%positive] 3.

(** The parent with a memory and a checkpoint that lists it *)
Definition resumable_db : AsyncSession :=
  open_session (mkDb {[ 1%positive := drained_parent ]}
                     {[ 7%positive := jwt_memory ]}
                     {[ 5%positive := early_checkpoint ]} ∅)
               8%positive 9 [false; false].

End RestoreScenarios.

Import RestoreScenarios.


Module ChildrenView.

Import LineageRestore.

(** The entry the loop of [get_children] makes of one link *)
Definition child_entry (d : Db) (lineage : SessionLineage.t) : option Child :=
  match sessions d !! SessionLineage.child_session_id lineage with
  | Some child =>
      Some {| child_session_id := Session.id child;
              child_task := String.substring 0 100 (Session.task_description child);
              child_status := SessionStatus_value (Session.status child);
              child_handoff_reason := SessionLineage.handoff_reason lineage;
              child_created_at := Session.created_at child |}
  | None => None
  end.

End ChildrenView.


Module TimelineScenarios.

Import ProgressiveDisclosure.

(** M2 between its neighbours in the hybrid search scenario *)
Definition jwt_timeline_item : MemoryTimelineItem :=
  {| timeline_id := 2%positive;
     timeline_summary := "jwt tokens";
     timeline_category := "context";
     timeline_created_at := 10;
     context_before := Some "postgres schema...";
     context_after := Some "use jwt for auth..." |}.

End TimelineScenarios.

Import TimelineScenarios.


Module WatcherStore.

(** The auto-detected sessions of a project *)
Definition auto_detected (d : Db) (session_key : string) : list Session.t :=
  filter (fun s => Session.task_description s
                   = ("Auto-detected: " ++ session_key)%string)
         (map snd (map_to_list (sessions d))).

(** A file of [size] characters that ends in [tail] *)
Definition ends_in (data tail : string) : Prop :=
  exists head, head <> "" /\ data = (head ++ tail)%string.

End WatcherStore.

Module TailScenarios.

(** A transcript longer than the tail that is read: filler, a line feed,
    then the cache scenario padded to the size of the tail *)
Fixpoint spaces (n : nat) : string :=
  match n with
  | O => ""
  | S k => String " " (spaces k)
  end.

Definition padded_tail : string :=
  (cache_scenario
   ++ spaces (Z.to_nat TRANSCRIPT_TAIL_SIZE - String.length cache_scenario))%string.

Definition long_transcript : string := ("filler" ++ padded_tail)%string.

Definition long_fs : FileSystem :=
  {| read_file := fun p => if String.eqb p demo_path then Some long_transcript else None;
     listdir := listdir demo_fs;
     st_mtime := st_mtime demo_fs;
     isdir := isdir demo_fs;
     path_exists := path_exists demo_fs |}.

End TailScenarios.

Import TailScenarios.


Module ProjectNames.

(** No dash in the string *)
Fixpoint dashless (s : string) : bool :=
  match s with
  | EmptyString => true
  | String c rest => negb (Ascii.eqb c "-") && dashless rest
  end.

(** The directory Claude keeps for project [project] of user [user]:
    the path /home/user/project with its slashes turned into dashes *)
Definition home_project_dir (user project : string) : string :=
  ("-home-" ++ user ++ "-" ++ project)%string.

End ProjectNames.


Module FoldFailureScenarios.

(** The engine of the fold scenario when it refuses the second commit *)
Definition refusing_fold_db : AsyncSession :=
  open_session (mkDb {[ 1%positive := drained_parent ]}
                     {[ 7%positive := jwt_memory ]} ∅ ∅)
               8%positive 9 [false; true].

End FoldFailureScenarios.

Import FoldFailureScenarios.


Module CheckpointScenarios.

(** A later checkpoint of another session *)
Definition foreign_checkpoint : Checkpoint.t :=
  Checkpoint.mk 6%positive 2%positive "elsewhere" "write the docs" 10 200000
                "active" 0 [] 20.

(** The parent with an earlier checkpoint of its own, beside a checkpoint of
    another session that was taken later than the clock reads *)
Definition checkpointed_db : AsyncSession :=
  open_session (mkDb {[ 1%positive := drained_parent ]}
                     {[ 7%positive := jwt_memory ]}
                     (<[5%positive := early_checkpoint]>
                        {[ 6%positive := foreign_checkpoint ]}) ∅)
               8%positive 9 [false].

End CheckpointScenarios.

Import CheckpointScenarios.


(** ** The shape of the lineage table *)

Module LineageShape.

(** No lineage row refers to the id, as child or as parent *)
Definition unreferenced (d : Db) (id : UUID) : Prop :=
  map_Forall (fun _ l => SessionLineage.child_session_id l <> id
                         /\ SessionLineage.parent_session_id l <> Some id)
             (session_lineage d).

(** The session is not recorded as its own child *)
Definition not_own_child (d : Db) (id : UUID) : Prop :=
  map_Forall (fun _ l => SessionLineage.parent_session_id l = Some id ->
                         SessionLineage.child_session_id l <> id)
             (session_lineage d).

(** The chain of parents from [current] ends within so many turns of the
    loop of [get_session_lineage]: at no id, at an id without a session, or
    at a session without a parent link. *)
Inductive ends_within (db : AsyncSession) : option UUID -> nat -> Prop :=
  | ends_at_None : ends_within db None 0
  | ends_at_missing (id : UUID) :
      sessions (working db) !! id = None ->
      ends_within db (Some id) 1
  | ends_at_root (id : UUID) (session : Session.t) :
      sessions (working db) !! id = Some session ->
      LineageService.links_to (stored db) id = [] ->
      ends_within db (Some id) 1
  | ends_at_parent (id : UUID) (session : Session.t)
                   (parent_link : SessionLineage.t) (n : nat) :
      sessions (working db) !! id = Some session ->
      LineageService.links_to (stored db) id = [parent_link] ->
      ends_within db (SessionLineage.parent_session_id parent_link) n ->
      ends_within db (Some id) (S n).

End LineageShape.

Module FamilyScenarios.

Definition grandparent : Session.t :=
  Session.mk 2%positive "plan the refactoring" 200000 150000 COMPLETED 0 0.

Definition first_child : Session.t :=
  Session.mk 3%positive "refactor the lexer" 200000 1000 ACTIVE 5 5.

Definition link_to_parent : SessionLineage.t :=
  SessionLineage.mk 10%positive (Some 2%positive) 1%positive "context_critical"
                    "Refactor the parser." None 0.

Definition link_to_first_child : SessionLineage.t :=
  SessionLineage.mk 11%positive (Some 1%positive) 3%positive "loop_detected"
                    "Refactor the lexer." None 5.

(** The parent was spawned by a grandparent and has spawned a child before *)
Definition family_db : AsyncSession :=
  open_session
    (mkDb (<[1%positive := drained_parent]>
             (<[2%positive := grandparent]> {[ 3%positive := first_child ]}))
          {[ 7%positive := jwt_memory ]} ∅
          (<[10%positive := link_to_parent]>
             {[ 11%positive := link_to_first_child ]}))
    20%positive 9 [false; false; false].

End FamilyScenarios.

Import FamilyScenarios.

(** * Properties *)

Import FoldService.

(** ** Sorting *)

Section SortedDesc.

Context {A : Type} (key : A -> Q).

Lemma insert_desc_perm (x : A) (l : list A) : insert_desc key x l ≡ₚ x :: l.
Proof.
  induction l as [|y l IH]; simpl; [reflexivity|].
  destruct (Qle_bool (key y) (key x)); [reflexivity|].
  rewrite IH. apply Permutation_swap.
Qed.

Lemma sorted_desc_perm (l : list A) : sorted_desc key l ≡ₚ l.
Proof.
  induction l as [|x l IH]; simpl; [reflexivity|].
  unfold sorted_desc in *. simpl. rewrite insert_desc_perm. by rewrite IH.
Qed.

Lemma insert_desc_sorted (x : A) (l : list A) :
  StronglySorted (key_ge key) l -> StronglySorted (key_ge key) (insert_desc key x l).
Proof.
  induction 1 as [|y l Hl IH Hy]; simpl.
  - repeat constructor.
  - destruct (Qle_bool (key y) (key x)) eqn:E.
    + apply Qle_bool_iff in E. constructor; [by constructor|].
      constructor; [exact E|].
      eapply Forall_impl; [exact Hy|]. intros z Hz. unfold key_ge in *.
      eapply Qle_trans; [exact Hz|exact E].
    + constructor; [exact IH|].
      rewrite insert_desc_perm. constructor; [|exact Hy].
      unfold key_ge. destruct (Qlt_le_dec (key x) (key y)) as [Hlt|Hle].
      * by apply Qlt_le_weak.
      * apply Qle_bool_iff in Hle. congruence.
Qed.

Lemma sorted_desc_sorted (l : list A) :
  StronglySorted (key_ge key) (sorted_desc key l).
Proof.
  induction l as [|x l IH]; [constructor|].
  unfold sorted_desc in *. simpl. by apply insert_desc_sorted.
Qed.

End SortedDesc.

(** ** The fold decision *)

Section FoldFacts.

Lemma first_row_reached_In (u : Q) (rows : list Row) (r : Row) :
  first_row_reached u rows = Some r -> In r rows /\ (fst r <= u)%Q.
Proof.
  induction rows as [|[t payload] rows IH]; simpl; [discriminate|].
  destruct (Qle_bool t u) eqn:E.
  - intros [= <-]. split; [by left|]. by apply Qle_bool_iff.
  - intros H. destruct (IH H). split; [by right|done].
Qed.

Lemma first_row_reached_None (u : Q) (rows : list Row) :
  first_row_reached u rows = None -> Forall (fun r => ~ (fst r <= u)%Q) rows.
Proof.
  induction rows as [|[t payload] rows IH]; simpl; [constructor|].
  destruct (Qle_bool t u) eqn:E; [discriminate|].
  intros H. constructor; [|by apply IH].
  simpl. rewrite <- Qle_bool_iff. congruence.
Qed.

(** On a list in descending order of thresholds the scan stops at the largest
    threshold that has been reached. *)
Lemma first_row_reached_highest (u : Q) (rows : list Row) (r : Row) :
  StronglySorted (key_ge fst) rows ->
  first_row_reached u rows = Some r ->
  Forall (fun r' => (fst r' <= u)%Q -> (fst r' <= fst r)%Q) rows.
Proof.
  induction 1 as [|[t payload] rows Hs IH Hall]; simpl; [constructor|].
  destruct (Qle_bool t u) eqn:E.
  - intros [= <-]. constructor; [intros _; apply Qle_refl|].
    eapply Forall_impl; [exact Hall|]. intros r' Hr' _. exact Hr'.
  - intros H. constructor; [|by apply IH].
    simpl. intros Ht. apply Qle_bool_iff in Ht. congruence.
Qed.

Lemma Urgency_le_refl (u : Urgency) : Urgency_le u u.
Proof. unfold Urgency_le. lia. Qed.

Lemma Urgency_LOW_le (u : Urgency) : Urgency_le LOW u.
Proof. unfold Urgency_le. destruct u; simpl; lia. Qed.

Lemma first_row_reached_mono (rows : list Row) (u1 u2 : Q) :
  urgency_descends rows ->
  (u1 <= u2)%Q ->
  Urgency_le (row_urgency (first_row_reached u1 rows))
             (row_urgency (first_row_reached u2 rows)).
Proof.
  intros Hrows Hle. induction rows as [|[t [[u reason] action]] rows IH].
  - apply Urgency_le_refl.
  - destruct Hrows as [Hall Hrest]. simpl.
    destruct (Qle_bool t u2) eqn:E2.
    + destruct (Qle_bool t u1) eqn:E1; [apply Urgency_le_refl|].
      destruct (first_row_reached u1 rows) as [r|] eqn:Hr.
      * apply first_row_reached_In in Hr as [Hin _].
        rewrite Forall_forall in Hall. apply (Hall r).
        by apply list_elem_of_In.
      * apply Urgency_LOW_le.
    + destruct (Qle_bool t u1) eqn:E1; [|by apply IH].
      apply Qle_bool_iff in E1.
      assert (Qle_bool t u2 = true)
        by (apply Qle_bool_iff; eapply Qle_trans; [exact E1|exact Hle]).
      congruence.
Qed.

(** The table a provider name selects is a declared one *)
Lemma items_get_In {V : Type} (key : string) (items : list (string * V)) (v : V) :
  items_get key items = Some v -> In v (map snd items).
Proof.
  induction items as [|[k w] items IH]; simpl; [discriminate|].
  destruct (String.eqb k key); [intros [= <-]; by left|].
  intros H. right. by apply IH.
Qed.

End FoldFacts.

Section DecisionFacts.

Variable json_loads : string -> result json.

Lemma thresholds_declared (ccs : ConfigFile) (p : option string) :
  In (get_thresholds_for_provider json_loads ccs p) (map snd PROVIDER_THRESHOLDS).
Proof.
  unfold get_thresholds_for_provider.
  destruct (items_get _ PROVIDER_THRESHOLDS) as [t|] eqn:E; simpl.
  - by apply items_get_In in E.
  - left. reflexivity.
Qed.

Lemma declared_urgency_descends :
  Forall (fun t => urgency_descends (sorted_desc fst t)) (map snd PROVIDER_THRESHOLDS).
Proof.
  repeat constructor; vm_compute; discriminate.
Qed.

Lemma thresholds_urgency_descends (ccs : ConfigFile) (p : option string) :
  urgency_descends (sorted_desc fst (get_thresholds_for_provider json_loads ccs p)).
Proof.
  pose proof declared_urgency_descends as H. rewrite Forall_forall in H.
  apply H, list_elem_of_In, thresholds_declared.
Qed.

Lemma should_fold_urgency (ccs : ConfigFile) (u : Q) (mc : Z) (p : option string) :
  urgency (should_fold json_loads ccs u mc p)
  = row_urgency
      (first_row_reached u
         (sorted_desc fst
            (get_thresholds_for_provider json_loads ccs
               (Some (or_str p (detect_active_provider json_loads ccs)))))).
Proof.
  unfold should_fold.
  destruct (first_row_reached _ _) as [[t [[urg reason] action]]|]; reflexivity.
Qed.

Lemma anthropic_scan_is_highest (u : Q) :
  first_row_reached u (sorted_desc fst anthropic_thresholds)
  = highest_matching_row u anthropic_thresholds.
Proof.
  unfold highest_matching_row, anthropic_thresholds, sorted_desc. simpl.
  unfold higher_row. simpl.
  destruct (Qle_bool 0.60 u), (Qle_bool 0.75 u), (Qle_bool 0.85 u),
    (Qle_bool 0.95 u); reflexivity.
Qed.

(** C2: for provider anthropic, 0.59 gives no fold, low, continue; 0.60 gives
    fold, medium, checkpoint; 0.95 gives critical, spawn; and for every usage
    the decision is the one of the row with the highest threshold among those
    with [context_usage >= threshold] (none: low, continue). *)
Theorem should_fold_anthropic_boundaries (ccs : ConfigFile) (memory_count : Z) :
  let decide_at u := should_fold json_loads ccs u memory_count (Some "anthropic") in
  (should_fold_flag (decide_at 0.59%Q) = false
   /\ urgency (decide_at 0.59%Q) = LOW
   /\ recommended_action (decide_at 0.59%Q) = "continue")
  /\ (should_fold_flag (decide_at 0.60%Q) = true
      /\ urgency (decide_at 0.60%Q) = MEDIUM
      /\ recommended_action (decide_at 0.60%Q) = "checkpoint")
  /\ (urgency (decide_at 0.95%Q) = CRITICAL
      /\ recommended_action (decide_at 0.95%Q) = "spawn")
  /\ forall u : Q,
       let winner := highest_matching_row u anthropic_thresholds in
       should_fold_flag (decide_at u) = is_not_None winner
       /\ urgency (decide_at u) = row_urgency winner
       /\ recommended_action (decide_at u) = row_action winner.
Proof.
  cbv zeta. repeat split; try reflexivity.
  all: rewrite <- anthropic_scan_is_highest; unfold should_fold; simpl or_str;
    change (get_thresholds_for_provider json_loads ccs (Some "anthropic"))
      with anthropic_thresholds;
    destruct (first_row_reached u _) as [[t [[urg reason] action]]|];
    reflexivity.
Qed.

(** C6: for a fixed provider the urgency never decreases when the context
    usage grows, in the order low < medium < high < critical. *)
Theorem should_fold_urgency_monotone
    (ccs : ConfigFile) (provider : option string) (memory_count1 memory_count2 : Z)
    (context_usage1 context_usage2 : Q) :
  (0 <= context_usage1)%Q ->
  (context_usage1 <= context_usage2)%Q ->
  (context_usage2 <= 1)%Q ->
  Urgency_le
    (urgency (should_fold json_loads ccs context_usage1 memory_count1 provider))
    (urgency (should_fold json_loads ccs context_usage2 memory_count2 provider)).
Proof.
  intros _ Hle _. rewrite !should_fold_urgency.
  apply first_row_reached_mono; [apply thresholds_urgency_descends|exact Hle].
Qed.

End DecisionFacts.

(** With the provider left to the configuration, here a GLM profile: 0.74
    asks for a checkpoint, 0.76 for compression. *)
Example glm_profile_detected :
  detect_active_provider Json.loads glm_config = "glm"
  /\ recommended_action (should_fold Json.loads glm_config 0.74%Q 3 None) = "checkpoint"
  /\ recommended_action (should_fold Json.loads glm_config 0.76%Q 3 None) = "compress"
  /\ recommended_action (should_fold Json.loads glm_config 0.76%Q 3 (Some "anthropic"))
     = "checkpoint".
Proof. vm_compute. repeat split; reflexivity. Qed.

Lemma should_fold_urgency_monotone_witness :
  Urgency_le (urgency (should_fold Json.loads glm_config 0.74%Q 3 None))
             (urgency (should_fold Json.loads glm_config 0.76%Q 3 None)).
Proof.
  apply should_fold_urgency_monotone; unfold Qle; simpl; lia.
Defined.

(** ** Sessions *)

Section SessionFacts.

Import SessionService.

(** C9: reading [context_usage] never fails; it is 0 when [max_tokens] is 0
    and [current_tokens / max_tokens] otherwise. *)
Theorem context_usage_total (s : Session.t) :
  exists q : Q,
    Session.context_usage s = Ok q
    /\ q = if (Session.max_tokens s =? 0)%Z then 0%Q
           else (inject_Z (Session.current_tokens s)
                 / inject_Z (Session.max_tokens s))%Q.
Proof.
  unfold Session.context_usage, truediv.
  destruct (Session.max_tokens s =? 0)%Z; eexists; split; reflexivity.
Qed.

(** C1 as stated fails: a completed session with [max_tokens = 100] takes an
    update to 150 tokens. *)
Lemma update_tokens_rejects_fails : ~ update_tokens_rejects.
Proof.
  intros H.
  destruct (H example_db 1%positive 150 example_session) as [[e He] _].
  - reflexivity.
  - right. reflexivity.
  - vm_compute in He. discriminate.
Qed.

(** C1, amended: [update_tokens] raises not-found for an unknown id and
    otherwise stores the given count whatever it is and whatever the status of
    the session; nothing but [current_tokens] and [updated_at] changes: the
    other fields of the row, the other session rows and the memories, the
    checkpoints and the lineage are stored as the session saw them. *)
Theorem update_tokens_stores_any_count
    (db : AsyncSession) (session_id : UUID) (tokens : Z) :
  commit_goes_through db ->
  keyed (working db) ->
  match sessions (working db) !! session_id with
  | None =>
      update_tokens session_id tokens db = (Raise (ValueError "Session" session_id), db)
  | Some s =>
      exists (s' : Session.t) (db' : AsyncSession),
        update_tokens session_id tokens db = (Ok s', db')
        /\ Session.current_tokens s' = tokens
        /\ Session.id s' = session_id
        /\ Session.max_tokens s' = Session.max_tokens s
        /\ Session.status s' = Session.status s
        /\ Session.task_description s' = Session.task_description s
        /\ Session.created_at s' = Session.created_at s
        /\ (Session.updated_at s' = Session.updated_at s
            \/ Session.updated_at s' = clock db)
        /\ sessions (stored db') !! session_id = Some s'
        /\ (forall k, k <> session_id ->
              sessions (stored db') !! k = sessions (working db) !! k)
        /\ memories (stored db') = memories (working db)
        /\ checkpoints (stored db') = checkpoints (working db)
        /\ session_lineage (stored db') = session_lineage (working db)
        /\ working db' = stored db'
  end.
Proof.
  intros Hcommit Hkeyed.
  destruct (sessions (working db) !! session_id) as [s|] eqn:Hs.
  - pose proof (Hkeyed _ _ Hs) as Hid.
    destruct db as [st wk next time faults].
    cbn [working stored clock] in *.
    unfold commit_goes_through in Hcommit. cbn [commit_faults] in Hcommit.
    assert (Hcommit_run : forall w : Db,
              commit (mkAS st w next time faults)
              = (Ok tt, mkAS w w next time (tail faults))).
    { intros w. unfold commit. cbn [commit_faults working stored next_uuid clock].
      destruct faults as [|[] rest]; [reflexivity|by destruct Hcommit|reflexivity]. }
    unfold update_tokens, await at 1, get_Session. cbn [working]. rewrite Hs.
    unfold await at 1, assign_Session.
    destruct (decide (s = Session.set_current_tokens s tokens)) as [Heq|Hne].
    + unfold ret at 1. unfold await at 1. rewrite Hcommit_run.
      unfold await, refresh_Session, ret. cbn [stored].
      replace (Session.id (Session.set_current_tokens s tokens)) with session_id
        by (by destruct s).
      rewrite Hs. exists s. eexists. split; [reflexivity|].
      cbn [stored working]. split; [by rewrite Heq at 1; destruct s|].
      repeat split; try done. by left.
    + set (s1 := Session.set_updated_at (Session.set_current_tokens s tokens) time).
      assert (Hid1 : Session.id s1 = session_id) by (by destruct s).
      unfold await at 1, utcnow, add_Session, with_working.
      cbn [stored working next_uuid clock commit_faults]. fold s1. rewrite Hid1.
      unfold await at 1. rewrite Hcommit_run.
      unfold await, refresh_Session, ret. cbn [stored sessions].
      replace (Session.id (Session.set_current_tokens s tokens)) with session_id
        by (by destruct s).
      rewrite lookup_insert_eq. exists s1. eexists. split; [reflexivity|].
      cbn [stored working sessions memories checkpoints session_lineage].
      split; [by destruct s|]. split; [exact Hid1|].
      do 4 (split; [by destruct s|]). split; [right; by destruct s|].
      split; [apply lookup_insert_eq|].
      split; [intros k Hk; by rewrite lookup_insert_ne|]. done.
  - unfold update_tokens, await, get_Session. rewrite Hs. reflexivity.
Qed.

Lemma update_tokens_stores_any_count_witness :
  exists (s' : Session.t) (db' : AsyncSession),
    update_tokens 1%positive 150 example_db = (Ok s', db')
    /\ Session.current_tokens s' = 150
    /\ Session.id s' = 1%positive
    /\ Session.max_tokens s' = 100
    /\ Session.status s' = COMPLETED
    /\ Session.task_description s' = "task"
    /\ Session.created_at s' = 0
    /\ (Session.updated_at s' = 0 \/ Session.updated_at s' = clock example_db)
    /\ sessions (stored db') !! 1%positive = Some s'
    /\ (forall k, k <> 1%positive ->
          sessions (stored db') !! k = sessions (working example_db) !! k)
    /\ memories (stored db') = memories (working example_db)
    /\ checkpoints (stored db') = checkpoints (working example_db)
    /\ session_lineage (stored db') = session_lineage (working example_db)
    /\ working db' = stored db'.
Proof.
  assert (Hc : commit_goes_through example_db) by (vm_compute; discriminate).
  assert (Hk : keyed (working example_db)).
  { intros k s. unfold example_db, open_session. simpl.
    intros H. apply lookup_singleton_Some in H as [<- <-]. reflexivity. }
  exact (update_tokens_stores_any_count example_db 1%positive 150 Hc Hk).
Defined.

End SessionFacts.

(** ** The transcript watcher *)

(** The reader takes back what the writer wrote *)
Example loads_dumps_usage_line :
  Json.loads (assistant_line cache_scenario_usage)
  = Ok (JObj [ ("type", JStr "assistant");
               ("message", JObj [ ("role", JStr "assistant");
                                  ("usage", JObj cache_scenario_usage) ]) ]).
Proof. vm_compute. reflexivity. Qed.

Section ExtractionFacts.

Variable json_loads : string -> result json.

Lemma scan_lines_passed_over (skipped rest : list string) :
  Forall (passed_over json_loads) skipped ->
  scan_lines json_loads (skipped ++ rest) = scan_lines json_loads rest.
Proof.
  induction 1 as [|line skipped Hline _ IH]; [reflexivity|].
  simpl. destruct Hline as [H|[e [H Hc]]]; rewrite H; [exact IH|].
  rewrite Hc. exact IH.
Qed.

Lemma scan_line_usage_turn (line : string) (usage : list (string * json)) :
  usage_turn json_loads line usage ->
  scan_line json_loads line
  = bind (add (obj_get_default "input_tokens" (JInt 0) usage)
              (obj_get_default "cache_creation_input_tokens" (JInt 0) usage))
         (fun total => Ok (Some total)).
Proof.
  intros [Hm (msg & message & Hload & Htype & Hmsg & Husage & Hne)].
  unfold scan_line. rewrite Hm, Hload. simpl. rewrite Htype.
  unfold obj_get_default. rewrite Hmsg. simpl. rewrite Husage. simpl.
  destruct usage; [congruence|reflexivity].
Qed.

(** What the scan returns was computed from one line of the content, and
    every line after that one was passed over. *)
Lemma scan_lines_found (ls : list string) (v : json) :
  scan_lines json_loads ls = Ok (Some v) ->
  exists skipped line rest,
    ls = skipped ++ line :: rest
    /\ Forall (passed_over json_loads) skipped
    /\ scan_line json_loads line = Ok (Some v).
Proof.
  induction ls as [|l ls IH]; simpl; [discriminate|].
  destruct (scan_line json_loads l) as [[w|]|e] eqn:E.
  - intros [= <-]. exists [], l, ls. repeat split; [constructor|exact E].
  - intros H. destruct (IH H) as (sk & line & rest & -> & Hsk & Hline).
    exists (l :: sk), line, rest. repeat split; [|exact Hline].
    constructor; [by left|exact Hsk].
  - destruct (caught e) eqn:Hc; [|discriminate].
    intros H. destruct (IH H) as (sk & line & rest & -> & Hsk & Hline).
    exists (l :: sk), line, rest. repeat split; [|exact Hline].
    constructor; [right; by exists e|exact Hsk].
Qed.

(** C3: when the scan from the end of the content reaches an assistant turn
    with a usage block, the count it returns is
    [input_tokens + cache_creation_input_tokens] of that block;
    [cache_read_input_tokens] has no part in it. *)
Theorem extract_usage_counts_input_and_cache_creation
    (content : string) (before after : list string) (line : string)
    (usage : list (string * json)) (input_tokens cache_creation : Z) :
  content_lines content = before ++ line :: after ->
  Forall (passed_over json_loads) after ->
  usage_turn json_loads line usage ->
  token_field "input_tokens" usage input_tokens ->
  token_field "cache_creation_input_tokens" usage cache_creation ->
  _extract_usage_from_content json_loads content
  = Ok (Some (JInt (input_tokens + cache_creation))).
Proof.
  intros Hlines Hafter Hturn Hin Hcc.
  unfold _extract_usage_from_content. rewrite Hlines, rev_app_distr. simpl.
  rewrite <- app_assoc. rewrite scan_lines_passed_over.
  - simpl. rewrite (scan_line_usage_turn line usage Hturn).
    unfold token_field in *. rewrite Hin, Hcc. reflexivity.
  - rewrite Forall_forall in *. intros l Hl. apply Hafter.
    apply list_elem_of_In. apply In_rev. by apply list_elem_of_In.
Qed.

End ExtractionFacts.

Lemma extract_usage_counts_input_and_cache_creation_witness :
  _extract_usage_from_content Json.loads cache_scenario = Ok (Some (JInt 1500)).
Proof.
  apply (extract_usage_counts_input_and_cache_creation Json.loads cache_scenario
           [user_line "hi"] [user_line "next"]
           (assistant_line cache_scenario_usage) cache_scenario_usage 1000 500).
  - vm_compute. reflexivity.
  - repeat constructor.
  - split; [vm_compute; reflexivity|].
    eexists _, _. repeat split; try (vm_compute; reflexivity). discriminate.
  - reflexivity.
  - reflexivity.
Defined.

Section WatcherFacts.

Variable json_loads : string -> result json.
Variable round_percent : Q -> Z.

Lemma min_Q_le_l (a b : Q) : (min_Q a b <= a)%Q.
Proof.
  unfold min_Q. destruct (Qlt_le_dec b a); [by apply Qlt_le_weak|apply Qle_refl].
Qed.

Lemma get_status_bounded (self : State) :
  cache_bounded (cached_projects self) -> snapshot_bounded (get_status round_percent self).
Proof.
  intros Hc. unfold snapshot_bounded, get_status. simpl.
  rewrite sorted_desc_perm. rewrite Forall_map. rewrite Forall_map. simpl.
  apply map_Forall_to_list in Hc.
  eapply Forall_impl; [exact Hc|]. intros [k p]. simpl. done.
Qed.

Lemma with_db_bounded {A : Type} (body : Task A) (self : State) :
  bounded self -> bounded (snd (with_db body self)).
Proof.
  unfold with_db. destruct (body _) as [r db]. simpl. done.
Qed.

Lemma update_project_tokens_bounded (fs : FileSystem)
    (source_name project_name transcript_path : string) (self : State) :
  bounded self ->
  bounded (_update_project_tokens json_loads round_percent fs source_name
             project_name transcript_path self).
Proof.
  intros Hb. unfold _update_project_tokens, swallow, update_project_tokens_body.
  unfold await at 1. unfold lift at 1.
  destruct (count_tokens _ _ _) as [tokens|e]; [|exact Hb].
  unfold await at 1.
  pose proof (with_db_bounded
    (store_tokens (source_name ++ ":" ++ project_name) tokens) self Hb) as Hdb.
  destruct (with_db _ self) as [[[]|e] w1]; simpl in Hdb; [|exact Hdb].
  unfold await at 1. unfold lift at 1.
  destruct (truediv tokens MAX_CONTEXT_TOKENS) as [usage|e]; [|exact Hdb].
  unfold await at 1.
  destruct Hdb as [Hc Hs].
  assert (Hc' : cache_bounded
    (<[(source_name ++ ":" ++ project_name)%string :=
         ProjectData.mk project_name project_name tokens MAX_CONTEXT_TOKENS
           (min_Q 0.99 usage) (now w1) transcript_path
           (is_not_None (get_last_assistant_usage json_loads fs transcript_path))
           source_name ""]> (cached_projects w1))).
  { apply map_Forall_insert_2; [apply min_Q_le_l|exact Hc]. }
  simpl. destruct (sse_manager w1); simpl.
  - split; [exact Hc'|]. apply Forall_app. split; [exact Hs|].
    constructor; [|constructor]. simpl. apply get_status_bounded. exact Hc'.
  - split; [exact Hc'|exact Hs].
Qed.

Lemma handle_deleted_bounded (path : string) (self : State) :
  bounded self -> bounded (snd (_handle_deleted_transcript path self)).
Proof.
  intros Hb. unfold _handle_deleted_transcript.
  destruct (_extract_project_info self path) as [[source_name|] [project_name|]];
    try exact Hb.
  destruct (nonempty source_name && nonempty project_name); [|exact Hb].
  unfold await.
  pose proof (with_db_bounded
    (mark_inactive (source_name ++ ":" ++ project_name)) self Hb) as Hdb.
  destruct (with_db _ self) as [[[]|e] w1]; simpl in *; [|exact Hdb].
  destruct Hdb as [Hc Hs]. split; [|exact Hs].
  by apply map_Forall_delete.
Qed.

Lemma process_event_bounded (fs : FileSystem) (event : FileChangeEvent)
    (self : State) :
  bounded self -> bounded (process_event json_loads round_percent fs event self).
Proof.
  intros Hb. unfold process_event, swallow, _handle_file_event.
  destruct (String.eqb (event_type event) "deleted").
  - by apply handle_deleted_bounded.
  - destruct (split "/projects/" (path event)) as [|? [|? ?]]; try exact Hb.
    destruct (negb (_is_active_transcript fs (path event) (dirname (path event))));
      [exact Hb|].
    destruct (_extract_project_info self (path event))
      as [[source_name|] [project_name|]]; try exact Hb.
    destruct (nonempty source_name && nonempty project_name); [|exact Hb].
    simpl. by apply update_project_tokens_bounded.
Qed.

Lemma foldl_bounded {B : Type} (f : State -> B -> State) (l : list B) :
  (forall w b, bounded w -> bounded (f w b)) ->
  forall w, bounded w -> bounded (foldl f w l).
Proof.
  intros Hf. induction l as [|b l IH]; simpl; [done|].
  intros w Hw. apply IH. by apply Hf.
Qed.

Lemma initial_sync_bounded (fs : FileSystem) (self : State) :
  bounded self -> bounded (_initial_sync json_loads round_percent fs self).
Proof.
  unfold _initial_sync. generalize (sources self) as srcs. intros srcs.
  revert self. apply foldl_bounded. intros w source Hw. unfold sync_source.
  destruct (negb (path_exists fs _)); [exact Hw|].
  destruct (listdir fs _) as [dirs|]; [|exact Hw].
  revert w Hw. apply foldl_bounded. intros w dir Hw. unfold sync_project.
  destruct (negb (isdir fs _)); [exact Hw|].
  destruct (sorted_desc _ _) as [|[active_path ?] ?]; [exact Hw|].
  by apply update_project_tokens_bounded.
Qed.

Lemma reachable_bounded (self : State) :
  reachable json_loads round_percent self -> bounded self.
Proof.
  induction 1 as [| ? ? _ IH | ? ? _ IH | ? ? ? ? ? _ IH | ? ? _ IH | ? ? ? _ IH].
  - split; [apply map_Forall_empty|constructor].
  - exact IH.
  - exact IH.
  - exact IH.
  - by apply initial_sync_bounded.
  - by apply process_event_bounded.
Qed.

(** C10: in every status snapshot of the watcher, the one [get_status]
    returns now and each one it has broadcast, every project's
    [contextUsage] is at most 0.99. *)
Theorem status_context_usage_below_one (self : State) :
  reachable json_loads round_percent self ->
  snapshot_bounded (get_status round_percent self)
  /\ Forall (fun m => snapshot_bounded (snd m)) (sent self).
Proof.
  intros H. apply reachable_bounded in H as [Hc Hs].
  split; [by apply get_status_bounded|exact Hs].
Qed.

End WatcherFacts.

Lemma status_context_usage_below_one_witness :
  snapshot_bounded (get_status round_half_even watching)
  /\ Forall (fun m => snapshot_bounded (snd m)) (sent watching).
Proof.
  apply (status_context_usage_below_one Json.loads round_half_even watching).
  apply reach_event, reach_sources, reach_init.
Defined.

(** With [current_tokens = max_tokens] the snapshot says 0.99, not 1 *)
Example full_window_reads_099 :
  map (fun p => (currentTokens p, maxTokens p, contextUsage p, pct p))
      (projects (get_status round_half_even watching))
  = [(200000, 200000, 0.99%Q, 99)]
  /\ length (sent watching) = 1%nat.
Proof. vm_compute. split; reflexivity. Qed.

(** The cache scenario end to end: the dashboard reads 1500 tokens, taken
    from the usage block. *)
Example cache_scenario_reads_1500 :
  map (fun p => (name p, currentTokens p, isRealData p, transcriptPath p))
      (projects (get_status round_half_even
         (process_event Json.loads round_half_even cached_fs modified_event
                        demo_watcher)))
  = [("claude—ralph", 1500, true, demo_path)].
Proof. vm_compute. reflexivity. Qed.

(** Whatever it is given, [_handle_deleted_transcript] leaves the engine's
    rows as they are. *)
Lemma handle_deleted_never_writes (path : string) (self : State) :
  engine (snd (_handle_deleted_transcript path self)) = engine self.
Proof.
  unfold _handle_deleted_transcript.
  destruct (_extract_project_info self path) as [[source_name|] [project_name|]];
    try reflexivity.
  destruct (nonempty source_name && nonempty project_name); [|reflexivity].
  unfold await, with_db, mark_inactive, await, select_latest_by_task.
  simpl. destruct (foldl newer None _) as [session|]; reflexivity.
Qed.

(** C4 fails on the code: for the deleted active transcript of claude:ralph,
    whose auto-detected session is stored, the handler stops with
    [AttributeError] at [SessionStatus.INACTIVE]; the session stays active and
    the project stays in the cache. *)
Theorem deleted_transcript_leaves_session_active :
  sessions (engine watching) !! 1%positive
  = Some (Session.mk 1%positive "Auto-detected: claude:ralph" 200000 200000 ACTIVE 0 0)
  /\ fst (_handle_deleted_transcript demo_path watching)
     = Raise (AttributeError "INACTIVE")
  /\ snd (_handle_deleted_transcript demo_path watching) = watching.
Proof.
  vm_compute. repeat split; reflexivity.
Qed.

(** ** The memory index *)

Import MemoryService.

Section IndexFacts.

Variable ilike : string -> string -> bool.
Variable priority_key : MemoryPriority -> Z.

Lemma count_matches_filter (keywords : list string) (content : string) :
  count_matches keywords (lower content)
  = Z.of_nat (length (filter (fun t => occurs_in content t = true) keywords)).
Proof.
  induction keywords as [|kw keywords IH]; [reflexivity|].
  simpl. rewrite filter_cons. unfold occurs_in at 1.
  destruct (decide (str_in kw (lower content) = true)) as [H|H].
  - rewrite H. simpl length. rewrite IH. lia.
  - destruct (str_in kw (lower content)); [congruence|exact IH].
Qed.

Lemma calc_score_ratio (keywords : list string) (m : Memory.t) :
  keywords <> [] ->
  calc_score keywords m = Ok (hit_ratio keywords (Memory.content m)).
Proof.
  intros Hne. unfold calc_score, hit_ratio, truediv.
  destruct keywords as [|kw keywords]; [congruence|].
  rewrite count_matches_filter.
  destruct (Z.of_nat (length (kw :: keywords)) =? 0)%Z eqn:E; [|reflexivity].
  apply Z.eqb_eq in E. simpl in E. lia.
Qed.

Lemma for_each_index_item (keywords : list string) (ms : list Memory.t)
    (items : list MemoryIndexItem) :
  keywords <> [] ->
  for_each (index_item keywords) ms = Ok items ->
  forall item, item ∈ items ->
    exists m, m ∈ ms /\ id item = Memory.id m
              /\ score item = hit_ratio keywords (Memory.content m).
Proof.
  intros Hne. revert items. induction ms as [|m ms IH]; simpl.
  - intros items [= <-] item Hin. by apply elem_of_nil in Hin.
  - intros items. unfold index_item at 1. rewrite (calc_score_ratio _ _ Hne).
    simpl. destruct (for_each _ ms) as [rest|e]; simpl; [|discriminate].
    intros [= <-] item Hin. apply elem_of_cons in Hin as [->|Hin].
    + exists m. repeat split. by left.
    + destruct (IH rest eq_refl item Hin) as (m' & Hm' & Hid & Hsc).
      exists m'. repeat split; [by right|exact Hid|exact Hsc].
Qed.

Lemma select_index_rows_stored (session_id : UUID) (keywords : list string)
    (top_k : Z) (db db' : AsyncSession) (rows : list Memory.t) :
  select_index_rows ilike priority_key session_id keywords top_k db = (Ok rows, db') ->
  forall m, m ∈ rows ->
    Memory.session_id m = session_id
    /\ exists k, memories (stored db) !! k = Some m.
Proof.
  unfold select_index_rows. destruct (top_k <? 0)%Z; [discriminate|].
  intros [= <- <-] m Hm.
  apply elem_of_take in Hm as (i & Hm & _).
  apply list_elem_of_lookup_2 in Hm.
  rewrite !sorted_desc_perm in Hm.
  apply list_elem_of_filter in Hm as [[Hs _] Hm].
  split; [exact Hs|].
  apply list_elem_of_fmap in Hm as ([k m'] & -> & Hm).
  exists k. by apply elem_of_map_to_list.
Qed.

Lemma remove_dups_NoDup (l : list string) : NoDup l -> remove_dups l = l.
Proof.
  induction 1 as [|x l Hx _ IH]; [reflexivity|].
  simpl. destruct (decide_rel elem_of x l); [done|]. by rewrite IH.
Qed.

(** C7, amended: the score of a returned memory is the share of the query
    tokens, each counted as often as the query repeats it, that occur in the
    lowercased content; for a query without repeated tokens this is the share
    of distinct tokens. *)
Theorem search_index_scores_each_token
    (db db' : AsyncSession) (session_id : UUID) (query : string) (top_k : Z)
    (items : list MemoryIndexItem) (item : MemoryIndexItem) :
  search_index ilike priority_key session_id query top_k db = (Ok items, db') ->
  item ∈ items ->
  exists (k : UUID) (m : Memory.t),
    memories (stored db) !! k = Some m
    /\ Memory.session_id m = session_id
    /\ id item = Memory.id m
    /\ score item = token_score query (Memory.content m)
    /\ (NoDup (query_tokens query) ->
        score item = distinct_token_score query (Memory.content m)).
Proof.
  unfold search_index. intros Hs Hin.
  destruct (split_ws (lower query)) as [|kw kws] eqn:Hk.
  { injection Hs as <- <-. by apply elem_of_nil in Hin. }
  unfold await in Hs.
  destruct (select_index_rows _ _ _ _ _ db) as [[rows|e] db1] eqn:Hrows;
    [|discriminate].
  unfold lift in Hs. injection Hs as Hitems <-.
  destruct (for_each_index_item (kw :: kws) rows items ltac:(discriminate)
              Hitems item Hin) as (m & Hm & Hid & Hsc).
  destruct (select_index_rows_stored _ _ _ _ _ _ Hrows m Hm) as [Hsess [k Hkm]].
  exists k, m. unfold token_score, distinct_token_score, query_tokens.
  rewrite Hk. repeat split; try done.
  intros Hnd. by rewrite remove_dups_NoDup.
Qed.

End IndexFacts.

(** C7 as stated fails: the query "jwt JWT auth" scores "JWT tokens" at 2/3,
    the share of distinct tokens is 1/2. *)
Lemma scores_distinct_tokens_fails :
  ~ scores_distinct_tokens ilike_plain priority_declared.
Proof.
  intros H.
  destruct (H jwt_db jwt_db 1%positive "jwt JWT auth" 5
              [ {| id := 7%positive; summary := "JWT tokens"; category := "decision";
                   priority := "normal"; score := (inject_Z 2 / inject_Z 3)%Q |} ]
              ltac:(vm_compute; reflexivity) _ ltac:(by left))
    as (m & Hm & Hscore).
  vm_compute in Hm. injection Hm as <-.
  vm_compute in Hscore. discriminate.
Qed.

Lemma search_index_scores_each_token_witness :
  exists (k : UUID) (m : Memory.t),
    memories (stored jwt_db) !! k = Some m
    /\ Memory.session_id m = 1%positive
    /\ 7%positive = Memory.id m
    /\ (inject_Z 2 / inject_Z 3)%Q = token_score "jwt JWT auth" (Memory.content m)
    /\ (NoDup (query_tokens "jwt JWT auth") ->
        (inject_Z 2 / inject_Z 3)%Q
        = distinct_token_score "jwt JWT auth" (Memory.content m)).
Proof.
  apply (search_index_scores_each_token ilike_plain priority_declared
           jwt_db jwt_db 1%positive "jwt JWT auth" 5
           [ {| id := 7%positive; summary := "JWT tokens"; category := "decision";
                priority := "normal"; score := (inject_Z 2 / inject_Z 3)%Q |} ]
           {| id := 7%positive; summary := "JWT tokens"; category := "decision";
              priority := "normal"; score := (inject_Z 2 / inject_Z 3)%Q |}).
  - vm_compute. reflexivity.
  - by left.
Defined.

(** ** Hybrid search *)

Section RankFacts.



Lemma lookup_table_from (items : list MemoryIndexItem)
    (acc : gmap UUID MemoryIndexItem) (x : UUID) :
  (forall y it, acc !! y = Some it -> id it = y) ->
  (forall it,
     foldl (fun acc r => <[id r := r]> acc) acc items !! x = Some it -> id it = x)
  /\ (is_Some (acc !! x) \/ x ∈ map id items ->
      is_Some (foldl (fun acc r => <[id r := r]> acc) acc items !! x)).
Proof.
  revert acc. induction items as [|r items IH]; simpl; intros acc Hacc.
  - split; [by apply Hacc|]. intros [H|H]; [exact H|by apply elem_of_nil in H].
  - assert (Hacc' : forall y it, <[id r := r]> acc !! y = Some it -> id it = y).
    { intros y it. destruct (decide (id r = y)) as [<-|Hne].
      - rewrite lookup_insert_eq. by intros [= <-].
      - rewrite lookup_insert_ne by done. apply Hacc. }
    destruct (IH _ Hacc') as [IH1 IH2]. split; [exact IH1|].
    intros [H|H]; apply IH2.
    + left. destruct (decide (id r = x)) as [<-|Hne].
      * rewrite lookup_insert_eq. by eexists.
      * by rewrite lookup_insert_ne.
    + apply elem_of_cons in H as [->|H]; [|by right].
      left. rewrite lookup_insert_eq. by eexists.
Qed.

Lemma lookup_table_id (items : list MemoryIndexItem) (x : UUID) (it : MemoryIndexItem) :
  lookup_table items !! x = Some it -> id it = x.
Proof.
  apply (lookup_table_from items ∅ x). intros y it'. by rewrite lookup_empty.
Qed.





End RankFacts.

Section OrderFacts.

Context {A : Type} (key : A -> Q).



End OrderFacts.

Lemma slice_to_take {A : Type} (n : Z) (l : list A) :
  exists m : nat, slice_to n l = take m l.
Proof.
  unfold slice_to. destruct (0 <=? n)%Z; eexists; reflexivity.
Qed.

Section HybridFacts.

Variable ilike : string -> string -> bool.
Variable priority_key : MemoryPriority -> Z.
Variable vector_path : Db -> UUID -> string -> Z -> result (list (UUID * Q)).
Variable set_order : gset UUID -> list UUID.

Lemma search_index_reads_only (session_id : UUID) (query : string) (top_k : Z)
    (db : AsyncSession) :
  snd (search_index ilike priority_key session_id query top_k db) = db.
Proof.
  unfold search_index. destruct (split_ws (lower query)); [reflexivity|].
  unfold await, select_index_rows.
  destruct (top_k <? 0)%Z; reflexivity.
Qed.

Lemma build_results_omap (ids : list UUID) (lookup : gmap UUID MemoryIndexItem)
    (combined : gmap UUID Q) (db : AsyncSession) :
  build_results ids lookup combined db
  = (Ok (omap (result_item (stored db) lookup combined) ids), db).
Proof.
  induction ids as [|x ids IH]; [reflexivity|].
  simpl. unfold result_item at 1.
  destruct (lookup !! x) as [item|].
  - unfold await. rewrite IH. reflexivity.
  - unfold await, fetch_memory. rewrite IH.
    destruct (memories (stored db) !! x); reflexivity.
Qed.

Lemma result_item_id (d : Db) (items : list MemoryIndexItem) (combined : gmap UUID Q)
    (x : UUID) (it : MemoryIndexItem) :
  memories_keyed d ->
  result_item d (lookup_table items) combined x = Some it -> id it = x.
Proof.
  intros Hk. unfold result_item.
  destruct (lookup_table items !! x) as [item|] eqn:E.
  - intros [= <-]. simpl. by apply lookup_table_id in E.
  - destruct (memories d !! x) as [m|] eqn:Em; [|discriminate].
    intros [= <-]. simpl. by apply (Hk x m).
Qed.


End HybridFacts.

Section HybridRanking.

Variable ilike : string -> string -> bool.
Variable priority_key : MemoryPriority -> Z.
Variable vector_path : Db -> UUID -> string -> Z -> result (list (UUID * Q)).
Variable set_order : gset UUID -> list UUID.

(** However a set is iterated, each of its elements comes up once *)
Hypothesis set_order_elements : forall s, set_order s ≡ₚ elements s.


End HybridRanking.


(** ** Spawn *)

Import SpawnService.

(** C5 as stated fails: when the third commit is refused the checkpoint and
    the child session, committed before it, are still stored. *)
Lemma spawn_rolls_back_fails : ~ spawn_rolls_back percent_exact canned_llm.
Proof.
  intros H.
  specialize (H failing_db 1%positive "context_critical" None []
                drained_parent 95 "Continue refactoring the parser."
                eq_refl eq_refl eq_refl eq_refl eq_refl).
  apply (f_equal (fun d => is_not_None (checkpoints d !! 2%positive))) in H.
  vm_compute in H. discriminate.
Qed.

Section SpawnFacts.

Variable percent_int : Q -> Z.
Variable llm_complete : string -> string -> Z -> result string.

Lemma create_checkpoint_run (st : Db) (next : positive) (time : Z)
    (faults : list bool) (session_id : UUID) (label : string)
    (metadata : list (string * string)) (session : Session.t) (percent : Z) :
  sessions st !! session_id = Some session ->
  Session.context_usage_percent percent_int session = Ok percent ->
  let checkpoint :=
    Checkpoint.mk next session_id label (Session.task_description session)
      (Session.current_tokens session) (Session.max_tokens session)
      (SessionStatus_value (Session.status session)) percent
      (map Memory.id
         (filter (fun m => Memory.session_id m = session_id)
                 (map snd (map_to_list (memories st))))) time in
  let st' :=
    mkDb (sessions st) (memories st) (<[next := checkpoint]> (checkpoints st))
         (session_lineage st) in
  create_checkpoint percent_int session_id label metadata
                    (mkAS st st next time (false :: faults))
  = (Ok checkpoint, mkAS st' st' (Pos.succ next) time faults).
Proof.
  intros Hs Hp. unfold create_checkpoint, await at 1, get_Session.
  cbn [working]. rewrite Hs.
  unfold await at 1, select_memories_of. cbn [stored memories].
  unfold await at 1, lift. rewrite Hp.
  unfold await, uuid4, utcnow, add_Checkpoint, with_working, commit,
    refresh_Checkpoint, ret.
  cbn [next_uuid clock working stored commit_faults checkpoints Checkpoint.id].
  rewrite lookup_insert_eq. reflexivity.
Qed.

Lemma create_session_run (st : Db) (next : positive) (time : Z)
    (faults : list bool) (task : string) (max_tokens : option Z) :
  let session :=
    Session.mk next task (SessionService.or_default max_tokens) 0 ACTIVE time time in
  let st' :=
    mkDb (<[next := session]> (sessions st)) (memories st) (checkpoints st)
         (session_lineage st) in
  SessionService.create_session task max_tokens (mkAS st st next time (false :: faults))
  = (Ok session, mkAS st' st' (Pos.succ next) time faults).
Proof.
  unfold SessionService.create_session, await, uuid4, utcnow, add_Session,
    with_working, commit, refresh_Session, ret.
  cbn [next_uuid clock working stored commit_faults sessions Session.id].
  rewrite lookup_insert_eq. reflexivity.
Qed.

(** C5, amended: when the third commit, the one that writes the lineage row
    and the parent's completion, is refused after the first two went through,
    [execute_spawn] raises; neither the lineage row nor the completion is
    stored, and the checkpoint and the child session, each committed by its
    own step, stay in the store. *)
Theorem spawn_late_failure_keeps_checkpoint_and_child
    (db : AsyncSession) (parent_session_id : UUID) (handoff_reason : string)
    (task_description : option string) (rest : list bool)
    (parent : Session.t) (percent : Z) (prompt : string) :
  working db = stored db ->
  sessions (stored db) !! parent_session_id = Some parent ->
  sessions (stored db) !! Pos.succ (next_uuid db) = None ->
  Session.context_usage_percent percent_int parent = Ok percent ->
  llm_complete (Session.task_description parent) handoff_reason percent = Ok prompt ->
  commit_faults db = false :: false :: true :: rest ->
  let out := execute_spawn percent_int llm_complete parent_session_id
                           handoff_reason task_description db in
  fst out = Raise DBAPIError
  /\ session_lineage (stored (snd out)) = session_lineage (stored db)
  /\ memories (stored (snd out)) = memories (stored db)
  /\ sessions (stored (snd out)) !! parent_session_id = Some parent
  /\ exists (checkpoint : Checkpoint.t) (child : Session.t),
       checkpoints (stored (snd out))
         = <[next_uuid db := checkpoint]> (checkpoints (stored db))
       /\ Checkpoint.session_id checkpoint = parent_session_id
       /\ sessions (stored (snd out))
          = <[Pos.succ (next_uuid db) := child]> (sessions (stored db))
       /\ Session.current_tokens child = 0
       /\ Session.status child = ACTIVE.
Proof.
  intros Hw Hparent Hfresh Hpct Hllm Hfaults.
  assert (Hne : Pos.succ (next_uuid db) <> parent_session_id).
  { intros E. rewrite E in Hfresh.
    cut (Some parent = None); [discriminate|].
    etransitivity; [symmetry; exact Hparent|exact Hfresh]. }
  destruct db as [st wk next time faults].
  cbn [working stored next_uuid commit_faults] in *.
  subst wk faults.
  assert (Hrun : exists (checkpoint : Checkpoint.t) (child : Session.t),
    Checkpoint.session_id checkpoint = parent_session_id
    /\ Session.current_tokens child = 0
    /\ Session.status child = ACTIVE
    /\ execute_spawn percent_int llm_complete parent_session_id handoff_reason
         task_description (mkAS st st next time (false :: false :: true :: rest))
       = (Raise DBAPIError,
          let st' :=
            mkDb (<[Pos.succ next := child]> (sessions st)) (memories st)
                 (<[next := checkpoint]> (checkpoints st)) (session_lineage st) in
          mkAS st' st' (Pos.succ (Pos.succ (Pos.succ next))) time rest)).
  { eexists _, _. split; [|split; [|split]]; cycle 3.
    - unfold execute_spawn, await at 1, get_Session. cbn [working].
      rewrite Hparent. unfold await at 1.
      rewrite (create_checkpoint_run st next time _ parent_session_id _ _ parent
                 percent Hparent Hpct).
      cbv zeta. unfold await at 1, _generate_handoff_prompt, await at 1, lift.
      rewrite Hpct, Hllm.
      unfold await at 1. rewrite create_session_run. cbv zeta.
      unfold await, uuid4, utcnow, add_SessionLineage, with_working,
        assign_Session, commit, ret.
      destruct (decide (parent = Session.set_status parent COMPLETED));
        reflexivity.
    - reflexivity.
    - reflexivity.
    - reflexivity. }
  destruct Hrun as (checkpoint & child & Hcp & Htok & Hst & Hrun).
  cbv zeta. rewrite Hrun. cbn.
  repeat split; [by rewrite lookup_insert_ne|].
  exists checkpoint, child. repeat split; assumption.
Qed.

End SpawnFacts.

Lemma spawn_late_failure_keeps_checkpoint_and_child_witness :
  let out := execute_spawn percent_exact canned_llm 1%positive "context_critical"
                           None failing_db in
  fst out = Raise DBAPIError
  /\ session_lineage (stored (snd out)) = session_lineage (stored failing_db)
  /\ memories (stored (snd out)) = memories (stored failing_db)
  /\ sessions (stored (snd out)) !! 1%positive = Some drained_parent
  /\ exists (checkpoint : Checkpoint.t) (child : Session.t),
       checkpoints (stored (snd out))
         = <[next_uuid failing_db := checkpoint]> (checkpoints (stored failing_db))
       /\ Checkpoint.session_id checkpoint = 1%positive
       /\ sessions (stored (snd out))
          = <[Pos.succ (next_uuid failing_db) := child]> (sessions (stored failing_db))
       /\ Session.current_tokens child = 0
       /\ Session.status child = ACTIVE.
Proof.
  apply (spawn_late_failure_keeps_checkpoint_and_child percent_exact canned_llm
           failing_db 1%positive "context_critical" None []
           drained_parent 95 "Continue refactoring the parser.");
    reflexivity.
Defined.

(** * Further properties *)

(** ** The spawn decision *)

Section SpawnDecisionFacts.

Import SpawnDecision.

Lemma last_n_three {A : Type} (l : list A) :
  (3 <= length l)%nat ->
  exists earlier a b c, l = earlier ++ [a; b; c] /\ last_n 3 l = [a; b; c].
Proof.
  intros Hlen. unfold last_n.
  exists (take (length l - 3) l).
  pose proof (take_drop (length l - 3) l) as Hsplit.
  assert (Hd : length (drop (length l - 3) l) = 3%nat) by (rewrite length_drop; lia).
  destruct (drop (length l - 3) l) as [|a [|b [|c [|d rest]]]]; simpl in Hd; try lia.
  exists a, b, c. split; [by rewrite Hsplit|reflexivity].
Qed.

Lemma distinct_count_three (a b c : string) :
  distinct_count [a; b; c] = 1%nat <-> a = b /\ b = c.
Proof.
  unfold distinct_count. simpl.
  repeat (case_decide; simpl);
    repeat match goal with
           | H : _ ∈ _ :: _ |- _ => apply elem_of_cons in H as [H|H]
           | H : _ ∈ [] |- _ => apply elem_of_nil in H; destruct H
           | H : ¬ _ ∈ _ |- _ => rewrite ?not_elem_of_cons in H
           end; subst; split; intros; try lia; try tauto; naive_solver.
Qed.

Lemma loop_detected_iff (recent_outputs : option (list string)) :
  loop_detected recent_outputs = true <-> ends_in_loop recent_outputs.
Proof.
  unfold ends_in_loop. split.
  - destruct recent_outputs as [[|o outputs]|]; unfold loop_detected;
      try (intros ?; discriminate).
    destruct (3 <=? length (o :: outputs))%nat eqn:E; [|intros ?; discriminate].
    apply Nat.leb_le in E. intros H. apply Nat.eqb_eq in H.
    destruct (last_n_three (o :: outputs) E) as (earlier & a & b & c & Hl & Hlast).
    rewrite Hlast in H. apply distinct_count_three in H as [-> ->].
    exists earlier, c. by rewrite Hl.
  - intros (earlier & x & ->).
    assert (Hlen : (3 <= length (earlier ++ [x; x; x]))%nat)
      by (rewrite length_app; simpl; lia).
    assert (Hlast : last_n 3 (earlier ++ [x; x; x]) = [x; x; x]).
    { unfold last_n. rewrite length_app. simpl.
      replace (length earlier + 3 - 3)%nat with (length earlier) by lia.
      by rewrite drop_app_length. }
    unfold loop_detected.
    destruct (earlier ++ [x; x; x]) as [|o outputs] eqn:El; [simpl in Hlen; lia|].
    apply Nat.leb_le in Hlen. rewrite Hlen, Hlast.
    apply Nat.eqb_eq. by apply distinct_count_three.
Qed.

(** The tests of [should_spawn] in the order they are made *)
Lemma should_spawn_flag_tests
    (context_usage : Q) (task_progress : Z)
    (recent_outputs : option (list string)) (error_count : Z) :
  should_spawn_flag (should_spawn context_usage task_progress recent_outputs error_count)
  = negb (90 <=? task_progress)%Z
    && ((Qle_bool 0.90 context_usage && (task_progress <? 80)%Z)
        || loop_detected recent_outputs
        || (5 <? error_count)%Z).
Proof.
  unfold should_spawn.
  destruct (90 <=? task_progress)%Z; [reflexivity|].
  destruct (Qle_bool 0.90 context_usage && (task_progress <? 80)%Z); [reflexivity|].
  destruct (loop_detected recent_outputs); [reflexivity|].
  destruct (5 <? error_count)%Z; reflexivity.
Qed.

(** X1: [should_spawn] says spawn exactly when the task is below 90% and one
    of the three triggers holds: usage at 0.90 or more with progress below 80,
    the last three outputs identical, or more than five errors. *)
Theorem should_spawn_exactly_when
    (context_usage : Q) (task_progress : Z)
    (recent_outputs : option (list string)) (error_count : Z) :
  should_spawn_flag (should_spawn context_usage task_progress recent_outputs error_count)
    = true
  <-> (task_progress < 90)%Z
      /\ (((0.90 <= context_usage)%Q /\ (task_progress < 80)%Z)
          \/ ends_in_loop recent_outputs
          \/ (5 < error_count)%Z).
Proof.
  rewrite <- loop_detected_iff. unfold should_spawn.
  destruct (90 <=? task_progress)%Z eqn:E90.
  { apply Z.leb_le in E90. simpl. split; [intros ?; discriminate|lia]. }
  apply Z.leb_gt in E90.
  destruct (Qle_bool 0.90 context_usage) eqn:Eu; simpl.
  - apply Qle_bool_iff in Eu.
    destruct (task_progress <? 80)%Z eqn:E80; simpl.
    + apply Z.ltb_lt in E80. split; [|done]. intros _. split; [done|]. by left.
    + apply Z.ltb_ge in E80.
      destruct (loop_detected recent_outputs); simpl.
      * split; [|done]. intros _. split; [done|]. right. by left.
      * destruct (5 <? error_count)%Z eqn:E5; simpl.
        -- apply Z.ltb_lt in E5. split; [|done]. intros _. split; [done|].
           right. by right.
        -- apply Z.ltb_ge in E5. split; [intros ?; discriminate|].
           intros [_ [[_ H]|[H|H]]]; [lia|discriminate|lia].
  - assert (Hu : ~ (0.90 <= context_usage)%Q).
    { rewrite <- Qle_bool_iff. congruence. }
    destruct (loop_detected recent_outputs); simpl.
    + split; [|done]. intros _. split; [done|]. right. by left.
    + destruct (5 <? error_count)%Z eqn:E5; simpl.
      * apply Z.ltb_lt in E5. split; [|done]. intros _. split; [done|].
        right. by right.
      * apply Z.ltb_ge in E5. split; [intros ?; discriminate|].
        intros [_ [[H _]|[H|H]]]; [done|discriminate|lia].
Qed.

(** X2: a decision to spawn survives any growth of the context usage and of
    the error count. *)
Theorem should_spawn_monotone
    (usage1 usage2 : Q) (task_progress : Z)
    (recent_outputs : option (list string)) (errors1 errors2 : Z) :
  (usage1 <= usage2)%Q -> (errors1 <= errors2)%Z ->
  should_spawn_flag (should_spawn usage1 task_progress recent_outputs errors1) = true ->
  should_spawn_flag (should_spawn usage2 task_progress recent_outputs errors2) = true.
Proof.
  intros Hu He. rewrite !should_spawn_flag_tests.
  destruct (90 <=? task_progress)%Z; [done|]. cbn [negb andb].
  destruct (loop_detected recent_outputs); [by rewrite !orb_true_r|].
  rewrite !orb_false_r. intros H. apply orb_true_iff in H as [H|H].
  - apply andb_true_iff in H as [H1 H2]. apply Qle_bool_iff in H1.
    rewrite H2, andb_true_r.
    rewrite (proj2 (Qle_bool_iff 0.90 usage2)); [reflexivity|].
    eapply Qle_trans; [exact H1|exact Hu].
  - apply Z.ltb_lt in H. rewrite (proj2 (Z.ltb_lt 5 errors2)) by lia.
    apply orb_true_r.
Qed.

Lemma should_spawn_monotone_witness :
  should_spawn_flag (should_spawn 0.95%Q 40 (Some ["a"; "b"]) 6) = true.
Proof.
  apply (should_spawn_monotone 0.60%Q 0.95%Q 40 (Some ["a"; "b"]) 6 6).
  - unfold Qle. simpl. lia.
  - lia.
  - reflexivity.
Defined.

End SpawnDecisionFacts.

(** ** Session lifecycle *)

Section LifecycleFacts.

Import SessionService SessionQueries.

Lemma listed_iff (db : AsyncSession) (s : Session.t) :
  listed db s
  <-> (exists k, sessions (stored db) !! k = Some s) /\ Session.status s = ACTIVE.
Proof.
  unfold listed, list_active_sessions. simpl. split.
  - intros (l & [= <-] & Hin). rewrite sorted_desc_perm in Hin.
    apply list_elem_of_filter in Hin as [Hst Hin].
    apply list_elem_of_fmap in Hin as ([k s'] & -> & Hin).
    split; [|exact Hst]. exists k. by apply elem_of_map_to_list.
  - intros [[k Hk] Hst]. eexists. split; [reflexivity|].
    rewrite sorted_desc_perm. apply list_elem_of_filter. split; [exact Hst|].
    apply list_elem_of_fmap. exists (k, s). split; [reflexivity|].
    by apply elem_of_map_to_list.
Qed.

(** X3: [create_session] stores an active session without tokens under a
    fresh id, with the given window or 200000 when none (or 0) is given;
    [get_session] finds it, the listing of active sessions holds it, and no
    other row changes. *)
Theorem create_session_then_get
    (db : AsyncSession) (task : string) (max_tokens : option Z) :
  commit_goes_through db ->
  working db = stored db ->
  exists (s : Session.t) (db' : AsyncSession),
    create_session task max_tokens db = (Ok s, db')
    /\ Session.id s = next_uuid db
    /\ Session.task_description s = task
    /\ Session.current_tokens s = 0
    /\ Session.status s = ACTIVE
    /\ Session.max_tokens s
       = match max_tokens with
         | Some n => if (n =? 0)%Z then 200000 else n
         | None => 200000
         end
    /\ get_session (Session.id s) db' = (Ok (Some s), db')
    /\ listed db' s
    /\ forall k, k <> Session.id s ->
         sessions (stored db') !! k = sessions (stored db) !! k.
Proof.
  intros Hc Hw. destruct db as [st wk next time faults]. simpl in Hw. subst wk.
  unfold commit_goes_through in Hc. simpl in Hc.
  set (s := Session.mk next task (or_default max_tokens) 0 ACTIVE time time).
  set (st' := mkDb (<[next := s]> (sessions st)) (memories st) (checkpoints st)
                   (session_lineage st)).
  assert (Hrun : create_session task max_tokens (mkAS st st next time faults)
                 = (Ok s, mkAS st' st' (Pos.succ next) time (tail faults))).
  { unfold create_session, await, uuid4, utcnow, add_Session, with_working,
      commit, refresh_Session, ret.
    cbn [next_uuid clock working stored commit_faults sessions Session.id].
    destruct faults as [|[] rest]; [| by destruct Hc |];
      cbn [stored sessions Session.id]; fold s; rewrite lookup_insert_eq;
      reflexivity. }
  exists s, (mkAS st' st' (Pos.succ next) time (tail faults)).
  split; [exact Hrun|]. repeat split.
  - unfold get_session, get_Session. cbn [working st' sessions].
    by rewrite lookup_insert_eq.
  - apply listed_iff. split; [|reflexivity]. exists next.
    cbn [stored st' sessions]. apply lookup_insert_eq.
  - intros k Hk. cbn [stored st' sessions]. by rewrite lookup_insert_ne.
Qed.

Lemma create_session_then_get_witness :
  exists (s : Session.t) (db' : AsyncSession),
    create_session "write the parser" (Some 0) example_db = (Ok s, db')
    /\ Session.id s = next_uuid example_db
    /\ Session.task_description s = "write the parser"
    /\ Session.current_tokens s = 0
    /\ Session.status s = ACTIVE
    /\ Session.max_tokens s = 200000
    /\ get_session (Session.id s) db' = (Ok (Some s), db')
    /\ listed db' s
    /\ forall k, k <> Session.id s ->
         sessions (stored db') !! k = sessions (stored example_db) !! k.
Proof.
  apply (create_session_then_get example_db "write the parser" (Some 0)).
  - vm_compute. discriminate.
  - reflexivity.
Defined.

(** What [complete_session] and [terminate_session] share *)
Lemma set_status_run (db : AsyncSession) (session_id : UUID) (s : Session.t)
    (target : SessionStatus) :
  commit_goes_through db ->
  sessions (working db) !! session_id = Some s ->
  Session.id s = session_id ->
  exists (s' : Session.t) (db' : AsyncSession),
    (let* session := get_Session session_id in
     match session with
     | None => raise (ValueError "Session" session_id)
     | Some session =>
         let session' := Session.set_status session target in
         let* _ := assign_Session session session' in
         let* _ := commit in
         let* session := refresh_Session session' in
         ret session
     end) db = (Ok s', db')
    /\ stored db' = mkDb (<[session_id := s']> (sessions (working db)))
                         (memories (working db)) (checkpoints (working db))
                         (session_lineage (working db))
    /\ Session.status s' = target
    /\ Session.id s' = session_id
    /\ Session.current_tokens s' = Session.current_tokens s
    /\ Session.max_tokens s' = Session.max_tokens s
    /\ Session.task_description s' = Session.task_description s.
Proof.
  intros Hc Hs Hid. destruct db as [st wk next time faults].
  unfold commit_goes_through in Hc. cbn [working commit_faults] in *.
  unfold await at 1, get_Session. cbn [working]. rewrite Hs.
  unfold assign_Session.
  destruct (decide (s = Session.set_status s target)) as [Heq|Hne].
  - exists s, (mkAS wk wk next time (tail faults)).
    unfold await, ret, commit, refresh_Session.
    cbn [commit_faults stored working next_uuid clock].
    assert (Hwk : wk = mkDb (<[session_id := s]> (sessions wk)) (memories wk)
                           (checkpoints wk) (session_lineage wk)).
    { destruct wk as [ss ms cs ls]. cbn [sessions memories checkpoints session_lineage] in *.
      by rewrite insert_id. }
    destruct faults as [|[] rest]; [| by destruct Hc |];
      cbn [stored sessions Session.id Session.set_status tail]; rewrite Hid, Hs;
      (split; [reflexivity|]); cbn [stored];
      (split; [exact Hwk|]); repeat split; by rewrite Heq at 1.
  - set (s1 := Session.set_updated_at (Session.set_status s target) time).
    set (wk1 := mkDb (<[session_id := s1]> (sessions wk)) (memories wk)
                     (checkpoints wk) (session_lineage wk)).
    exists s1, (mkAS wk1 wk1 next time (tail faults)).
    unfold await, utcnow, add_Session, with_working, ret, commit, refresh_Session.
    cbn [commit_faults stored working next_uuid clock].
    destruct faults as [|[] rest]; [| by destruct Hc |];
      cbn [stored sessions Session.id Session.set_status Session.set_updated_at tail];
      fold s1; rewrite Hid; fold wk1; rewrite lookup_insert_eq;
      (split; [reflexivity|]); cbn [stored]; repeat split; exact Hid.
Qed.

(** X4: [complete_session] marks a stored session completed whatever its
    status was, keeps its tokens and window, and takes it, and no other
    session, out of the listing of active sessions. *)
Theorem complete_session_leaves_listing
    (db : AsyncSession) (session_id : UUID) (s : Session.t) :
  commit_goes_through db ->
  working db = stored db ->
  keyed (stored db) ->
  sessions (stored db) !! session_id = Some s ->
  exists (s' : Session.t) (db' : AsyncSession),
    complete_session session_id db = (Ok s', db')
    /\ sessions (stored db') !! session_id = Some s'
    /\ Session.status s' = COMPLETED
    /\ Session.current_tokens s' = Session.current_tokens s
    /\ Session.max_tokens s' = Session.max_tokens s
    /\ forall x, listed db' x <-> listed db x /\ Session.id x <> session_id.
Proof.
  intros Hc Hw Hk Hs.
  assert (Hs' : sessions (working db) !! session_id = Some s) by (by rewrite Hw).
  destruct (set_status_run db session_id s COMPLETED Hc Hs' (Hk _ _ Hs))
    as (s' & db' & Hrun & Hst & Hstatus & Hid & Htok & Hmax & _).
  exists s', db'. split; [exact Hrun|]. rewrite Hst, Hw. cbn [sessions].
  split; [apply lookup_insert_eq|].
  split; [exact Hstatus|]. split; [exact Htok|]. split; [exact Hmax|].
  intros x. rewrite !listed_iff, Hst, Hw. cbn [stored sessions]. split.
  - intros [[k Hx] Hact]. destruct (decide (session_id = k)) as [<-|Hne].
    + rewrite lookup_insert_eq in Hx. injection Hx as <-. congruence.
    + rewrite lookup_insert_ne in Hx by done.
      split; [split; [by exists k|done]|]. rewrite (Hk _ _ Hx). congruence.
  - intros [[[k Hx] Hact] Hne]. split; [|exact Hact]. exists k.
    rewrite lookup_insert_ne; [exact Hx|]. intros ->. apply Hne. exact (Hk _ _ Hx).
Qed.

Lemma complete_session_leaves_listing_witness :
  exists (s' : Session.t) (db' : AsyncSession),
    complete_session 1%positive failing_db = (Ok s', db')
    /\ sessions (stored db') !! 1%positive = Some s'
    /\ Session.status s' = COMPLETED
    /\ Session.current_tokens s' = Session.current_tokens drained_parent
    /\ Session.max_tokens s' = Session.max_tokens drained_parent
    /\ forall x, listed db' x <-> listed failing_db x /\ Session.id x <> 1%positive.
Proof.
  apply (complete_session_leaves_listing failing_db 1%positive drained_parent).
  - vm_compute. discriminate.
  - reflexivity.
  - intros k s. unfold failing_db, open_session. simpl.
    intros H. apply lookup_singleton_Some in H as [<- <-]. reflexivity.
  - reflexivity.
Defined.

End LifecycleFacts.


(** ** Checkpoints *)

Section CheckpointFacts.

Import Preconditions.

Variable percent_int : Q -> Z.

Lemma context_usage_percent_returns (s : Session.t) :
  exists p, Session.context_usage_percent percent_int s = Ok p.
Proof.
  unfold Session.context_usage_percent, Session.context_usage, truediv.
  destruct (Session.max_tokens s =? 0)%Z; eexists; reflexivity.
Qed.

Lemma commits_go_through_next (n : nat) (st wk st' wk' : Db) (next next' : positive)
    (time time' : Z) (faults : list bool) :
  commits_go_through (S n) (mkAS st wk next time faults) ->
  head faults <> Some true
  /\ commits_go_through n (mkAS st' wk' next' time' (tail faults)).
Proof.
  unfold commits_go_through. cbn [commit_faults]. intros H. split.
  - specialize (H 0%nat ltac:(lia)). by destruct faults.
  - intros i Hi. specialize (H (S i) ltac:(lia)). by destruct faults.
Qed.

Lemma commit_run (db : AsyncSession) :
  SessionService.commit_goes_through db ->
  commit db = (Ok tt, mkAS (working db) (working db) (next_uuid db) (clock db)
                           (tail (commit_faults db))).
Proof.
  unfold SessionService.commit_goes_through, commit.
  destruct (commit_faults db) as [|[] rest]; simpl; intros H; try reflexivity.
  by destruct H.
Qed.

Lemma create_checkpoint_goes (st : Db) (next : positive) (time : Z)
    (faults : list bool) (session_id : UUID) (label : string)
    (metadata : list (string * string)) (session : Session.t) (percent : Z) :
  head faults <> Some true ->
  sessions st !! session_id = Some session ->
  Session.context_usage_percent percent_int session = Ok percent ->
  let checkpoint :=
    Checkpoint.mk next session_id label (Session.task_description session)
      (Session.current_tokens session) (Session.max_tokens session)
      (SessionStatus_value (Session.status session)) percent
      (map Memory.id
         (filter (fun m => Memory.session_id m = session_id)
                 (map snd (map_to_list (memories st))))) time in
  let st' :=
    mkDb (sessions st) (memories st) (<[next := checkpoint]> (checkpoints st))
         (session_lineage st) in
  create_checkpoint percent_int session_id label metadata
                    (mkAS st st next time faults)
  = (Ok checkpoint, mkAS st' st' (Pos.succ next) time (tail faults)).
Proof.
  intros Hc Hs Hp. unfold create_checkpoint, await at 1, get_Session.
  cbn [working]. rewrite Hs.
  unfold await at 1, select_memories_of. cbn [stored memories].
  unfold await at 1, lift. rewrite Hp.
  unfold await, uuid4, utcnow, add_Checkpoint, with_working, commit,
    refresh_Checkpoint, ret.
  cbn [next_uuid clock working stored commit_faults checkpoints Checkpoint.id].
  destruct faults as [|[] rest]; [| by destruct Hc |];
    cbn [stored checkpoints Checkpoint.id]; rewrite lookup_insert_eq; reflexivity.
Qed.

Lemma create_session_goes (st : Db) (next : positive) (time : Z)
    (faults : list bool) (task : string) (max_tokens : option Z) :
  head faults <> Some true ->
  let session :=
    Session.mk next task (SessionService.or_default max_tokens) 0 ACTIVE time time in
  let st' :=
    mkDb (<[next := session]> (sessions st)) (memories st) (checkpoints st)
         (session_lineage st) in
  SessionService.create_session task max_tokens (mkAS st st next time faults)
  = (Ok session, mkAS st' st' (Pos.succ next) time (tail faults)).
Proof.
  intros Hc.
  unfold SessionService.create_session, await, uuid4, utcnow, add_Session,
    with_working, commit, refresh_Session, ret.
  cbn [next_uuid clock working stored commit_faults sessions Session.id].
  destruct faults as [|[] rest]; [| by destruct Hc |];
    cbn [stored sessions Session.id]; rewrite lookup_insert_eq; reflexivity.
Qed.

(** Rows of a keyed table are told apart by their primary key *)
Lemma memories_keyed_inj (d : Db) (m m' : Memory.t) :
  memories_keyed d ->
  m ∈ map snd (map_to_list (memories d)) ->
  m' ∈ map snd (map_to_list (memories d)) ->
  Memory.id m = Memory.id m' -> m = m'.
Proof.
  intros Hk Hm Hm' Hid.
  apply list_elem_of_fmap in Hm as [[k x] [-> Hm]].
  apply list_elem_of_fmap in Hm' as [[k' x'] [-> Hm']].
  apply elem_of_map_to_list in Hm, Hm'. simpl in *.
  pose proof (Hk _ _ Hm) as E. pose proof (Hk _ _ Hm') as E'. simpl in E, E'.
  assert (k = k') by congruence. subst k'. congruence.
Qed.

Lemma filter_by_ids_of_filter (P : Memory.t -> Prop) `{!forall m, Decision (P m)}
    (d : Db) :
  memories_keyed d ->
  let rows := map snd (map_to_list (memories d)) in
  filter (fun m => Memory.id m ∈ map Memory.id (filter P rows)) rows = filter P rows.
Proof.
  intros Hk rows.
  assert (Hall : forall m, m ∈ rows ->
            (Memory.id m ∈ map Memory.id (filter P rows) <-> P m)).
  { intros m Hm. split.
    - intros Hin. apply list_elem_of_fmap in Hin as [m' [Hid Hm']].
      apply list_elem_of_filter in Hm' as [HP Hm'].
      by rewrite (memories_keyed_inj d m m' Hk Hm Hm' Hid).
    - intros HP. apply list_elem_of_fmap. exists m. split; [done|].
      by apply list_elem_of_filter. }
  revert Hall. generalize (map Memory.id (filter P rows)). intros ids.
  induction rows as [|m rows IH]; intros Hall; [reflexivity|].
  rewrite !filter_cons.
  assert (Hm : Memory.id m ∈ ids <-> P m) by (apply Hall; left).
  rewrite IH by (intros x Hx; apply Hall; by right).
  destruct (decide (Memory.id m ∈ ids)), (decide (P m)); tauto || reflexivity.
Qed.

(** X5: a checkpoint just created restores to what the session was: its
    label, the session's task, token counts, status and usage percentage, and
    the session's memories; restoring changes nothing. *)
Theorem restore_after_create_checkpoint
    (db : AsyncSession) (session_id : UUID) (label : string)
    (metadata : list (string * string)) (session : Session.t) :
  working db = stored db ->
  memories_keyed (stored db) ->
  SessionService.commit_goes_through db ->
  sessions (stored db) !! session_id = Some session ->
  exists (checkpoint : Checkpoint.t) (db' : AsyncSession)
         (restored : CheckpointQueries.Restored),
    create_checkpoint percent_int session_id label metadata db = (Ok checkpoint, db')
    /\ CheckpointQueries.restore_checkpoint (Checkpoint.id checkpoint) db'
       = (Ok restored, db')
    /\ CheckpointQueries.checkpoint_id restored = next_uuid db
    /\ CheckpointQueries.label restored = label
    /\ CheckpointQueries.state_task_description restored
       = Session.task_description session
    /\ CheckpointQueries.state_current_tokens restored
       = Session.current_tokens session
    /\ CheckpointQueries.state_max_tokens restored = Session.max_tokens session
    /\ CheckpointQueries.state_status restored
       = SessionStatus_value (Session.status session)
    /\ Session.context_usage_percent percent_int session
       = Ok (CheckpointQueries.context_usage restored)
    /\ CheckpointQueries.memories_restored restored
       = map CheckpointQueries.brief
           (filter (fun m => Memory.session_id m = session_id)
                   (map snd (map_to_list (memories (stored db))))).
Proof.
  intros Hw Hk Hc Hs. destruct db as [st wk next time faults].
  simpl in Hw, Hk, Hs. subst wk. unfold SessionService.commit_goes_through in Hc. simpl in Hc.
  destruct (context_usage_percent_returns session) as [percent Hp].
  pose proof (create_checkpoint_goes st next time faults session_id label
                metadata session percent Hc Hs Hp) as Hrun.
  cbv zeta in Hrun. eexists _, _, _. split; [exact Hrun|].
  unfold CheckpointQueries.restore_checkpoint, await,
    CheckpointQueries.get_Checkpoint, CheckpointQueries.select_memories_in, ret.
  cbn [working stored checkpoints memories Checkpoint.id].
  rewrite lookup_insert_eq.
  cbn [Checkpoint.memories_snapshot Checkpoint.id Checkpoint.label
       Checkpoint.state_task_description Checkpoint.state_current_tokens
       Checkpoint.state_max_tokens Checkpoint.state_status
       Checkpoint.context_usage Checkpoint.created_at].
  split; [reflexivity|].
  cbn [CheckpointQueries.checkpoint_id CheckpointQueries.label
       CheckpointQueries.state_task_description
       CheckpointQueries.state_current_tokens CheckpointQueries.state_max_tokens
       CheckpointQueries.state_status CheckpointQueries.context_usage
       CheckpointQueries.memories_restored next_uuid].
  repeat (split; [done|]).
  f_equal. by apply (filter_by_ids_of_filter _ st).
Qed.

End CheckpointFacts.

Lemma restore_after_create_checkpoint_witness :
  exists (checkpoint : Checkpoint.t) (db' : AsyncSession)
         (restored : CheckpointQueries.Restored),
    create_checkpoint percent_exact 1%positive "before refactor" [] spawning_db
    = (Ok checkpoint, db')
    /\ CheckpointQueries.restore_checkpoint (Checkpoint.id checkpoint) db'
       = (Ok restored, db')
    /\ CheckpointQueries.checkpoint_id restored = next_uuid spawning_db
    /\ CheckpointQueries.label restored = "before refactor"
    /\ CheckpointQueries.state_task_description restored
       = Session.task_description drained_parent
    /\ CheckpointQueries.state_current_tokens restored
       = Session.current_tokens drained_parent
    /\ CheckpointQueries.state_max_tokens restored = Session.max_tokens drained_parent
    /\ CheckpointQueries.state_status restored
       = SessionStatus_value (Session.status drained_parent)
    /\ Session.context_usage_percent percent_exact drained_parent
       = Ok (CheckpointQueries.context_usage restored)
    /\ CheckpointQueries.memories_restored restored
       = map CheckpointQueries.brief
           (filter (fun m => Memory.session_id m = 1%positive)
                   (map snd (map_to_list (memories (stored spawning_db))))).
Proof.
  apply (restore_after_create_checkpoint percent_exact spawning_db 1%positive "before refactor"
           [] drained_parent).
  - reflexivity.
  - intros k m H. cbn in H. apply lookup_singleton_Some in H as [<- <-].
    reflexivity.
  - vm_compute. discriminate.
  - reflexivity.
Defined.


Section NewestFirst.

Context {A : Type} (key : A -> Q).

(** The row whose key is above every other row's comes first *)
Lemma sorted_desc_head (a : A) (l : list A) :
  a ∈ l ->
  (forall x, x ∈ l -> x = a \/ (key x < key a)%Q) ->
  head (sorted_desc key l) = Some a.
Proof.
  intros Ha Hmax.
  pose proof (sorted_desc_perm key l) as Hperm.
  pose proof (sorted_desc_sorted key l) as Hsorted.
  destruct (sorted_desc key l) as [|h t].
  - rewrite <- Hperm in Ha. by apply elem_of_nil in Ha.
  - simpl. f_equal.
    assert (Hh : h ∈ l) by (rewrite <- Hperm; left).
    destruct (Hmax h Hh) as [->|Hlt]; [reflexivity|].
    rewrite <- Hperm in Ha. apply elem_of_cons in Ha as [->|Ha]; [reflexivity|].
    apply StronglySorted_inv in Hsorted as [_ Hall].
    rewrite Forall_forall in Hall. specialize (Hall a Ha).
    unfold key_ge in Hall. exfalso. eapply Qlt_irrefl, Qle_lt_trans; eauto.
Qed.

End NewestFirst.

Section StoreFacts.

Variable percent_int : Q -> Z.

(** X6: a checkpoint taken later than every checkpoint the session has is the
    one [get_latest_checkpoint] returns and the first entry of
    [list_checkpoints]. *)
Theorem latest_checkpoint_after_create
    (db : AsyncSession) (session_id : UUID) (label : string)
    (metadata : list (string * string)) (session : Session.t) :
  working db = stored db ->
  SessionService.commit_goes_through db ->
  sessions (stored db) !! session_id = Some session ->
  checkpoints (stored db) !! next_uuid db = None ->
  (forall k c, checkpoints (stored db) !! k = Some c ->
               Checkpoint.session_id c = session_id ->
               Checkpoint.created_at c < clock db) ->
  exists (checkpoint : Checkpoint.t) (db' : AsyncSession),
    create_checkpoint percent_int session_id label metadata db = (Ok checkpoint, db')
    /\ CheckpointQueries.get_latest_checkpoint session_id db'
       = (Ok (Some checkpoint), db')
    /\ exists entries,
         CheckpointQueries.list_checkpoints session_id db' = (Ok entries, db')
         /\ CheckpointQueries.listed_id <$> head entries = Some (Checkpoint.id checkpoint)
         /\ CheckpointQueries.listed_label <$> head entries = Some label.
Proof.
  intros Hw Hc Hs Hfresh Hold. destruct db as [st wk next time faults].
  simpl in Hw, Hs, Hfresh, Hold. subst wk.
  unfold SessionService.commit_goes_through in Hc. simpl in Hc.
  destruct (context_usage_percent_returns percent_int session) as [percent Hp].
  pose proof (create_checkpoint_goes percent_int st next time faults session_id
                label metadata session percent Hc Hs Hp) as Hrun.
  cbv zeta in Hrun.
  set (cp := Checkpoint.mk next session_id label _ _ _ _ _ _ _) in Hrun.
  assert (Hhead :
    head (sorted_desc (fun c => inject_Z (Checkpoint.created_at c))
            (filter (fun c => Checkpoint.session_id c = session_id)
               (map snd (map_to_list (<[next := cp]> (checkpoints st))))))
    = Some cp).
  { apply sorted_desc_head.
    - apply list_elem_of_filter. split; [reflexivity|].
      apply list_elem_of_fmap. exists (next, cp). split; [reflexivity|].
      apply elem_of_map_to_list, lookup_insert_eq.
    - intros x Hx. apply list_elem_of_filter in Hx as [Hsid Hx].
      apply list_elem_of_fmap in Hx as [[k c] [-> Hx]].
      apply elem_of_map_to_list in Hx. simpl in *.
      destruct (decide (next = k)) as [<-|Hne].
      + rewrite lookup_insert_eq in Hx. left. congruence.
      + rewrite lookup_insert_ne in Hx by done. right.
        rewrite <- Zlt_Qlt. exact (Hold k c Hx Hsid). }
  eexists _, _. split; [exact Hrun|].
  unfold CheckpointQueries.get_latest_checkpoint,
    CheckpointQueries.list_checkpoints, await,
    CheckpointQueries.select_checkpoints_of, ret.
  cbn [stored checkpoints]. rewrite Hhead. split; [reflexivity|].
  eexists. split; [reflexivity|].
  destruct (sorted_desc _ _) as [|h t]; [discriminate|].
  simpl in Hhead. injection Hhead as ->. split; reflexivity.
Qed.

Lemma filter_all {B : Type} (P : B -> Prop) `{!forall x, Decision (P x)}
    (l : list B) :
  Forall P l -> filter P l = l.
Proof.
  induction 1 as [|x l Hx Hl IH]; [reflexivity|].
  rewrite filter_cons. destruct (decide (P x)); [by rewrite IH|done].
Qed.

(** The rows left by a [DELETE] on the primary key *)
Lemma keyed_delete_values (d : Db) (memory_id : UUID) :
  memories_keyed d ->
  map snd (map_to_list (delete memory_id (memories d)))
  ≡ₚ filter (fun m => Memory.id m <> memory_id)
            (map snd (map_to_list (memories d))).
Proof.
  intros Hk.
  assert (Hrest : Forall (fun m => Memory.id m <> memory_id)
                    (map snd (map_to_list (delete memory_id (memories d))))).
  { apply Forall_forall. intros m Hm.
    apply list_elem_of_fmap in Hm as [[k x] [-> Hm]].
    apply elem_of_map_to_list in Hm. simpl.
    apply lookup_delete_Some in Hm as [Hne Hm].
    rewrite (Hk _ _ Hm). congruence. }
  destruct (memories d !! memory_id) as [x|] eqn:Hx.
  - rewrite <- (map_to_list_delete _ _ _ Hx). simpl.
    rewrite filter_cons. destruct (decide (Memory.id x <> memory_id)) as [Hne|_].
    + exfalso. apply Hne. exact (Hk _ _ Hx).
    + by rewrite filter_all.
  - rewrite delete_id in Hrest |- * by exact Hx. by rewrite filter_all.
Qed.

(** X7: [delete_memory] answers whether the row was there; afterwards the
    row is gone from the store, the sessions, the checkpoints (with the ids
    they list) and the lineage are as before, and a checkpoint restores with
    the memories it restored before apart from that one. *)
Theorem delete_memory_removes_the_row (db : AsyncSession) (memory_id : UUID) :
  working db = stored db ->
  memories_keyed (stored db) ->
  SessionService.commit_goes_through db ->
  exists (found : bool) (db' : AsyncSession),
    MemoryStore.delete_memory memory_id db = (Ok found, db')
    /\ (found = true <-> is_Some (memories (stored db) !! memory_id))
    /\ memories (stored db') = delete memory_id (memories (stored db))
    /\ sessions (stored db') = sessions (stored db)
    /\ checkpoints (stored db') = checkpoints (stored db)
    /\ session_lineage (stored db') = session_lineage (stored db)
    /\ forall (checkpoint_id : UUID) (restored : CheckpointQueries.Restored),
         fst (CheckpointQueries.restore_checkpoint checkpoint_id db) = Ok restored ->
         exists (restored' : CheckpointQueries.Restored),
           CheckpointQueries.restore_checkpoint checkpoint_id db'
           = (Ok restored', db')
           /\ CheckpointQueries.memories_restored restored'
              ≡ₚ filter (fun b => CheckpointQueries.id b <> memory_id)
                        (CheckpointQueries.memories_restored restored)
           /\ CheckpointQueries.label restored' = CheckpointQueries.label restored
           /\ CheckpointQueries.state_current_tokens restored'
              = CheckpointQueries.state_current_tokens restored
           /\ CheckpointQueries.state_status restored'
              = CheckpointQueries.state_status restored.
Proof.
  intros Hw Hk Hc.
  assert (Hrun : exists (found : bool) (db' : AsyncSession),
    MemoryStore.delete_memory memory_id db = (Ok found, db')
    /\ (found = true <-> is_Some (memories (stored db) !! memory_id))
    /\ working db' = stored db'
    /\ memories (stored db') = delete memory_id (memories (stored db))
    /\ sessions (stored db') = sessions (stored db)
    /\ checkpoints (stored db') = checkpoints (stored db)
    /\ session_lineage (stored db') = session_lineage (stored db)).
  { destruct db as [st wk next time faults]. simpl in Hw, Hk. subst wk.
    unfold MemoryStore.delete_memory, await at 1, MemoryStore.get_Memory.
    cbn [working]. destruct (memories st !! memory_id) as [m|] eqn:Hm.
    - unfold await, MemoryStore.delete_Memory, with_working, ret.
      cbn [stored working next_uuid clock commit_faults].
      rewrite commit_run by exact Hc.
      cbn [stored working next_uuid clock commit_faults].
      eexists _, _. split; [reflexivity|].
      cbn [stored working memories sessions checkpoints session_lineage].
      rewrite (Hk _ _ Hm). repeat split; eauto.
    - eexists _, _. split; [reflexivity|]. cbn [stored working].
      rewrite delete_id by exact Hm. rewrite Hm. repeat split; try done. }
  destruct Hrun as (found & db' & Hrun & Hfound & Hw' & Hmem & Hses & Hcp & Hlin).
  exists found, db'. do 6 (split; [assumption|]).
  intros checkpoint_id restored Hr.
  unfold CheckpointQueries.restore_checkpoint, await,
    CheckpointQueries.get_Checkpoint, CheckpointQueries.select_memories_in, ret
    in Hr |- *.
  cbv beta iota in Hr |- *. rewrite Hw', Hcp. rewrite Hw in Hr.
  destruct (checkpoints (stored db) !! checkpoint_id) as [cp|];
    [|discriminate].
  cbv beta in Hr |- *. cbn [fst] in Hr. injection Hr as <-. rewrite Hmem.
  eexists. split; [reflexivity|].
  cbn [CheckpointQueries.memories_restored CheckpointQueries.label
       CheckpointQueries.state_current_tokens CheckpointQueries.state_status].
  split; [|done].
  set (ids := Checkpoint.memories_snapshot cp).
  rewrite (keyed_delete_values _ _ Hk).
  induction (map snd (map_to_list (memories (stored db)))) as [|m l IH];
    [reflexivity|].
  rewrite !filter_cons.
  destruct (decide (Memory.id m <> memory_id)) as [Hne|He],
           (decide (Memory.id m ∈ ids)) as [Hin|Hout].
  - rewrite (filter_cons_True (fun m => Memory.id m ∈ ids)) by done.
    cbn [map]. rewrite filter_cons_True by done. by rewrite IH.
  - rewrite (filter_cons_False (fun m => Memory.id m ∈ ids)) by done. exact IH.
  - cbn [map]. rewrite filter_cons_False by (intros Hb; by apply He). exact IH.
  - exact IH.
Qed.

End StoreFacts.

Lemma latest_checkpoint_after_create_witness :
  exists (checkpoint : Checkpoint.t) (db' : AsyncSession),
    create_checkpoint percent_exact 1%positive "before refactor" [] checkpointed_db
    = (Ok checkpoint, db')
    /\ CheckpointQueries.get_latest_checkpoint 1%positive db'
       = (Ok (Some checkpoint), db')
    /\ exists entries,
         CheckpointQueries.list_checkpoints 1%positive db' = (Ok entries, db')
         /\ CheckpointQueries.listed_id <$> head entries = Some (Checkpoint.id checkpoint)
         /\ CheckpointQueries.listed_label <$> head entries = Some "before refactor".
Proof.
  apply (latest_checkpoint_after_create percent_exact checkpointed_db 1%positive
           "before refactor" [] drained_parent).
  - reflexivity.
  - vm_compute. discriminate.
  - reflexivity.
  - reflexivity.
  - intros k c H Hs. unfold checkpointed_db, open_session in H.
    cbn [stored checkpoints] in H.
    apply lookup_insert_Some in H as [[_ <-]|[_ H]]; [reflexivity|].
    apply lookup_singleton_Some in H as [_ <-]. discriminate.
Defined.

(** There the session had a checkpoint already, and another session a later
    one: the listing of the session has the new checkpoint before the old
    one and leaves out the other session's. *)
Example checkpoints_listed_latest_first :
  let db' := snd (create_checkpoint percent_exact 1%positive "before refactor" []
                                    checkpointed_db) in
  match fst (CheckpointQueries.list_checkpoints 1%positive db') with
  | Ok entries => map CheckpointQueries.listed_id entries
  | Raise _ => []
  end = [8%positive; 5%positive].
Proof. vm_compute. reflexivity. Qed.


Lemma delete_memory_removes_the_row_witness :
  exists (found : bool) (db' : AsyncSession),
    MemoryStore.delete_memory 7%positive spawning_db = (Ok found, db')
    /\ (found = true <-> is_Some (memories (stored spawning_db) !! 7%positive))
    /\ memories (stored db') = delete 7%positive (memories (stored spawning_db))
    /\ sessions (stored db') = sessions (stored spawning_db)
    /\ checkpoints (stored db') = checkpoints (stored spawning_db)
    /\ session_lineage (stored db') = session_lineage (stored spawning_db)
    /\ forall (checkpoint_id : UUID) (restored : CheckpointQueries.Restored),
         fst (CheckpointQueries.restore_checkpoint checkpoint_id spawning_db)
         = Ok restored ->
         exists (restored' : CheckpointQueries.Restored),
           CheckpointQueries.restore_checkpoint checkpoint_id db'
           = (Ok restored', db')
           /\ CheckpointQueries.memories_restored restored'
              ≡ₚ filter (fun b => CheckpointQueries.id b <> 7%positive)
                        (CheckpointQueries.memories_restored restored)
           /\ CheckpointQueries.label restored' = CheckpointQueries.label restored
           /\ CheckpointQueries.state_current_tokens restored'
              = CheckpointQueries.state_current_tokens restored
           /\ CheckpointQueries.state_status restored'
              = CheckpointQueries.state_status restored.
Proof.
  apply (delete_memory_removes_the_row spawning_db 7%positive).
  - reflexivity.
  - intros k m H. cbn in H. apply lookup_singleton_Some in H as [<- <-].
    reflexivity.
  - vm_compute. discriminate.
Defined.

(** ** Spawning and lineage *)

Section SpawnLineageFacts.

Import Preconditions.

Variable percent_int : Q -> Z.
Variable llm_complete : string -> string -> Z -> result string.

Lemma fresh_key_differs (d : Db) (k k' : UUID) (s : Session.t) :
  sessions d !! k = Some s -> sessions d !! k' = None -> k' <> k.
Proof.
  intros Hs Hn ->.
  assert (E : None = Some s) by (etransitivity; [symmetry; exact Hn | exact Hs]).
  discriminate.
Qed.

(** What a spawn writes when the model answers and the three commits go
    through *)
Lemma execute_spawn_goes (db : AsyncSession) (parent_session_id : UUID)
    (handoff_reason : string) (task_description : option string)
    (parent : Session.t) (percent : Z) (prompt : string) :
  working db = stored db ->
  SessionService.keyed (stored db) ->
  commits_go_through 3 db ->
  sessions (stored db) !! parent_session_id = Some parent ->
  sessions (stored db) !! Pos.succ (next_uuid db) = None ->
  Session.context_usage_percent percent_int parent = Ok percent ->
  llm_complete (Session.task_description parent) handoff_reason percent = Ok prompt ->
  let checkpoint :=
    Checkpoint.mk (next_uuid db) parent_session_id
      ("spawn-" ++ String.substring 0 20 handoff_reason)%string
      (Session.task_description parent) (Session.current_tokens parent)
      (Session.max_tokens parent) (SessionStatus_value (Session.status parent))
      percent
      (map Memory.id
         (filter (fun m => Memory.session_id m = parent_session_id)
                 (map snd (map_to_list (memories (stored db)))))) (clock db) in
  let child :=
    Session.mk (Pos.succ (next_uuid db)) (or_str task_description prompt)
      (SessionService.or_default (Some (Session.max_tokens parent))) 0 ACTIVE
      (clock db) (clock db) in
  let link :=
    SessionLineage.mk (Pos.succ (Pos.succ (next_uuid db))) (Some parent_session_id)
      (Pos.succ (next_uuid db)) handoff_reason prompt (Some (next_uuid db))
      (clock db) in
  exists (db' : AsyncSession) (parent' : Session.t),
    execute_spawn percent_int llm_complete parent_session_id handoff_reason
                  task_description db
    = (Ok {| parent_session_id := parent_session_id;
             child_session_id := Pos.succ (next_uuid db);
             handoff_prompt := prompt;
             checkpoint_id := Some (next_uuid db) |}, db')
    /\ working db' = stored db'
    /\ memories (stored db') = memories (stored db)
    /\ checkpoints (stored db') = <[next_uuid db := checkpoint]> (checkpoints (stored db))
    /\ session_lineage (stored db')
       = <[Pos.succ (Pos.succ (next_uuid db)) := link]> (session_lineage (stored db))
    /\ sessions (stored db')
       = <[parent_session_id := parent']>
           (<[Pos.succ (next_uuid db) := child]> (sessions (stored db)))
    /\ Session.status parent' = COMPLETED
    /\ Session.id parent' = parent_session_id
    /\ Session.task_description parent' = Session.task_description parent
    /\ Session.current_tokens parent' = Session.current_tokens parent
    /\ Session.max_tokens parent' = Session.max_tokens parent
    /\ Session.created_at parent' = Session.created_at parent.
Proof.
  intros Hw Hk Hc Hp Hfresh Hpct Hllm.
  destruct db as [st wk next time faults]. simpl in Hw, Hk, Hp, Hfresh. subst wk.
  cbn [next_uuid clock stored].
  set (checkpoint := Checkpoint.mk _ _ _ _ _ _ _ _ _ _).
  set (child := Session.mk _ _ _ _ _ _ _).
  set (link := SessionLineage.mk _ _ _ _ _ _ _).
  set (st1 := mkDb (sessions st) (memories st)
                   (<[next := checkpoint]> (checkpoints st)) (session_lineage st)).
  set (st2 := mkDb (<[Pos.succ next := child]> (sessions st1)) (memories st1)
                   (checkpoints st1) (session_lineage st1)).
  apply (commits_go_through_next 2 st st st1 st1 next (Pos.succ next) time time)
    in Hc as [Hc1 Hc].
  apply (commits_go_through_next 1 _ _ st2 st2 _ (Pos.succ (Pos.succ next)) _ time)
    in Hc as [Hc2 Hc].
  unfold commits_go_through in Hc. cbn [commit_faults] in Hc.
  assert (Hc3 : head (tail (tail faults)) <> Some true).
  { specialize (Hc 0%nat ltac:(lia)). by destruct (tail (tail faults)). }
  clear Hc.
  unfold execute_spawn, await at 1, get_Session. cbn [working]. rewrite Hp.
  unfold await at 1.
  rewrite (create_checkpoint_goes percent_int st next time faults
             parent_session_id _ _ parent percent Hc1 Hp Hpct).
  fold checkpoint. fold st1.
  unfold await at 1, _generate_handoff_prompt, await at 1, lift.
  rewrite Hpct, Hllm.
  unfold await at 1.
  rewrite (create_session_goes st1 (Pos.succ next) time (tail faults) _ _ Hc2).
  fold child. fold st2.
  unfold await at 1, uuid4. cbn [next_uuid stored working clock commit_faults].
  unfold await at 1, utcnow. cbn [next_uuid stored working clock commit_faults].
  unfold await at 1, add_SessionLineage, with_working.
  cbn [next_uuid stored working clock commit_faults Session.id child
       Checkpoint.id checkpoint].
  fold link.
  unfold await at 1, assign_Session.
  destruct (decide (parent = Session.set_status parent COMPLETED)) as [Hsame|Hdiff].
  - unfold ret at 1. unfold await at 1. rewrite commit_run by exact Hc3.
    unfold ret. cbn [next_uuid stored working clock commit_faults].
    eexists _, parent. split; [reflexivity|].
    cbn [stored working sessions memories checkpoints session_lineage st2 st1].
    repeat (split; [reflexivity|]).
    split.
    { symmetry. apply insert_id. rewrite lookup_insert_ne; [exact Hp|].
      exact (fresh_key_differs _ _ _ _ Hp Hfresh). }
    split; [by rewrite Hsame|]. split; [exact (Hk _ _ Hp)|]. done.
  - unfold await at 1, utcnow, add_Session, with_working.
    cbn [next_uuid stored working clock commit_faults].
    unfold await at 1. rewrite commit_run by exact Hc3.
    unfold ret. cbn [next_uuid stored working clock commit_faults].
    eexists _, _. split; [reflexivity|].
    cbn [stored working sessions memories checkpoints session_lineage st2 st1].
    repeat (split; [reflexivity|]).
    split.
    { f_equal. destruct parent; simpl. exact (Hk _ _ Hp). }
    destruct parent; simpl. repeat split. exact (Hk _ _ Hp).
Qed.

Lemma filter_none {B : Type} (P : B -> Prop) `{!forall x, Decision (P x)}
    (l : list B) :
  Forall (fun x => ~ P x) l -> filter P l = [].
Proof.
  induction 1 as [|x l Hx Hl IH]; [reflexivity|].
  rewrite filter_cons. destruct (decide (P x)); [done|exact IH].
Qed.

Lemma lineage_rows_without (lin : gmap UUID SessionLineage.t) (c : UUID) :
  (forall k l, lin !! k = Some l -> SessionLineage.child_session_id l <> c) ->
  Forall (fun l => ~ SessionLineage.child_session_id l = c)
         (map snd (map_to_list lin)).
Proof.
  intros H. apply Forall_forall. intros l Hl.
  apply list_elem_of_fmap in Hl as [[k x] [-> Hl]].
  apply elem_of_map_to_list in Hl. exact (H _ _ Hl).
Qed.

(** The one link a fresh child has is the one the spawn wrote *)
Lemma links_to_new_child (d : Db) (lid c : UUID) (link : SessionLineage.t)
    (lin : gmap UUID SessionLineage.t) :
  session_lineage d = <[lid := link]> lin ->
  lin !! lid = None ->
  (forall k l, lin !! k = Some l -> SessionLineage.child_session_id l <> c) ->
  SessionLineage.child_session_id link = c ->
  LineageService.links_to d c = [link].
Proof.
  intros Hd Hfresh Hnone Hc. unfold LineageService.links_to. rewrite Hd.
  apply Permutation_singleton_r.
  rewrite (map_to_list_insert _ _ _ Hfresh). cbn [map snd].
  rewrite filter_cons_True by exact Hc.
  by rewrite (filter_none _ _ (lineage_rows_without lin c Hnone)).
Qed.

(** One turn of the loop *)
Lemma walk_up_step (turns : nat) (db : AsyncSession) (id : UUID)
    (history : list LineageService.Entry) :
  LineageService.walk_up percent_int (S turns) db (Some id) history
  = match sessions (working db) !! id with
    | None => LineageService.Lineage (rev history)
    | Some session =>
        match LineageService.entry_of percent_int session with
        | Raise e => LineageService.Raised e
        | Ok entry =>
            match LineageService.links_to (stored db) id with
            | [] => LineageService.walk_up percent_int turns db None
                      (history ++ [entry])
            | [parent_link] =>
                LineageService.walk_up percent_int turns db
                  (SessionLineage.parent_session_id parent_link)
                  (history ++ [entry])
            | _ => LineageService.MultipleResultsFound
            end
        end
    end.
Proof. reflexivity. Qed.

(** History gathered so far ends up behind what the rest of the walk finds *)
Lemma walk_up_history (turns : nat) (db : AsyncSession) (current : option UUID)
    (history : list LineageService.Entry) :
  LineageService.walk_up percent_int turns db current history
  = match LineageService.walk_up percent_int turns db current [] with
    | LineageService.Lineage found => LineageService.Lineage (found ++ rev history)
    | other => other
    end.
Proof.
  revert current history. induction turns as [|turns IH]; intros current history.
  - destruct current; reflexivity.
  - destruct current as [id|]; [|reflexivity]. simpl.
    destruct (sessions (working db) !! id) as [session|]; [|reflexivity].
    destruct (LineageService.entry_of percent_int session) as [entry|e];
      [|reflexivity].
    destruct (LineageService.links_to (stored db) id) as [|link [|? ?]];
      [| |reflexivity].
    + rewrite (IH None (history ++ [entry])), (IH None [entry]).
      destruct (LineageService.walk_up percent_int turns db None []);
        try reflexivity.
      rewrite rev_app_distr. simpl. by rewrite <- app_assoc.
    + rewrite (IH _ (history ++ [entry])), (IH _ ([] ++ [entry])).
      destruct (LineageService.walk_up percent_int turns db _ []);
        try reflexivity.
      rewrite rev_app_distr. simpl. by rewrite <- app_assoc.
Qed.

(** X8: a spawn whose three commits go through returns the ids it made and
    stores the whole hand-over: the parent completed with its counts kept, an
    active child with no tokens and the parent's limit (200000 for a limit of
    0), a lineage row from parent to child naming the checkpoint, and a
    checkpoint of the parent as it was before; other sessions and the
    memories are untouched. *)
Theorem execute_spawn_hands_over (db : AsyncSession) (parent_session_id : UUID)
    (handoff_reason : string) (task_description : option string)
    (parent : Session.t) (percent : Z) (prompt : string) :
  working db = stored db ->
  SessionService.keyed (stored db) ->
  commits_go_through 3 db ->
  sessions (stored db) !! parent_session_id = Some parent ->
  sessions (stored db) !! Pos.succ (next_uuid db) = None ->
  Session.context_usage_percent percent_int parent = Ok percent ->
  llm_complete (Session.task_description parent) handoff_reason percent = Ok prompt ->
  exists (r : SpawnResult) (db' : AsyncSession)
         (parent' child : Session.t) (link : SessionLineage.t)
         (checkpoint : Checkpoint.t),
    execute_spawn percent_int llm_complete parent_session_id handoff_reason
                  task_description db = (Ok r, db')
    /\ handoff_prompt r = prompt
    /\ sessions (stored db') !! parent_session_id = Some parent'
    /\ Session.status parent' = COMPLETED
    /\ Session.current_tokens parent' = Session.current_tokens parent
    /\ Session.max_tokens parent' = Session.max_tokens parent
    /\ sessions (stored db') !! child_session_id r = Some child
    /\ child_session_id r <> parent_session_id
    /\ Session.status child = ACTIVE
    /\ Session.current_tokens child = 0
    /\ Session.max_tokens child
       = (if (Session.max_tokens parent =? 0)%Z then 200000
          else Session.max_tokens parent)
    /\ Session.task_description child = or_str task_description prompt
    /\ session_lineage (stored db') !! Pos.succ (Pos.succ (next_uuid db)) = Some link
    /\ SessionLineage.parent_session_id link = Some parent_session_id
    /\ SessionLineage.child_session_id link = child_session_id r
    /\ SessionLineage.handoff_reason link = handoff_reason
    /\ SessionLineage.handoff_prompt link = prompt
    /\ SessionLineage.checkpoint_id link = checkpoint_id r
    /\ (exists cid, checkpoint_id r = Some cid
                    /\ checkpoints (stored db') !! cid = Some checkpoint)
    /\ Checkpoint.session_id checkpoint = parent_session_id
    /\ Checkpoint.state_status checkpoint = SessionStatus_value (Session.status parent)
    /\ Checkpoint.state_current_tokens checkpoint = Session.current_tokens parent
    /\ memories (stored db') = memories (stored db)
    /\ forall k, k <> parent_session_id -> k <> child_session_id r ->
         sessions (stored db') !! k = sessions (stored db) !! k.
Proof.
  intros Hw Hk Hc Hp Hfresh Hpct Hllm.
  destruct (execute_spawn_goes db parent_session_id handoff_reason
              task_description parent percent prompt Hw Hk Hc Hp Hfresh Hpct Hllm)
    as (db' & parent' & Hrun & Hw' & Hmem & Hcp & Hlin & Hses & Hst & Hid & Htask
        & Htok & Hmax & Hcreated).
  pose proof (fresh_key_differs _ _ _ _ Hp Hfresh) as Hne.
  eexists _, db', parent', _, _, _. split; [exact Hrun|].
  cbn [handoff_prompt child_session_id checkpoint_id].
  rewrite Hses, Hlin, Hcp.
  split; [reflexivity|]. split; [apply lookup_insert_eq|].
  do 3 (split; [assumption|]).
  split; [rewrite lookup_insert_ne by (intros E; by apply Hne);
          apply lookup_insert_eq|].
  split; [exact Hne|]. do 4 (split; [reflexivity|]).
  split; [apply lookup_insert_eq|]. do 5 (split; [reflexivity|]).
  split; [eexists; split; [reflexivity|apply lookup_insert_eq]|].
  do 3 (split; [reflexivity|]). split; [exact Hmem|].
  intros k Hk1 Hk2. by rewrite !lookup_insert_ne.
Qed.

(** What [entry_of] makes of a session; it always returns *)
Lemma entry_of_returns (session : Session.t) :
  exists percent : Z,
    LineageService.entry_of percent_int session
    = Ok {| LineageService.session_id := Session.id session;
            LineageService.task :=
              String.substring 0 100 (Session.task_description session);
            LineageService.status := SessionStatus_value (Session.status session);
            LineageService.tokens_used := Session.current_tokens session;
            LineageService.context_usage := percent;
            LineageService.created_at := Session.created_at session |}.
Proof.
  destruct (context_usage_percent_returns percent_int session) as [percent Hpct].
  exists percent. unfold LineageService.entry_of. by rewrite Hpct.
Qed.

(** A chain that ends within [n] turns is walked to its end by any walk of
    at least [n] turns, and a session the walk starts at is the last of what
    it finds *)
Lemma walk_up_ends (db : AsyncSession) (current : option UUID) (n : nat) :
  LineageShape.ends_within db current n ->
  exists found : list LineageService.Entry,
    (forall (turns : nat) (history : list LineageService.Entry),
       (n <= turns)%nat ->
       LineageService.walk_up percent_int turns db current history
       = LineageService.Lineage (found ++ rev history))
    /\ (forall (id : UUID) (session : Session.t),
          current = Some id ->
          sessions (working db) !! id = Some session ->
          exists (ancestors : list LineageService.Entry)
                 (entry : LineageService.Entry),
            LineageService.entry_of percent_int session = Ok entry
            /\ found = ancestors ++ [entry]).
Proof.
  induction 1 as [|id Hnone|id session Hs Hl|id session link n Hs Hl Hrest IH].
  - exists []. split; [|discriminate].
    intros turns history _. by destruct turns.
  - exists []. split.
    + intros [|turns] history Hn; [lia|]. by rewrite walk_up_step, Hnone.
    + intros id' session' [= <-] Hs.
      assert (E : None = Some session')
        by (etransitivity; [symmetry; exact Hnone | exact Hs]).
      discriminate.
  - destruct (entry_of_returns session) as [percent He].
    eexists [_]. split.
    + intros [|turns] history Hn; [lia|].
      rewrite walk_up_step, Hs, He, Hl.
      destruct turns; cbn [LineageService.walk_up];
        rewrite rev_app_distr; reflexivity.
    + intros id' session' [= <-] Hs'.
      assert (E : Some session = Some session')
        by (etransitivity; [symmetry; exact Hs | exact Hs']).
      injection E as <-. eexists [], _. split; [exact He|reflexivity].
  - destruct IH as (found & Hwalk & _).
    destruct (entry_of_returns session) as [percent He].
    eexists (found ++ [_]). split.
    + intros [|turns] history Hn; [lia|].
      rewrite walk_up_step, Hs, He, Hl.
      rewrite (Hwalk turns (history ++ [_])) by lia.
      rewrite rev_app_distr. cbn [rev app]. by rewrite <- app_assoc.
    + intros id' session' [= <-] Hs'.
      assert (E : Some session = Some session')
        by (etransitivity; [symmetry; exact Hs | exact Hs']).
      injection E as <-. eexists found, _. split; [exact He|reflexivity].
Qed.

(** A new lineage row leaves the links to every other session as they were *)
Lemma links_to_after_insert (d' : Db) (lid id : UUID) (link : SessionLineage.t)
    (lin : gmap UUID SessionLineage.t) :
  session_lineage d' = <[lid := link]> lin ->
  lin !! lid = None ->
  SessionLineage.child_session_id link <> id ->
  LineageService.links_to d' id
  ≡ₚ filter (fun l => SessionLineage.child_session_id l = id)
            (map snd (map_to_list lin)).
Proof.
  intros Hd Hfresh Hne. unfold LineageService.links_to. rewrite Hd.
  rewrite (map_to_list_insert _ _ _ Hfresh). cbn [map snd].
  by rewrite filter_cons_False.
Qed.

(** A chain of parents that ended before the spawn ends as soon after it,
    unless it starts at the new child *)
Lemma ends_within_after_spawn (db db' : AsyncSession) (pid new_id lid : UUID)
    (parent parent' child : Session.t) (link : SessionLineage.t) :
  sessions (working db) !! pid = Some parent ->
  sessions (working db')
  = <[pid := parent']> (<[new_id := child]> (sessions (working db))) ->
  session_lineage (stored db') = <[lid := link]> (session_lineage (stored db)) ->
  session_lineage (stored db) !! lid = None ->
  SessionLineage.child_session_id link = new_id ->
  LineageShape.unreferenced (stored db) new_id ->
  forall (current : option UUID) (n : nat),
    LineageShape.ends_within db current n ->
    current <> Some new_id ->
    LineageShape.ends_within db' current n.
Proof.
  intros Hp Hses Hlin Hlfresh Hchild Hun current n H.
  assert (Hkept : forall id session,
            sessions (working db) !! id = Some session -> id <> new_id ->
            exists session', sessions (working db') !! id = Some session').
  { intros id session Hs Hid. rewrite Hses.
    destruct (decide (pid = id)) as [->|Hpid].
    - rewrite lookup_insert_eq. by eexists.
    - rewrite lookup_insert_ne by exact Hpid.
      rewrite lookup_insert_ne by (intros E; by apply Hid).
      by exists session. }
  induction H as [|id Hnone|id session Hs Hl|id session l n Hs Hl Hrest IH];
    intros Hcur.
  - constructor.
  - apply LineageShape.ends_at_missing. rewrite Hses.
    rewrite lookup_insert_ne.
    + rewrite lookup_insert_ne; [exact Hnone|]. intros E. apply Hcur. by rewrite E.
    + intros E. rewrite E in Hp.
      assert (E' : None = Some parent)
        by (etransitivity; [symmetry; exact Hnone | exact Hp]).
      discriminate.
  - assert (Hid : id <> new_id) by (intros E; apply Hcur; by rewrite E).
    destruct (Hkept id session Hs Hid) as [session' Hs'].
    apply (LineageShape.ends_at_root db' id session' Hs').
    apply Permutation_nil_r.
    rewrite (links_to_after_insert _ _ _ _ _ Hlin Hlfresh)
      by (rewrite Hchild; intros E; by apply Hid).
    fold (LineageService.links_to (stored db) id). by rewrite Hl.
  - assert (Hid : id <> new_id) by (intros E; apply Hcur; by rewrite E).
    destruct (Hkept id session Hs Hid) as [session' Hs'].
    apply (LineageShape.ends_at_parent db' id session' l n Hs').
    + apply Permutation_singleton_r.
      rewrite (links_to_after_insert _ _ _ _ _ Hlin Hlfresh)
        by (rewrite Hchild; intros E; by apply Hid).
      fold (LineageService.links_to (stored db) id). by rewrite Hl.
    + apply IH.
      assert (Hin : l ∈ LineageService.links_to (stored db) id)
        by (rewrite Hl; left).
      apply list_elem_of_filter in Hin as [_ Hin].
      apply list_elem_of_fmap in Hin as [[k l'] [-> Hin]].
      apply elem_of_map_to_list in Hin.
      exact (proj2 (Hun _ _ Hin)).
Qed.

(** X9: take a parent whose chain of ancestors ends within [n] turns of the
    loop, and a new id that no lineage row refers to.  After the spawn the
    walk from the parent returns within [n] turns, the walk from the child
    within one turn more, and the child's lineage is the parent's lineage
    followed by the child's own entry; the parent's entry, the last of its
    own lineage, reads completed, and the child's reads active with no
    tokens. *)
Theorem spawned_child_extends_lineage (db : AsyncSession)
    (parent_session_id : UUID) (handoff_reason : string)
    (task_description : option string)
    (parent : Session.t) (percent : Z) (prompt : string) (n : nat) :
  working db = stored db ->
  SessionService.keyed (stored db) ->
  commits_go_through 3 db ->
  sessions (stored db) !! parent_session_id = Some parent ->
  sessions (stored db) !! Pos.succ (next_uuid db) = None ->
  session_lineage (stored db) !! Pos.succ (Pos.succ (next_uuid db)) = None ->
  LineageShape.unreferenced (stored db) (Pos.succ (next_uuid db)) ->
  LineageShape.ends_within db (Some parent_session_id) n ->
  Session.context_usage_percent percent_int parent = Ok percent ->
  llm_complete (Session.task_description parent) handoff_reason percent = Ok prompt ->
  exists (r : SpawnResult) (db' : AsyncSession)
         (ancestors : list LineageService.Entry)
         (parent_entry child_entry : LineageService.Entry),
    execute_spawn percent_int llm_complete parent_session_id handoff_reason
                  task_description db = (Ok r, db')
    /\ (forall turns : nat, (n <= turns)%nat ->
          LineageService.get_session_lineage percent_int turns parent_session_id db'
          = LineageService.Lineage (ancestors ++ [parent_entry]))
    /\ (forall turns : nat, (S n <= turns)%nat ->
          LineageService.get_session_lineage percent_int turns
            (child_session_id r) db'
          = LineageService.Lineage (ancestors ++ [parent_entry; child_entry]))
    /\ LineageService.session_id parent_entry = parent_session_id
    /\ LineageService.status parent_entry = "completed"
    /\ LineageService.tokens_used parent_entry = Session.current_tokens parent
    /\ LineageService.session_id child_entry = child_session_id r
    /\ LineageService.status child_entry = "active"
    /\ LineageService.tokens_used child_entry = 0
    /\ LineageService.task child_entry
       = String.substring 0 100 (or_str task_description prompt).
Proof.
  intros Hw Hk Hc Hp Hfresh Hlfresh Hun Hends Hpct Hllm.
  destruct (execute_spawn_goes db parent_session_id handoff_reason
              task_description parent percent prompt Hw Hk Hc Hp Hfresh Hpct Hllm)
    as (db' & parent' & Hrun & Hw' & Hmem & Hcp & Hlin & Hses & Hst & Hid & Htask
        & Htok & Hmax & Hcreated).
  pose proof (fresh_key_differs _ _ _ _ Hp Hfresh) as Hne.
  set (child := Session.mk (Pos.succ (next_uuid db)) _ _ _ _ _ _) in Hses.
  assert (Hchild : @lookup UUID _ _ _ (Pos.succ (next_uuid db))
                     (sessions (working db')) = Some child).
  { rewrite Hw', Hses. rewrite lookup_insert_ne by (intros E; by apply Hne).
    apply lookup_insert_eq. }
  assert (Hparent : sessions (working db') !! parent_session_id = Some parent').
  { rewrite Hw', Hses. apply lookup_insert_eq. }
  (* the parent's chain ends after the spawn as it did before *)
  assert (Hends' : LineageShape.ends_within db' (Some parent_session_id) n).
  { eapply (ends_within_after_spawn db db' parent_session_id
              (Pos.succ (next_uuid db)) (Pos.succ (Pos.succ (next_uuid db)))
              parent parent' child).
    - by rewrite Hw.
    - by rewrite Hw', Hw.
    - exact Hlin.
    - exact Hlfresh.
    - reflexivity.
    - exact Hun.
    - exact Hends.
    - intros [= E]. by apply Hne. }
  destruct (walk_up_ends db' _ n Hends') as (found & Hwalk & Hlast).
  destruct (Hlast _ _ eq_refl Hparent) as (ancestors & parent_entry & Hpe & ->).
  destruct (entry_of_returns parent') as [pp Hpp].
  rewrite Hpp in Hpe. injection Hpe as <-.
  destruct (entry_of_returns child) as [pc Hpc].
  pose proof (links_to_new_child (stored db') _ (Pos.succ (next_uuid db)) _ _
                Hlin Hlfresh (fun k l H => proj1 (Hun k l H)) eq_refl) as Hlinks.
  eexists _, db', ancestors, _, _. split; [exact Hrun|].
  cbn [child_session_id].
  unfold LineageService.get_session_lineage.
  split.
  { intros turns Hn. rewrite (Hwalk turns [] Hn). cbn [rev]. by rewrite app_nil_r. }
  split.
  { intros [|turns] Hn; [lia|].
    rewrite walk_up_step, Hchild, Hpc, Hlinks.
    cbn [SessionLineage.parent_session_id app].
    rewrite (Hwalk turns [_]) by lia. cbn [rev app].
    by rewrite <- app_assoc. }
  cbn [LineageService.session_id LineageService.status LineageService.tokens_used
       LineageService.task].
  rewrite Hst, Hid, Htok. repeat split.
Qed.

(** X10: when the language model cannot be reached, the spawn fails with the
    model's error after the checkpoint was committed: the checkpoint stays in
    the store, and no child, no lineage row and no change of the parent is
    made. *)
Theorem spawn_without_model_keeps_checkpoint (db : AsyncSession)
    (parent_session_id : UUID) (handoff_reason : string)
    (task_description : option string)
    (parent : Session.t) (percent : Z) (e : exn) :
  working db = stored db ->
  SessionService.commit_goes_through db ->
  sessions (stored db) !! parent_session_id = Some parent ->
  Session.context_usage_percent percent_int parent = Ok percent ->
  llm_complete (Session.task_description parent) handoff_reason percent = Raise e ->
  exists (db' : AsyncSession) (checkpoint : Checkpoint.t),
    execute_spawn percent_int llm_complete parent_session_id handoff_reason
                  task_description db = (Raise e, db')
    /\ working db' = stored db'
    /\ sessions (stored db') = sessions (stored db)
    /\ memories (stored db') = memories (stored db)
    /\ session_lineage (stored db') = session_lineage (stored db)
    /\ checkpoints (stored db')
       = <[next_uuid db := checkpoint]> (checkpoints (stored db))
    /\ Checkpoint.session_id checkpoint = parent_session_id
    /\ Checkpoint.label checkpoint
       = ("spawn-" ++ String.substring 0 20 handoff_reason)%string.
Proof.
  intros Hw Hc Hp Hpct Hllm.
  destruct db as [st wk next time faults]. simpl in Hw, Hp. subst wk.
  unfold SessionService.commit_goes_through in Hc. simpl in Hc.
  unfold execute_spawn, await at 1, get_Session. cbn [working]. rewrite Hp.
  unfold await at 1.
  rewrite (create_checkpoint_goes percent_int st next time faults
             parent_session_id _ _ parent percent Hc Hp Hpct).
  unfold await at 1, _generate_handoff_prompt, await at 1, lift.
  rewrite Hpct, Hllm.
  eexists _, _. split; [reflexivity|]. repeat split.
Qed.

End SpawnLineageFacts.

Lemma spawning_db_keyed : SessionService.keyed (stored spawning_db).
Proof.
  intros k s H. cbn in H. apply lookup_singleton_Some in H as [<- <-]. reflexivity.
Defined.

Lemma spawning_db_commits : Preconditions.commits_go_through 3 spawning_db.
Proof.
  intros i Hi. destruct i as [|[|[|i]]]; simpl; discriminate.
Defined.

Lemma execute_spawn_hands_over_witness :
  exists (r : SpawnResult) (db' : AsyncSession)
         (parent' child : Session.t) (link : SessionLineage.t)
         (checkpoint : Checkpoint.t),
    execute_spawn percent_exact canned_llm 1%positive "context_critical" None
                  spawning_db = (Ok r, db')
    /\ handoff_prompt r = "Continue refactoring the parser."
    /\ sessions (stored db') !! 1%positive = Some parent'
    /\ Session.status parent' = COMPLETED
    /\ Session.current_tokens parent' = Session.current_tokens drained_parent
    /\ Session.max_tokens parent' = Session.max_tokens drained_parent
    /\ sessions (stored db') !! child_session_id r = Some child
    /\ child_session_id r <> 1%positive
    /\ Session.status child = ACTIVE
    /\ Session.current_tokens child = 0
    /\ Session.max_tokens child
       = (if (Session.max_tokens drained_parent =? 0)%Z then 200000
          else Session.max_tokens drained_parent)
    /\ Session.task_description child
       = or_str None "Continue refactoring the parser."
    /\ session_lineage (stored db') !! Pos.succ (Pos.succ (next_uuid spawning_db))
       = Some link
    /\ SessionLineage.parent_session_id link = Some 1%positive
    /\ SessionLineage.child_session_id link = child_session_id r
    /\ SessionLineage.handoff_reason link = "context_critical"
    /\ SessionLineage.handoff_prompt link = "Continue refactoring the parser."
    /\ SessionLineage.checkpoint_id link = checkpoint_id r
    /\ (exists cid, checkpoint_id r = Some cid
                    /\ checkpoints (stored db') !! cid = Some checkpoint)
    /\ Checkpoint.session_id checkpoint = 1%positive
    /\ Checkpoint.state_status checkpoint
       = SessionStatus_value (Session.status drained_parent)
    /\ Checkpoint.state_current_tokens checkpoint
       = Session.current_tokens drained_parent
    /\ memories (stored db') = memories (stored spawning_db)
    /\ forall k, k <> 1%positive -> k <> child_session_id r ->
         sessions (stored db') !! k = sessions (stored spawning_db) !! k.
Proof.
  apply (execute_spawn_hands_over percent_exact canned_llm spawning_db 1%positive
           "context_critical" None drained_parent 95
           "Continue refactoring the parser.").
  - reflexivity.
  - exact spawning_db_keyed.
  - exact spawning_db_commits.
  - reflexivity.
  - reflexivity.
  - reflexivity.
  - reflexivity.
Defined.

Lemma family_db_keyed : SessionService.keyed (stored family_db).
Proof.
  intros k s H. unfold family_db, open_session in H. cbn [stored sessions] in H.
  apply lookup_insert_Some in H as [[<- <-]|[_ H]]; [reflexivity|].
  apply lookup_insert_Some in H as [[<- <-]|[_ H]]; [reflexivity|].
  apply lookup_singleton_Some in H as [<- <-]. reflexivity.
Defined.

Lemma family_db_commits : Preconditions.commits_go_through 3 family_db.
Proof.
  intros i Hi. destruct i as [|[|[|i]]]; simpl; discriminate.
Defined.

Lemma family_db_unreferenced :
  LineageShape.unreferenced (stored family_db) (Pos.succ (next_uuid family_db)).
Proof.
  intros k l H. unfold family_db, open_session in H.
  cbn [stored session_lineage] in H.
  apply lookup_insert_Some in H as [[_ <-]|[_ H]]; [split; discriminate|].
  apply lookup_singleton_Some in H as [_ <-]. split; discriminate.
Defined.

(** The parent of the family has one ancestor, who has none *)
Lemma family_db_ends : LineageShape.ends_within family_db (Some 1%positive) 2.
Proof.
  apply (LineageShape.ends_at_parent family_db 1%positive drained_parent
           link_to_parent 1); [reflexivity|reflexivity|].
  apply (LineageShape.ends_at_root family_db 2%positive grandparent);
    reflexivity.
Defined.

Lemma spawned_child_extends_lineage_witness :
  exists (r : SpawnResult) (db' : AsyncSession)
         (ancestors : list LineageService.Entry)
         (parent_entry child_entry : LineageService.Entry),
    execute_spawn percent_exact canned_llm 1%positive "context_critical" None
                  family_db = (Ok r, db')
    /\ (forall turns : nat, (2 <= turns)%nat ->
          LineageService.get_session_lineage percent_exact turns 1%positive db'
          = LineageService.Lineage (ancestors ++ [parent_entry]))
    /\ (forall turns : nat, (3 <= turns)%nat ->
          LineageService.get_session_lineage percent_exact turns
            (child_session_id r) db'
          = LineageService.Lineage (ancestors ++ [parent_entry; child_entry]))
    /\ LineageService.session_id parent_entry = 1%positive
    /\ LineageService.status parent_entry = "completed"
    /\ LineageService.tokens_used parent_entry
       = Session.current_tokens drained_parent
    /\ LineageService.session_id child_entry = child_session_id r
    /\ LineageService.status child_entry = "active"
    /\ LineageService.tokens_used child_entry = 0
    /\ LineageService.task child_entry
       = String.substring 0 100 (or_str None "Continue refactoring the parser.").
Proof.
  apply (spawned_child_extends_lineage percent_exact canned_llm family_db
           1%positive "context_critical" None drained_parent 95
           "Continue refactoring the parser." 2).
  - reflexivity.
  - exact family_db_keyed.
  - exact family_db_commits.
  - reflexivity.
  - reflexivity.
  - reflexivity.
  - exact family_db_unreferenced.
  - exact family_db_ends.
  - reflexivity.
  - reflexivity.
Defined.

(** In the family, the lineage of the new child has three entries: the
    grandparent, the parent, now completed, and the child *)
Example family_lineage_after_spawn :
  let db' := snd (execute_spawn percent_exact canned_llm 1%positive
                                "context_critical" None family_db) in
  map (fun e => (LineageService.session_id e, LineageService.status e))
      (match LineageService.get_session_lineage percent_exact 3 21%positive db' with
       | LineageService.Lineage history => history
       | _ => []
       end)
  = [(2%positive, "completed"); (1%positive, "completed"); (21%positive, "active")].
Proof. vm_compute. reflexivity. Qed.

Lemma spawn_without_model_keeps_checkpoint_witness :
  exists (db' : AsyncSession) (checkpoint : Checkpoint.t),
    execute_spawn percent_exact unreachable_llm 1%positive "context_critical" None
                  spawning_db = (Raise OSError, db')
    /\ working db' = stored db'
    /\ sessions (stored db') = sessions (stored spawning_db)
    /\ memories (stored db') = memories (stored spawning_db)
    /\ session_lineage (stored db') = session_lineage (stored spawning_db)
    /\ checkpoints (stored db')
       = <[next_uuid spawning_db := checkpoint]> (checkpoints (stored spawning_db))
    /\ Checkpoint.session_id checkpoint = 1%positive
    /\ Checkpoint.label checkpoint
       = ("spawn-" ++ String.substring 0 20 "context_critical")%string.
Proof.
  apply (spawn_without_model_keeps_checkpoint percent_exact unreachable_llm
           spawning_db 1%positive "context_critical" None drained_parent 95 OSError).
  - reflexivity.
  - vm_compute. discriminate.
  - reflexivity.
  - reflexivity.
  - reflexivity.
Defined.


(** ** Folding and compression *)

Section StripFacts.

Import Compression.

Lemma rstrip_empty (s : string) : rstrip s = "" <-> all_space s = true.
Proof.
  induction s as [|c r IH]; simpl; [done|].
  destruct (rstrip r) eqn:E.
  - destruct (isspace c); simpl; [|split; discriminate].
    split; intros _; [by apply IH|reflexivity].
  - split; [discriminate|]. intros H. apply andb_true_iff in H as [_ H].
    apply IH in H. discriminate.
Qed.

Lemma lstrip_all_space (s : string) : all_space (lstrip s) = all_space s.
Proof.
  induction s as [|c r IH]; simpl; [done|].
  destruct (isspace c) eqn:E; simpl; [exact IH|by rewrite E].
Qed.

Lemma strip_empty (s : string) : strip s = "" <-> all_space s = true.
Proof. unfold strip. by rewrite rstrip_empty, lstrip_all_space. Qed.

Lemma rstrip_rstrip (s : string) : rstrip (rstrip s) = rstrip s.
Proof.
  induction s as [|c r IH]; simpl; [done|].
  destruct (rstrip r) as [|d r'] eqn:E.
  - destruct (isspace c) eqn:Ec; simpl; [done|by rewrite Ec].
  - simpl in IH |- *. simpl. change (rstrip (String c (String d r'))
      = String c (String d r')).
    cbn [rstrip]. fold (rstrip (String d r')). by rewrite IH.
Qed.

Lemma lstrip_lstrip (s : string) : lstrip (lstrip s) = lstrip s.
Proof.
  induction s as [|c r IH]; simpl; [done|].
  destruct (isspace c) eqn:E; simpl; [exact IH|by rewrite E].
Qed.

Lemma lstrip_rstrip (s : string) : lstrip s = s -> lstrip (rstrip s) = rstrip s.
Proof.
  destruct s as [|c r]; [done|]. simpl.
  destruct (isspace c) eqn:E.
  - intros H. exfalso.
    assert (Hlen : (String.length (lstrip r) <= String.length r)%nat).
    { clear. induction r as [|d r IH]; simpl; [lia|].
      destruct (isspace d); simpl; lia. }
    rewrite H in Hlen. simpl in Hlen. lia.
  - intros _. destruct (rstrip r); simpl; by rewrite E.
Qed.

Lemma strip_strip (s : string) : strip (strip s) = strip s.
Proof.
  unfold strip.
  rewrite (lstrip_rstrip (lstrip s)) by apply lstrip_lstrip.
  apply rstrip_rstrip.
Qed.

Lemma startswith_2 (a b : ascii) (line : string) :
  startswith (String a (String b "")) line = true ->
  line = String a (String b (slice_from 2 line)).
Proof.
  destruct line as [|x [|y rest]]; simpl; try discriminate.
  - destruct (Ascii.eqb a x); discriminate.
  - destruct (Ascii.eqb a x) eqn:Ea; [|discriminate].
    destruct (Ascii.eqb b y) eqn:Eb; [|discriminate].
    apply Ascii.eqb_eq in Ea, Eb. by subst.
Qed.

(** What follows a bullet on a stripped line is not blank *)
Lemma after_bullet (a : ascii) (line : string) :
  rstrip line = line ->
  startswith (String a " ") line = true ->
  all_space (slice_from 2 line) = false.
Proof.
  intros Hr Hs. apply startswith_2 in Hs.
  destruct (all_space (slice_from 2 line)) eqn:E; [|reflexivity].
  exfalso. rewrite Hs in Hr. set (rest := slice_from 2 line) in *.
  assert (Hsp : rstrip (String " " rest) = "").
  { apply rstrip_empty. simpl. exact E. }
  change (rstrip (String a (String " " rest))) with
    (match rstrip (String " " rest) with
     | EmptyString => if isspace a then EmptyString else String a EmptyString
     | r => String a r
     end) in Hr.
  rewrite Hsp in Hr. destruct (isspace a); discriminate.
Qed.

Variable _extract_section : string -> string -> string.

Lemma list_item_stripped (line item : string) :
  list_item line = Some item -> item <> "" /\ strip item = item.
Proof.
  unfold list_item.
  assert (Hr : rstrip (strip line) = strip line) by apply rstrip_rstrip.
  destruct (startswith "- " (strip line)) eqn:E1.
  { intros [= <-]. split; [|apply strip_strip].
    intros H. apply strip_empty in H.
    exact (eq_true_false_abs _ H (after_bullet "-" _ Hr E1)). }
  destruct (startswith "* " (strip line)) eqn:E2.
  { intros [= <-]. split; [|apply strip_strip].
    intros H. apply strip_empty in H.
    exact (eq_true_false_abs _ H (after_bullet "*" _ Hr E2)). }
  destruct (nonempty (strip line)) eqn:E3; cbn [andb negb];
    [|intros ?; discriminate].
  destruct (startswith "#" (strip line)); cbn [andb negb];
    [intros ?; discriminate|].
  intros [= <-]. split; [|apply strip_strip].
  intros H. rewrite H in E3. discriminate.
Qed.

(** X11: every item [_extract_list_section] returns is non-empty and carries
    no white space at either end, whatever the section's text. *)
Theorem extract_list_section_items_stripped (text section_name item : string) :
  item ∈ _extract_list_section _extract_section text section_name ->
  item <> "" /\ strip item = item.
Proof.
  unfold _extract_list_section.
  destruct (negb (nonempty (_extract_section text section_name))).
  - intros H. by apply elem_of_nil in H.
  - intros H. apply list_elem_of_omap in H as (line & _ & H).
    by apply list_item_stripped in H.
Qed.

End StripFacts.


Section FoldExecutionFacts.

Import Preconditions Compression FoldExecution.

Variable percent_int : Q -> Z.
Variable estimate_tokens : string -> Z.
Variable COMPRESSION_SYSTEM_PROMPT : string.
Variable llm_complete : string -> string -> Z -> result string.
Variable _extract_section : string -> string -> string.

(** X12: a fold whose two commits go through stores, as the session's token
    count, the estimated size of the model's reply, whatever the count was
    before; it reports the old count, the new one, and as tokens freed the
    difference of the two estimates (trajectory and reply); the checkpoint it
    leaves records the count before the fold; status, limit, memories and
    other sessions are untouched. *)
Theorem execute_fold_stores_estimate (db : AsyncSession) (session_id : UUID)
    (trajectory label reply : string) (session : Session.t) :
  let target := int_of (inject_Z (estimate_tokens trajectory) * 0.25)%Q in
  working db = stored db ->
  SessionService.keyed (stored db) ->
  commits_go_through 2 db ->
  sessions (stored db) !! session_id = Some session ->
  llm_complete (compression_prompt target trajectory) COMPRESSION_SYSTEM_PROMPT
               (target + 500) = Ok reply ->
  exists (r : FoldResult) (db' : AsyncSession) (session' : Session.t)
         (checkpoint : Checkpoint.t),
    execute_fold percent_int
      (compress estimate_tokens COMPRESSION_SYSTEM_PROMPT llm_complete
                _extract_section)
      session_id trajectory label db = (Ok r, db')
    /\ tokens_before r = Session.current_tokens session
    /\ tokens_after r = estimate_tokens reply
    /\ tokens_freed r = estimate_tokens trajectory - estimate_tokens reply
    /\ sessions (stored db') !! session_id = Some session'
    /\ Session.current_tokens session' = estimate_tokens reply
    /\ Session.status session' = Session.status session
    /\ Session.max_tokens session' = Session.max_tokens session
    /\ checkpoint_id r = next_uuid db
    /\ checkpoints (stored db') !! next_uuid db = Some checkpoint
    /\ Checkpoint.label checkpoint = label
    /\ Checkpoint.state_current_tokens checkpoint = Session.current_tokens session
    /\ memories (stored db') = memories (stored db)
    /\ session_lineage (stored db') = session_lineage (stored db)
    /\ forall k, k <> session_id ->
         sessions (stored db') !! k = sessions (stored db) !! k.
Proof.
  intros target Hw Hk Hc Hs Hllm.
  destruct db as [st wk next time faults]. simpl in Hw, Hk, Hs. subst wk.
  destruct (context_usage_percent_returns percent_int session) as [percent Hpct].
  set (checkpoint :=
    Checkpoint.mk next session_id label (Session.task_description session)
      (Session.current_tokens session) (Session.max_tokens session)
      (SessionStatus_value (Session.status session)) percent
      (map Memory.id
         (filter (fun m => Memory.session_id m = session_id)
                 (map snd (map_to_list (memories st))))) time).
  set (st1 := mkDb (sessions st) (memories st)
                   (<[next := checkpoint]> (checkpoints st)) (session_lineage st)).
  apply (commits_go_through_next 1 st st st1 st1 next (Pos.succ next) time time)
    in Hc as [Hc1 Hc].
  assert (Hc2 : head (tail faults) <> Some true).
  { specialize (Hc 0%nat ltac:(lia)). cbn [commit_faults] in Hc.
    by destruct (tail faults). }
  clear Hc.
  unfold execute_fold, await at 1, get_Session. cbn [working]. rewrite Hs.
  unfold await at 1, lift, compress. fold target. rewrite Hllm. cbn [bind].
  cbn [summary compressed_tokens tokens_saved compression_ratio].
  unfold await at 1.
  rewrite (create_checkpoint_goes percent_int st next time faults
             session_id _ _ session percent Hc1 Hs Hpct).
  fold checkpoint. fold st1.
  unfold await at 1, assign_Session.
  destruct (decide (session = Session.set_current_tokens session
                                (estimate_tokens reply))) as [Hsame|Hdiff].
  - unfold ret at 1. unfold await at 1. rewrite commit_run by exact Hc2.
    unfold ret. cbn [next_uuid stored working clock commit_faults].
    eexists _, _, session, checkpoint. split; [reflexivity|].
    cbn [tokens_before tokens_after tokens_freed checkpoint_id Checkpoint.id
         checkpoint stored sessions memories checkpoints session_lineage st1
         Checkpoint.label Checkpoint.state_current_tokens].
    do 3 (split; [reflexivity|]). split; [exact Hs|].
    split; [by rewrite Hsame at 1|]. do 3 (split; [reflexivity|]).
    split; [apply lookup_insert_eq|]. repeat split.
  - unfold await at 1, utcnow, add_Session, with_working.
    cbn [next_uuid stored working clock commit_faults].
    unfold await at 1. rewrite commit_run by exact Hc2.
    unfold ret. cbn [next_uuid stored working clock commit_faults].
    eexists _, _, _, checkpoint. split; [reflexivity|].
    cbn [tokens_before tokens_after tokens_freed checkpoint_id Checkpoint.id
         checkpoint stored sessions memories checkpoints session_lineage st1
         Checkpoint.label Checkpoint.state_current_tokens].
    do 3 (split; [reflexivity|]).
    split.
    { replace (Session.id (Session.set_updated_at
                 (Session.set_current_tokens session (estimate_tokens reply)) time))
        with session_id by (destruct session; simpl; symmetry; exact (Hk _ _ Hs)).
      apply lookup_insert_eq. }
    split; [by destruct session|]. split; [by destruct session|].
    split; [by destruct session|]. split; [reflexivity|].
    split; [apply lookup_insert_eq|]. do 4 (split; [reflexivity|]).
    intros k Hne. rewrite lookup_insert_ne; [reflexivity|].
    pose proof (Hk _ _ Hs) as E. destruct session; simpl in *. congruence.
Qed.

End FoldExecutionFacts.

Lemma fold_db_keyed : SessionService.keyed (stored fold_db).
Proof.
  intros k s H. cbn in H. apply lookup_singleton_Some in H as [<- <-]. reflexivity.
Defined.

Lemma fold_db_commits : Preconditions.commits_go_through 2 fold_db.
Proof.
  intros i Hi. destruct i as [|[|i]]; simpl; discriminate.
Defined.


Lemma execute_fold_stores_estimate_witness :
  let trajectory := "edit parser.py; run the tests; fix the lexer" in
  let reply := ("SUMMARY:" ++ Compression.LF ++ "Parser refactored.")%string in
  exists (r : FoldExecution.FoldResult) (db' : AsyncSession) (session' : Session.t)
         (checkpoint : Checkpoint.t),
    FoldExecution.execute_fold percent_exact
      (Compression.compress four_chars_a_token "" canned_compression no_section)
      1%positive trajectory "auto-fold" fold_db = (Ok r, db')
    /\ FoldExecution.tokens_before r = Session.current_tokens drained_parent
    /\ FoldExecution.tokens_after r = four_chars_a_token reply
    /\ FoldExecution.tokens_freed r
       = four_chars_a_token trajectory - four_chars_a_token reply
    /\ sessions (stored db') !! 1%positive = Some session'
    /\ Session.current_tokens session' = four_chars_a_token reply
    /\ Session.status session' = Session.status drained_parent
    /\ Session.max_tokens session' = Session.max_tokens drained_parent
    /\ FoldExecution.checkpoint_id r = next_uuid fold_db
    /\ checkpoints (stored db') !! next_uuid fold_db = Some checkpoint
    /\ Checkpoint.label checkpoint = "auto-fold"
    /\ Checkpoint.state_current_tokens checkpoint
       = Session.current_tokens drained_parent
    /\ memories (stored db') = memories (stored fold_db)
    /\ session_lineage (stored db') = session_lineage (stored fold_db)
    /\ forall k, k <> 1%positive ->
         sessions (stored db') !! k = sessions (stored fold_db) !! k.
Proof.
  intros trajectory reply.
  apply (execute_fold_stores_estimate percent_exact four_chars_a_token ""
           canned_compression no_section fold_db 1%positive trajectory
           "auto-fold" reply drained_parent).
  - reflexivity.
  - exact fold_db_keyed.
  - exact fold_db_commits.
  - reflexivity.
  - reflexivity.
Defined.


(** ** The watcher's cache and snapshots *)

Section WatcherCacheFacts.

Import WatcherInvariants.

Variable json_loads : string -> result json.
Variable round_percent : Q -> Z.

Lemma sum_perm (l l' : list Z) : l ≡ₚ l' -> foldr Z.add 0 l = foldr Z.add 0 l'.
Proof. induction 1; simpl; lia. Qed.

Lemma sum_at_most (bound : Z) (l : list Z) :
  Forall (fun x => x <= bound) l -> foldr Z.add 0 l <= bound * Z.of_nat (length l).
Proof. induction 1; simpl length; simpl foldr; lia. Qed.

(** X13: a status snapshot lists one row per cached project, the rows with
    more tokens first; [projectCount] is the size of the cache and
    [totalTokens] the sum of the cached counts. *)
Theorem get_status_summary (self : State) :
  let st := get_status round_percent self in
  StronglySorted (fun a b => currentTokens b <= currentTokens a) (projects st)
  /\ projectCount st = Z.of_nat (size (cached_projects self))
  /\ totalTokens st
     = foldr Z.add 0 (map (fun kp => ProjectData.current_tokens (snd kp))
                          (map_to_list (cached_projects self)))
  /\ map (fun r => (transcriptPath r, currentTokens r)) (projects st)
     ≡ₚ map (fun kp => (ProjectData.transcript_path (snd kp),
                        ProjectData.current_tokens (snd kp)))
            (map_to_list (cached_projects self)).
Proof.
  unfold get_status. cbn [projects projectCount totalTokens].
  set (rows := map _ (map snd (map_to_list (cached_projects self)))).
  split; [|split; [|split]].
  - pose proof (sorted_desc_sorted (fun x => inject_Z (currentTokens x)) rows) as H.
    induction H as [|a l Hl IH Ha]; constructor; [exact IH|].
    eapply Forall_impl; [exact Ha|]. intros b Hb. unfold key_ge in Hb.
    cbv beta. rewrite Zle_Qle. exact Hb.
  - rewrite (Permutation_length (sorted_desc_perm _ rows)). unfold rows.
    rewrite !length_map. by rewrite length_map_to_list.
  - rewrite (sum_perm _ _ (Permutation_map _ (sorted_desc_perm _ rows))).
    unfold rows. rewrite !map_map. reflexivity.
  - rewrite (Permutation_map _ (sorted_desc_perm _ rows)).
    unfold rows. rewrite !map_map. reflexivity.
Qed.

Lemma count_tokens_at_most (fs : FileSystem) (transcript_path : string)
    (real_tokens : option json) (tokens : Z) :
  count_tokens fs transcript_path real_tokens = Ok tokens ->
  tokens <= MAX_CONTEXT_TOKENS.
Proof.
  unfold count_tokens. destruct real_tokens as [v|].
  - destruct (as_int v); [|discriminate]. intros [= <-]. lia.
  - destruct (read_file fs transcript_path); [|discriminate]. intros [= <-]. lia.
Qed.

Lemma get_status_well_formed (self : State) :
  map_Forall entry_well_formed (cached_projects self) ->
  snapshot_well_formed (get_status round_percent self).
Proof.
  intros Hc. apply map_Forall_to_list in Hc.
  assert (Hrows : Forall (fun r => currentTokens r <= maxTokens r
                   /\ maxTokens r = MAX_CONTEXT_TOKENS
                   /\ contextUsage r
                      = min_Q 0.99 (inject_Z (currentTokens r)
                                    / inject_Z MAX_CONTEXT_TOKENS)%Q)
                  (projects (get_status round_percent self))).
  { unfold get_status. cbn [projects]. rewrite sorted_desc_perm.
    rewrite !Forall_map. eapply Forall_impl; [exact Hc|].
    intros [k p] (Htok & Hmax & Husage & _). simpl in *. rewrite Hmax.
    repeat split; assumption. }
  split; [exact Hrows|].
  unfold get_status in Hrows |- *. cbn [projects projectCount totalTokens] in *.
  match goal with
  | |- _ <= _ * Z.of_nat (length ?l) =>
      rewrite <- (length_map currentTokens l)
  end.
  apply sum_at_most. rewrite Forall_map.
  eapply Forall_impl; [exact Hrows|]. intros r (H1 & H2 & _). simpl. lia.
Qed.

Lemma with_db_well_formed {A : Type} (body : Task A) (self : State) :
  well_formed self -> well_formed (snd (with_db body self)).
Proof.
  unfold with_db. destruct (body _) as [r db]. simpl. done.
Qed.

Lemma update_project_tokens_well_formed (fs : FileSystem)
    (source_name project_name transcript_path : string) (self : State) :
  well_formed self ->
  well_formed (_update_project_tokens json_loads round_percent fs source_name
                 project_name transcript_path self).
Proof.
  intros Hb. unfold _update_project_tokens, swallow, update_project_tokens_body.
  unfold await at 1. unfold lift at 1.
  destruct (count_tokens _ _ _) as [tokens|e] eqn:Hcount; [|exact Hb].
  apply count_tokens_at_most in Hcount.
  unfold await at 1.
  pose proof (with_db_well_formed
    (store_tokens (source_name ++ ":" ++ project_name) tokens) self Hb) as Hdb.
  destruct (with_db _ self) as [[[]|e] w1]; simpl in Hdb; [|exact Hdb].
  unfold await at 1. unfold lift at 1. unfold truediv.
  destruct (MAX_CONTEXT_TOKENS =? 0)%Z; [exact Hdb|].
  unfold await at 1.
  destruct Hdb as [Hc Hs].
  assert (Hc' : map_Forall entry_well_formed
    (<[(source_name ++ ":" ++ project_name)%string :=
         ProjectData.mk project_name project_name tokens MAX_CONTEXT_TOKENS
           (min_Q 0.99 (inject_Z tokens / inject_Z MAX_CONTEXT_TOKENS)%Q)
           (now w1) transcript_path
           (is_not_None (get_last_assistant_usage json_loads fs transcript_path))
           source_name ""]> (cached_projects w1))).
  { apply map_Forall_insert_2; [|exact Hc]. repeat split. exact Hcount. }
  simpl. destruct (sse_manager w1); simpl.
  - split; [exact Hc'|]. apply Forall_app. split; [exact Hs|].
    constructor; [|constructor]. simpl. apply get_status_well_formed. exact Hc'.
  - split; [exact Hc'|exact Hs].
Qed.

Lemma handle_deleted_well_formed (path : string) (self : State) :
  well_formed self -> well_formed (snd (_handle_deleted_transcript path self)).
Proof.
  intros Hb. unfold _handle_deleted_transcript.
  destruct (_extract_project_info self path) as [[source_name|] [project_name|]];
    try exact Hb.
  destruct (nonempty source_name && nonempty project_name); [|exact Hb].
  unfold await.
  pose proof (with_db_well_formed
    (mark_inactive (source_name ++ ":" ++ project_name)) self Hb) as Hdb.
  destruct (with_db _ self) as [[[]|e] w1]; simpl in *; [|exact Hdb].
  destruct Hdb as [Hc Hs]. split; [|exact Hs].
  by apply map_Forall_delete.
Qed.

Lemma process_event_well_formed (fs : FileSystem) (event : FileChangeEvent)
    (self : State) :
  well_formed self ->
  well_formed (process_event json_loads round_percent fs event self).
Proof.
  intros Hb. unfold process_event, swallow, _handle_file_event.
  destruct (String.eqb (event_type event) "deleted").
  - by apply handle_deleted_well_formed.
  - destruct (split "/projects/" (path event)) as [|? [|? ?]]; try exact Hb.
    destruct (negb (_is_active_transcript fs (path event) (dirname (path event))));
      [exact Hb|].
    destruct (_extract_project_info self (path event))
      as [[source_name|] [project_name|]]; try exact Hb.
    destruct (nonempty source_name && nonempty project_name); [|exact Hb].
    simpl. by apply update_project_tokens_well_formed.
Qed.

Lemma foldl_well_formed {B : Type} (f : State -> B -> State) (l : list B) :
  (forall w b, well_formed w -> well_formed (f w b)) ->
  forall w, well_formed w -> well_formed (foldl f w l).
Proof.
  intros Hf. induction l as [|b l IH]; simpl; [done|].
  intros w Hw. apply IH. by apply Hf.
Qed.

Lemma initial_sync_well_formed (fs : FileSystem) (self : State) :
  well_formed self -> well_formed (_initial_sync json_loads round_percent fs self).
Proof.
  unfold _initial_sync. generalize (sources self) as srcs. intros srcs.
  revert self. apply foldl_well_formed. intros w source Hw. unfold sync_source.
  destruct (negb (path_exists fs _)); [exact Hw|].
  destruct (listdir fs _) as [dirs|]; [|exact Hw].
  revert w Hw. apply foldl_well_formed. intros w dir Hw. unfold sync_project.
  destruct (negb (isdir fs _)); [exact Hw|].
  destruct (sorted_desc _ _) as [|[active_path ?] ?]; [exact Hw|].
  by apply update_project_tokens_well_formed.
Qed.

(** X14: whatever the watcher has gone through, every cached project sits
    under its key source:project with at most 200000 tokens, a limit of
    200000 and the usage [min(0.99, tokens / 200000)]; so does every row of
    the snapshot [get_status] returns and of each snapshot broadcast, and a
    snapshot's total is at most 200000 per project. *)
Theorem watcher_counts_within_window (self : State) :
  reachable json_loads round_percent self ->
  map_Forall entry_well_formed (cached_projects self)
  /\ snapshot_well_formed (get_status round_percent self)
  /\ Forall (fun m => snapshot_well_formed (snd m)) (sent self).
Proof.
  intros H.
  assert (Hwf : well_formed self).
  { induction H as [| ? ? _ IH | ? ? _ IH | ? ? ? ? ? _ IH | ? ? _ IH | ? ? ? _ IH].
    - split; [apply map_Forall_empty|constructor].
    - exact IH.
    - exact IH.
    - exact IH.
    - by apply initial_sync_well_formed.
    - by apply process_event_well_formed. }
  destruct Hwf as [Hc Hs].
  split; [exact Hc|]. split; [by apply get_status_well_formed|exact Hs].
Qed.

(** X15: the listing of a project directory holds only files of that
    directory named *.jsonl that do not start with agent-, each with the
    modification time the file system reports. *)
Theorem project_transcripts_are_main_transcripts (fs : FileSystem)
    (project_dir path : string) (mtime : Q) :
  (path, mtime) ∈ _get_project_transcripts fs project_dir ->
  exists files file,
    listdir fs project_dir = Some files
    /\ file ∈ files
    /\ is_transcript_name file
    /\ path = path_join project_dir file
    /\ st_mtime fs path = Some mtime.
Proof.
  unfold _get_project_transcripts.
  destruct (listdir fs project_dir) as [files|]; [|intros H; by apply elem_of_nil in H].
  intros H. exists files.
  assert (Hin : exists file, file ∈ files /\ is_transcript_name file
                  /\ path = path_join project_dir file
                  /\ st_mtime fs path = Some mtime).
  { induction files as [|f files IH]; cbn [collect_transcripts] in H;
      [by apply elem_of_nil in H|].
    destruct (endswith ".jsonl" f) eqn:E1; cbn [negb orb] in H.
    - destruct (startswith "agent-" f) eqn:E2; cbn [negb orb] in H.
      + destruct (IH H) as (file & Hf & Hrest). exists file.
        split; [by right|exact Hrest].
      + destruct (st_mtime fs (path_join project_dir f)) as [m|] eqn:Em;
          [|by apply elem_of_nil in H].
        apply elem_of_cons in H as [[= -> ->]|H].
        * exists f. split; [by left|]. repeat split; assumption.
        * destruct (IH H) as (file & Hf & Hrest). exists file.
          split; [by right|exact Hrest].
    - destruct (IH H) as (file & Hf & Hrest). exists file.
      split; [by right|exact Hrest]. }
  destruct Hin as (file & Hin). exists file. split; [reflexivity|exact Hin].
Qed.

End WatcherCacheFacts.

Lemma watcher_counts_within_window_witness :
  map_Forall WatcherInvariants.entry_well_formed (cached_projects watching)
  /\ WatcherInvariants.snapshot_well_formed (get_status round_half_even watching)
  /\ Forall (fun m => WatcherInvariants.snapshot_well_formed (snd m)) (sent watching).
Proof.
  apply (watcher_counts_within_window Json.loads round_half_even watching).
  apply reach_event, reach_sources, reach_init.
Defined.

Lemma project_transcripts_are_main_transcripts_witness :
  exists files file,
    listdir demo_fs demo_dir = Some files
    /\ file ∈ files
    /\ WatcherInvariants.is_transcript_name file
    /\ demo_path = path_join demo_dir file
    /\ st_mtime demo_fs demo_path = Some 10%Q.
Proof.
  apply (project_transcripts_are_main_transcripts demo_fs demo_dir demo_path 10%Q).
  vm_compute. left.
Defined.


Section WatcherEventFacts.

Import WatcherInvariants WatcherQueries.

Variable json_loads : string -> result json.
Variable round_percent : Q -> Z.

Lemma collect_transcripts_In (fs : FileSystem) (project_dir : string)
    (files : list string) (path : string) (mtime : Q) :
  (path, mtime) ∈ collect_transcripts fs project_dir files ->
  st_mtime fs path = Some mtime.
Proof.
  induction files as [|f files IH]; cbn [collect_transcripts]; intros H;
    [by apply elem_of_nil in H|].
  destruct (negb (endswith ".jsonl" f) || startswith "agent-" f); [by apply IH|].
  destruct (st_mtime fs (path_join project_dir f)) as [m|] eqn:Em;
    [|by apply elem_of_nil in H].
  apply elem_of_cons in H as [[= -> ->]|H]; [exact Em|by apply IH].
Qed.

Lemma collect_transcripts_all (fs : FileSystem) (project_dir : string)
    (files : list string) (file : string) (mtime : Q) :
  all_stat fs project_dir files ->
  file ∈ files ->
  is_transcript_name file ->
  st_mtime fs (path_join project_dir file) = Some mtime ->
  (path_join project_dir file, mtime) ∈ collect_transcripts fs project_dir files.
Proof.
  intros Hall Hin [He Ha] Hm.
  induction files as [|f files IH]; [by apply elem_of_nil in Hin|].
  cbn [collect_transcripts].
  assert (Hall' : all_stat fs project_dir files).
  { intros x Hx. apply Hall. by right. }
  destruct (negb (endswith ".jsonl" f) || startswith "agent-" f) eqn:E.
  - apply elem_of_cons in Hin as [->|Hin]; [|by apply IH].
    rewrite He, Ha in E. discriminate.
  - destruct (Hall f ltac:(by left)) as [m Hf]. rewrite Hf.
    apply elem_of_cons in Hin as [->|Hin].
    + assert (m = mtime) by congruence. subst m. left.
    + right. by apply IH.
Qed.

(** X16: an event for a transcript that is not the newest of its directory
    changes nothing: when the directory holds another transcript with a later
    modification time, a created or modified event leaves the cache, the
    engine and the messages sent as they were. *)
Theorem stale_transcript_event_ignored (fs : FileSystem) (event : FileChangeEvent)
    (self : State) (files : list string) (other : string) (later : Q) :
  String.eqb (event_type event) "deleted" = false ->
  listdir fs (dirname (path event)) = Some files ->
  all_stat fs (dirname (path event)) files ->
  other ∈ files ->
  is_transcript_name other ->
  st_mtime fs (path_join (dirname (path event)) other) = Some later ->
  (forall mtime, st_mtime fs (path event) = Some mtime -> (mtime < later)%Q) ->
  process_event json_loads round_percent fs event self = self.
Proof.
  intros Hev Hdir Hall Hin Hname Hlater Hstale.
  unfold process_event, swallow, _handle_file_event. rewrite Hev.
  destruct (split "/projects/" (path event)) as [|? [|? ?]]; try reflexivity.
  assert (Hactive : _is_active_transcript fs (path event) (dirname (path event))
                    = false).
  { unfold _is_active_transcript, _get_project_transcripts. rewrite Hdir.
    pose proof (collect_transcripts_all fs _ files other later Hall Hin Hname Hlater)
      as Hother.
    set (listing := collect_transcripts fs (dirname (path event)) files) in *.
    pose proof (sorted_desc_perm snd listing) as Hperm.
    pose proof (sorted_desc_sorted snd listing) as Hsorted.
    destruct (sorted_desc snd listing) as [|[newest mt] rest].
    - rewrite <- Hperm in Hother. by apply elem_of_nil in Hother.
    - apply String.eqb_neq. intros ->.
      assert (Hmt : st_mtime fs (path event) = Some mt).
      { apply (collect_transcripts_In fs (dirname (path event)) files).
        fold listing. rewrite <- Hperm. left. }
      specialize (Hstale mt Hmt).
      rewrite <- Hperm in Hother. apply elem_of_cons in Hother as [E|Hother].
      + injection E as _ E. rewrite E in Hstale. by apply Qlt_irrefl in Hstale.
      + apply StronglySorted_inv in Hsorted as [_ Hrest].
        rewrite Forall_forall in Hrest. specialize (Hrest _ Hother).
        unfold key_ge in Hrest. simpl in Hrest.
        eapply Qlt_irrefl, Qlt_le_trans; eauto. }
  rewrite Hactive. reflexivity.
Qed.

Lemma newest_of_none (l : list Session.t) :
  foldl newer None l = None <-> l = [].
Proof.
  destruct l as [|s l]; [done|]. split; [|discriminate]. simpl.
  assert (H : forall l b, foldl newer (Some b) l <> None).
  { clear. induction l as [|x l IH]; intros b; simpl; [discriminate|].
    destruct (Session.created_at b <? Session.created_at x)%Z; apply IH. }
  intros E. by apply H in E.
Qed.

Lemma session_known_filter (d : Db) (session_key : string) :
  session_known d session_key
  <-> filter (fun s => Session.task_description s
                       = ("Auto-detected: " ++ session_key)%string)
             (map snd (map_to_list (sessions d))) <> [].
Proof.
  split.
  - intros (k & s & Hs & Ht) E.
    assert (Hin : s ∈ filter (fun s => Session.task_description s
                       = ("Auto-detected: " ++ session_key)%string)
             (map snd (map_to_list (sessions d)))).
    { apply list_elem_of_filter. split; [exact Ht|].
      apply list_elem_of_fmap. exists (k, s). split; [reflexivity|].
      by apply elem_of_map_to_list. }
    rewrite E in Hin. by apply elem_of_nil in Hin.
  - intros Hne. destruct (filter _ _) as [|s l] eqn:E; [done|].
    assert (Hin : s ∈ s :: l) by left. rewrite <- E in Hin.
    apply list_elem_of_filter in Hin as [Ht Hin].
    apply list_elem_of_fmap in Hin as [[k x] [-> Hin]].
    apply elem_of_map_to_list in Hin. by exists k, x.
Qed.

(** X17: what a deleted event does for a transcript of a recognised
    project. When the engine holds an auto-detected session for the project,
    the handler stops with AttributeError at [SessionStatus.INACTIVE] and
    nothing changes, the cache entry included; when it holds none, the cache
    entry is dropped and nothing else changes. The engine is written in
    neither case. *)
Theorem deleted_transcript_outcome (path : string) (self : State)
    (source_name project_name : string) :
  _extract_project_info self path = (Some source_name, Some project_name) ->
  source_name <> "" ->
  project_name <> "" ->
  let session_key := (source_name ++ ":" ++ project_name)%string in
  (session_known (engine self) session_key ->
   _handle_deleted_transcript path self = (Raise (AttributeError "INACTIVE"), self))
  /\ (~ session_known (engine self) session_key ->
      _handle_deleted_transcript path self
      = (Ok tt, set_cached_projects self (delete session_key (cached_projects self)))).
Proof.
  intros Hinfo Hs Hp session_key.
  set (rows := filter (fun s => Session.task_description s
                               = ("Auto-detected: " ++ session_key)%string)
                      (map snd (map_to_list (sessions (engine self))))).
  assert (Hrun : _handle_deleted_transcript path self
    = match foldl newer None rows with
      | Some _ => (Raise (AttributeError "INACTIVE"), self)
      | None => (Ok tt, set_cached_projects self
                          (delete session_key (cached_projects self)))
      end).
  { unfold _handle_deleted_transcript. rewrite Hinfo.
    destruct source_name as [|a source_name]; [done|].
    destruct project_name as [|b project_name]; [done|].
    cbn [nonempty andb]. fold session_key.
    unfold await at 1, with_db, mark_inactive, await at 1, select_latest_by_task.
    cbn [stored open_session]. fold rows.
    destruct self as [srcs cache sse msgs eng supply time faults].
    destruct (foldl newer None rows); reflexivity. }
  rewrite Hrun, (session_known_filter (engine self) session_key). fold rows.
  destruct (foldl newer None rows) as [session|] eqn:E.
  - split; [intros _; reflexivity|].
    intros Hno. exfalso. apply Hno. intros Hnil. rewrite Hnil in E. discriminate.
  - apply newest_of_none in E. split; [intros Hyes; by rewrite E in Hyes|].
    intros _. reflexivity.
Qed.

End WatcherEventFacts.


Lemma two_transcripts_all_stat :
  WatcherQueries.all_stat two_transcripts_fs (dirname (path modified_event))
                          ["A.jsonl"; "B.jsonl"].
Proof.
  intros file Hin.
  apply elem_of_cons in Hin as [->|Hin]; [by eexists|].
  apply elem_of_cons in Hin as [->|Hin]; [by eexists|].
  by apply elem_of_nil in Hin.
Defined.

Lemma stale_transcript_event_ignored_witness :
  process_event Json.loads round_half_even two_transcripts_fs modified_event
                demo_watcher = demo_watcher.
Proof.
  apply (stale_transcript_event_ignored Json.loads round_half_even
           two_transcripts_fs modified_event demo_watcher
           ["A.jsonl"; "B.jsonl"] "B.jsonl" 20%Q).
  - reflexivity.
  - reflexivity.
  - exact two_transcripts_all_stat.
  - right. left.
  - split; reflexivity.
  - reflexivity.
  - intros mtime H. vm_compute in H. injection H as <-. reflexivity.
Defined.

Lemma deleted_transcript_outcome_witness :
  (WatcherQueries.session_known (engine watching) "claude:ralph" ->
   _handle_deleted_transcript demo_path watching
   = (Raise (AttributeError "INACTIVE"), watching))
  /\ (~ WatcherQueries.session_known (engine watching) "claude:ralph" ->
      _handle_deleted_transcript demo_path watching
      = (Ok tt, set_cached_projects watching
                  (delete "claude:ralph" (cached_projects watching)))).
Proof.
  apply (deleted_transcript_outcome demo_path watching "claude" "ralph").
  - vm_compute. reflexivity.
  - discriminate.
  - discriminate.
Defined.


Lemma extract_list_section_items_stripped_witness :
  "fix the lexer" <> "" /\ strip "fix the lexer" = "fix the lexer".
Proof.
  apply (extract_list_section_items_stripped whole_reply two_decisions "DECISIONS"
           "fix the lexer").
  vm_compute. left.
Defined.


(** ** The fold decision across providers *)

Section ProviderFacts.

Import FoldService.

Variable json_loads : string -> result json.

Lemma Qle_bool_false (c u : Q) : Qle_bool c u = false <-> (u < c)%Q.
Proof.
  rewrite <- not_true_iff_false, Qle_bool_iff. split.
  - apply Qnot_le_lt.
  - intros H1 H2. eapply Qlt_irrefl, Qlt_le_trans; eauto.
Qed.

(** Settle each threshold test from what is known, or split on it *)
Ltac settle_thresholds :=
  repeat match goal with
         | |- context [Qle_bool ?c ?u] =>
             first
               [ rewrite (proj2 (Qle_bool_iff c u)) by lra
               | rewrite (proj2 (Qle_bool_false c u)) by lra
               | let H := fresh "Hcmp" in
                 destruct (Qle_bool c u) eqn:H;
                 [apply Qle_bool_iff in H|apply Qle_bool_false in H] ]
         end.

(** X18: at every context usage the providers are ordered: the decision for
    google is never more urgent than the one for anthropic, which is never
    more urgent than the one for glm, and a fold advised for google is advised
    for anthropic, and one advised for anthropic is advised for glm; openai
    gets the decision of anthropic. *)
Theorem should_fold_providers_ordered (ccs : ConfigFile) (context_usage : Q)
    (memory_count : Z) :
  let decision p := should_fold json_loads ccs context_usage memory_count (Some p) in
  Urgency_le (urgency (decision "google")) (urgency (decision "anthropic"))
  /\ Urgency_le (urgency (decision "anthropic")) (urgency (decision "glm"))
  /\ (should_fold_flag (decision "google") = true ->
      should_fold_flag (decision "anthropic") = true)
  /\ (should_fold_flag (decision "anthropic") = true ->
      should_fold_flag (decision "glm") = true)
  /\ should_fold_flag (decision "openai") = should_fold_flag (decision "anthropic")
  /\ urgency (decision "openai") = urgency (decision "anthropic")
  /\ reason (decision "openai") = reason (decision "anthropic")
  /\ recommended_action (decision "openai")
     = recommended_action (decision "anthropic").
Proof.
  cbv zeta. unfold should_fold. simpl or_str.
  unfold get_thresholds_for_provider, sorted_desc. simpl.
  unfold Urgency_le.
  settle_thresholds; simpl; repeat split; try lia; try discriminate; reflexivity.
Qed.

(** X19: whatever the provider and the configuration, the parts of a fold
    decision agree: a fold is advised exactly when the urgency is above low
    and exactly when the action is not continue, spawn is the action exactly
    at critical urgency, and the provider reported is the one asked for, or
    else the one detected. *)
Theorem should_fold_decision_coherent (ccs : ConfigFile) (context_usage : Q)
    (memory_count : Z) (provider : option string) :
  let d := should_fold json_loads ccs context_usage memory_count provider in
  (should_fold_flag d = true <-> urgency d <> LOW)
  /\ (should_fold_flag d = false <-> recommended_action d = "continue")
  /\ (urgency d = CRITICAL <-> recommended_action d = "spawn")
  /\ (should_fold_flag d = false -> reason d = "Context usage acceptable")
  /\ FoldService.provider d
     = or_str provider (detect_active_provider json_loads ccs)
  /\ FoldService.context_usage d = context_usage.
Proof.
  cbv zeta. unfold should_fold.
  pose proof (thresholds_declared json_loads ccs
                (Some (or_str provider (detect_active_provider json_loads ccs))))
    as Hin.
  set (t := get_thresholds_for_provider json_loads ccs _) in *.
  clearbody t. simpl in Hin.
  destruct Hin as [<-|[<-|[<-|[<-|[]]]]]; unfold sorted_desc; simpl;
    settle_thresholds; simpl; repeat split; intros; try discriminate;
    try congruence; try reflexivity.
Qed.

End ProviderFacts.


(** ** The memory index and the layers above it *)

Section IndexBounds.

Import MemoryService.

Variable ilike : string -> string -> bool.
Variable priority_key : MemoryPriority -> Z.

Lemma substring_length_le (n : nat) (s : string) :
  (String.length (String.substring 0 n s) <= n)%nat.
Proof.
  revert s. induction n as [|n IH]; intros [|c s]; simpl; try lia.
  specialize (IH s). lia.
Qed.

Lemma append_length (s t : string) :
  String.length (s ++ t) = (String.length s + String.length t)%nat.
Proof. induction s as [|c s IH]; simpl; [reflexivity|by rewrite IH]. Qed.

Lemma summarize_length (content : string) :
  (String.length (summarize content) <= 53)%nat.
Proof.
  unfold summarize. rewrite append_length.
  pose proof (substring_length_le 50 content).
  destruct (50 <? String.length content)%nat; simpl; lia.
Qed.

Lemma hit_ratio_range (tokens : list string) (content : string) :
  tokens <> [] ->
  (0 <= hit_ratio tokens content)%Q /\ (hit_ratio tokens content <= 1)%Q.
Proof.
  intros Hne. unfold hit_ratio.
  set (hits := filter _ tokens).
  assert (Hle : (length hits <= length tokens)%nat) by apply length_filter.
  assert (Hpos : (0 < length tokens)%nat).
  { destruct tokens; [done|simpl; lia]. }
  assert (Hden : (0 < inject_Z (Z.of_nat (length tokens)))%Q).
  { rewrite <- (Zlt_Qlt 0). lia. }
  split.
  - apply Qle_shift_div_l; [exact Hden|]. rewrite Qmult_0_l.
    rewrite <- (Zle_Qle 0). lia.
  - apply Qle_shift_div_r; [exact Hden|]. rewrite Qmult_1_l.
    rewrite <- Zle_Qle. lia.
Qed.

Lemma for_each_index_item_rows (keywords : list string) (ms : list Memory.t)
    (items : list MemoryIndexItem) :
  keywords <> [] ->
  for_each (index_item keywords) ms = Ok items ->
  map id items = map Memory.id ms
  /\ Forall (fun item => (String.length (summary item) <= 53)%nat
                         /\ (0 <= score item)%Q /\ (score item <= 1)%Q) items.
Proof.
  intros Hne. revert items. induction ms as [|m ms IH]; simpl.
  - intros items [= <-]. split; [reflexivity|constructor].
  - intros items. unfold index_item at 1. rewrite (calc_score_ratio _ _ Hne).
    simpl. destruct (for_each _ ms) as [rest|e]; simpl; [|discriminate].
    intros [= <-]. destruct (IH rest eq_refl) as [Hids Hall].
    split; [simpl; by rewrite Hids|].
    constructor; [|exact Hall]. simpl.
    split; [apply summarize_length|by apply hit_ratio_range].
Qed.

(** X20: what [search_index] returns stays within bounds: at most [top_k]
    items, each for a stored memory of the session, with a summary of at most
    53 characters and a score between 0 and 1; the store is not changed. *)
Theorem search_index_within_bounds
    (db db' : AsyncSession) (session_id : UUID) (query : string) (top_k : Z)
    (items : list MemoryIndexItem) :
  search_index ilike priority_key session_id query top_k db = (Ok items, db') ->
  db' = db
  /\ Z.of_nat (length items) <= Z.max 0 top_k
  /\ forall item, item ∈ items ->
       (String.length (summary item) <= 53)%nat
       /\ (0 <= score item)%Q /\ (score item <= 1)%Q
       /\ exists k m, memories (stored db) !! k = Some m
                      /\ id item = Memory.id m
                      /\ Memory.session_id m = session_id.
Proof.
  intros Hrun.
  pose proof (search_index_reads_only ilike priority_key session_id query top_k db)
    as Hpure.
  rewrite Hrun in Hpure. simpl in Hpure. subst db'. split; [reflexivity|].
  unfold search_index in Hrun.
  destruct (split_ws (lower query)) as [|kw kws] eqn:Ek.
  { injection Hrun as <-. split; [simpl; lia|].
    intros item H. by apply elem_of_nil in H. }
  unfold await in Hrun.
  destruct (select_index_rows ilike priority_key session_id (kw :: kws) top_k db)
    as [[rows|e] db1] eqn:Es; [|discriminate].
  pose proof (select_index_rows_stored ilike priority_key _ _ _ _ _ _ Es) as Hrows.
  unfold lift in Hrun.
  destruct (for_each (index_item (kw :: kws)) rows) as [its|e] eqn:Ef;
    [|discriminate].
  injection Hrun as ->.
  destruct (for_each_index_item_rows (kw :: kws) rows items ltac:(done) Ef)
    as [Hids Hall].
  split.
  - assert (Hlen : length items = length rows).
    { by rewrite <- (length_map id items), Hids, length_map. }
    rewrite Hlen. unfold select_index_rows in Es.
    destruct (top_k <? 0)%Z eqn:Et; [discriminate|].
    injection Es as <- _. rewrite length_firstn. apply Z.ltb_ge in Et. lia.
  - intros item Hin. rewrite Forall_forall in Hall.
    destruct (Hall item Hin) as (Hsum & H0 & H1).
    do 3 (split; [assumption|]).
    assert (Hid : id item ∈ map Memory.id rows).
    { rewrite <- Hids. apply list_elem_of_fmap. by exists item. }
    apply list_elem_of_fmap in Hid as (m & Hid & Hm).
    destruct (Hrows m Hm) as [Hs [k Hk]]. by exists k, m.
Qed.

End IndexBounds.

Section HybridBounds.

Import MemoryService.

Variable ilike : string -> string -> bool.
Variable priority_key : MemoryPriority -> Z.
Variable has_embedding_provider : bool.
Variable vector_path : Db -> UUID -> string -> Z -> result (list (UUID * Q)).
Variable set_order : gset UUID -> list UUID.

Hypothesis set_order_elements : forall s, set_order s ≡ₚ elements s.

Lemma omap_ids (f : UUID -> option MemoryIndexItem) (l : list UUID) :
  (forall x it, f x = Some it -> id it = x) ->
  NoDup l ->
  NoDup (map id (omap f l)) /\ (length (omap f l) <= length l)%nat
  /\ forall it, it ∈ omap f l -> id it ∈ l.
Proof.
  intros Hf. induction 1 as [|x l Hx Hnd IH].
  - split; [constructor|]. split; [reflexivity|].
    intros it H. by apply elem_of_nil in H.
  - destruct IH as (IH1 & IH2 & IH3).
    change (omap f (x :: l))
      with (match f x with Some y => y :: omap f l | None => omap f l end).
    destruct (f x) as [it|] eqn:E; cbn [map length].
    + split; [|split; [lia|]].
      * constructor; [|exact IH1]. rewrite (Hf _ _ E).
        intros Hin. apply list_elem_of_fmap in Hin as (it' & -> & Hin).
        by apply Hx, IH3.
      * intros it' Hin. apply elem_of_cons in Hin as [->|Hin].
        -- rewrite (Hf _ _ E). by left.
        -- right. by apply IH3.
    + split; [exact IH1|]. split; [lia|]. intros it' Hin. right. by apply IH3.
Qed.

(** X21: [hybrid_search] never returns a memory twice, returns at most
    [top_k] items (for [top_k >= 0]), and leaves the store as it is, whether
    or not the vector path is available or fails. *)
Theorem hybrid_search_distinct_within_top_k
    (db db' : AsyncSession) (session_id : UUID) (query : string) (top_k : Z)
    (keyword_weight vector_weight : Q) (items : list MemoryIndexItem) :
  memories_keyed (stored db) ->
  hybrid_search ilike priority_key has_embedding_provider vector_path set_order
                session_id query top_k keyword_weight vector_weight db
  = (Ok items, db') ->
  db' = db
  /\ NoDup (map id items)
  /\ (0 <= top_k -> Z.of_nat (length items) <= top_k).
Proof.
  intros Hkeyed Hrun.
  unfold hybrid_search, await in Hrun.
  pose proof (search_index_reads_only ilike priority_key session_id query
                (top_k * 2) db) as Hpure.
  destruct (search_index ilike priority_key session_id query (top_k * 2) db)
    as [[keyword_results|e] db1]; simpl in Hpure; subst db1; [|discriminate].
  rewrite build_results_omap in Hrun. injection Hrun as Hitems <-.
  split; [reflexivity|].
  set (kw := ranks (map id keyword_results)) in *.
  set (vec := if has_embedding_provider then _ else _) in *.
  set (all_ids := set_order (dom kw ∪ dom vec)) in *.
  set (combined := foldl _ _ all_ids) in *.
  set (key := fun x : UUID => default 0%Q (combined !! x)) in *.
  set (f := result_item (stored db) (lookup_table keyword_results) combined) in *.
  assert (Hnd : NoDup (slice_to top_k (sorted_desc key all_ids))).
  { destruct (slice_to_take top_k (sorted_desc key all_ids)) as [m ->].
    assert (H : NoDup (sorted_desc key all_ids)).
    { rewrite sorted_desc_perm. unfold all_ids. rewrite set_order_elements.
      apply NoDup_elements. }
    rewrite <- (take_drop m (sorted_desc key all_ids)) in H.
    by apply NoDup_app in H as [H _]. }
  assert (Hfid : forall x it, f x = Some it -> id it = x).
  { intros x it. by apply result_item_id. }
  destruct (omap_ids f _ Hfid Hnd) as (H1 & H2 & _).
  rewrite <- Hitems. split; [exact H1|].
  intros Hk. unfold slice_to in H2. rewrite (proj2 (Z.leb_le 0 top_k) Hk) in H2.
  rewrite length_firstn in H2.
  unfold slice_to. rewrite (proj2 (Z.leb_le 0 top_k) Hk). lia.
Qed.

End HybridBounds.


Lemma hybrid_db_keyed : memories_keyed (stored hybrid_db).
Proof.
  unfold memories_keyed, hybrid_db, open_session. simpl.
  repeat apply map_Forall_insert_2; try reflexivity.
  apply map_Forall_empty.
Defined.

Lemma search_index_within_bounds_witness :
  hybrid_db = hybrid_db
  /\ Z.of_nat (length hybrid_keyword_results) <= Z.max 0 20
  /\ forall item, item ∈ hybrid_keyword_results ->
       (String.length (MemoryService.summary item) <= 53)%nat
       /\ (0 <= MemoryService.score item)%Q /\ (MemoryService.score item <= 1)%Q
       /\ exists k m, memories (stored hybrid_db) !! k = Some m
                      /\ MemoryService.id item = Memory.id m
                      /\ Memory.session_id m = 1%positive.
Proof.
  apply (search_index_within_bounds ilike_plain priority_declared
           hybrid_db hybrid_db 1%positive "jwt" 20 hybrid_keyword_results).
  vm_compute. reflexivity.
Defined.

Lemma hybrid_search_distinct_within_top_k_witness :
  hybrid_db = hybrid_db
  /\ NoDup (map MemoryService.id hybrid_items)
  /\ (0 <= 10 -> Z.of_nat (length hybrid_items) <= 10).
Proof.
  apply (hybrid_search_distinct_within_top_k ilike_plain priority_declared true
           hybrid_vector_path elements ltac:(reflexivity)
           hybrid_db hybrid_db 1%positive "jwt" 10 0.5 0.5 hybrid_items).
  - exact hybrid_db_keyed.
  - vm_compute. reflexivity.
Defined.


Section ProgressiveFacts.

Import MemoryService ProgressiveDisclosure.

Variable ilike : string -> string -> bool.
Variable priority_key : MemoryPriority -> Z.

Lemma keyed_rows_NoDup (d : Db) :
  memories_keyed d -> NoDup (map snd (map_to_list (memories d))).
Proof.
  intros Hk. apply (NoDup_fmap_2_strong snd); [|apply NoDup_map_to_list].
  intros [k m] [k' m'] H H' E. simpl in E. subst m'.
  apply elem_of_map_to_list in H, H'.
  pose proof (Hk _ _ H) as E1. pose proof (Hk _ _ H') as E2. simpl in E1, E2.
  congruence.
Qed.

(** The rows behind the items of an index search *)
Lemma search_index_rows (db db' : AsyncSession) (session_id : UUID)
    (query : string) (top_k : Z) (items : list MemoryIndexItem) :
  memories_keyed (stored db) ->
  search_index ilike priority_key session_id query top_k db = (Ok items, db') ->
  exists rows : list Memory.t,
    map id items = map Memory.id rows
    /\ NoDup rows
    /\ forall m, m ∈ rows ->
         Memory.session_id m = session_id
         /\ m ∈ map snd (map_to_list (memories (stored db))).
Proof.
  intros Hk Hrun. unfold search_index in Hrun.
  destruct (split_ws (lower query)) as [|kw kws] eqn:Ek.
  { injection Hrun as <- _. exists []. split; [reflexivity|].
    split; [constructor|]. intros m H. by apply elem_of_nil in H. }
  unfold await in Hrun.
  destruct (select_index_rows ilike priority_key session_id (kw :: kws) top_k db)
    as [[rows|e] db1] eqn:Es; [|discriminate].
  unfold lift in Hrun.
  destruct (for_each (index_item (kw :: kws)) rows) as [its|e] eqn:Ef;
    [|discriminate].
  injection Hrun as -> _.
  destruct (for_each_index_item_rows (kw :: kws) rows items ltac:(done) Ef)
    as [Hids _].
  exists rows. split; [exact Hids|].
  unfold select_index_rows in Es.
  destruct (top_k <? 0)%Z; [discriminate|]. injection Es as <- _.
  set (found := sorted_desc _ (sorted_desc _ (filter _ _))).
  assert (Hperm : found ≡ₚ filter (fun m => Memory.session_id m = session_id
                     /\ existsb (fun kw0 => ilike kw0 (Memory.content m)) (kw :: kws)
                        = true)
                    (map snd (map_to_list (memories (stored db))))).
  { unfold found. by rewrite !sorted_desc_perm. }
  assert (Hnd : NoDup found).
  { rewrite Hperm. apply NoDup_filter. by apply keyed_rows_NoDup. }
  split.
  - rewrite <- (take_drop (Z.to_nat top_k) found) in Hnd.
    by apply NoDup_app in Hnd as [Hnd _].
  - intros m Hm. apply elem_of_take in Hm as (i & Hm & _).
    apply list_elem_of_lookup_2 in Hm. rewrite Hperm in Hm.
    apply list_elem_of_filter in Hm as [[Hs _] Hm]. by split.
Qed.

(** Asking for the rows of an index search by their ids gives those rows *)
Lemma select_requested_rows (d : Db) (session_id : UUID) (rows : list Memory.t) :
  memories_keyed d ->
  NoDup rows ->
  (forall m, m ∈ rows ->
     Memory.session_id m = session_id /\ m ∈ map snd (map_to_list (memories d))) ->
  filter (fun m => Memory.session_id m = session_id
                   /\ Memory.id m ∈ map Memory.id rows)
         (map snd (map_to_list (memories d)))
  ≡ₚ rows.
Proof.
  intros Hk Hnd Hrows. apply NoDup_Permutation.
  - apply NoDup_filter. by apply keyed_rows_NoDup.
  - exact Hnd.
  - intros x. rewrite list_elem_of_filter. split.
    + intros [[Hs Hid] Hx]. apply list_elem_of_fmap in Hid as (m & Hid & Hm).
      destruct (Hrows m Hm) as [_ Hmall].
      by rewrite (memories_keyed_inj d x m Hk Hx Hmall Hid).
    + intros Hx. destruct (Hrows x Hx) as [Hs Hall].
      split; [|exact Hall]. split; [exact Hs|].
      apply list_elem_of_fmap. by exists x.
Qed.

Lemma requested_none (d : Db) (session_id : UUID) :
  filter (fun m => Memory.session_id m = session_id /\ Memory.id m ∈ @nil UUID)
         (map snd (map_to_list (memories d))) = [].
Proof.
  apply filter_none, Forall_forall. intros m _ [_ H]. by apply elem_of_nil in H.
Qed.

Lemma get_timeline_length (session_id : UUID) (memory_ids : list UUID)
    (db : AsyncSession) :
  exists l, get_timeline session_id memory_ids db = (Ok l, db)
            /\ length l
               = length (filter (fun m => Memory.session_id m = session_id
                                          /\ Memory.id m ∈ memory_ids)
                                (map snd (map_to_list (memories (stored db))))).
Proof.
  destruct memory_ids as [|i ids].
  { exists []. split; [reflexivity|]. by rewrite requested_none. }
  unfold get_timeline, await at 1, select_requested.
  set (found := filter _ _).
  assert (Hlen : length (oldest_first found) = length found).
  { unfold oldest_first. apply Permutation_length, sorted_desc_perm. }
  destruct (oldest_first found) as [|m ms] eqn:Eo.
  - exists []. split; [reflexivity|exact Hlen].
  - eexists. split; [reflexivity|]. by rewrite length_map.
Qed.

Lemma get_full_length (session_id : UUID) (memory_ids : list UUID)
    (db : AsyncSession) :
  exists l, get_full session_id memory_ids db = (Ok l, db)
            /\ length l
               = length (filter (fun m => Memory.session_id m = session_id
                                          /\ Memory.id m ∈ memory_ids)
                                (map snd (map_to_list (memories (stored db))))).
Proof.
  destruct memory_ids as [|i ids].
  { exists []. split; [reflexivity|]. by rewrite requested_none. }
  unfold get_full, await at 1, select_requested.
  set (found := filter _ _).
  eexists. split; [reflexivity|]. rewrite length_map.
  apply Permutation_length, sorted_desc_perm.
Qed.

(** X22: [progressive_search] finds the same number of results at every
    depth: the layer is index at depth 1, timeline at depth 2 and full at any
    other depth, the count is the number of index results, and the token
    estimate is 50, 150 or 500 per result; the store is not changed. *)
Theorem progressive_search_same_count
    (db : AsyncSession) (session_id : UUID) (query : string) (depth top_k : Z)
    (items : list MemoryIndexItem) :
  memories_keyed (stored db) ->
  fst (search_index ilike priority_key session_id query top_k db) = Ok items ->
  exists r : Disclosure,
    progressive_search ilike priority_key session_id query depth top_k db
    = (Ok r, db)
    /\ layer r = fst (layer_of depth)
    /\ count r = Z.of_nat (length items)
    /\ estimated_tokens r = Z.of_nat (length items) * snd (layer_of depth).
Proof.
  intros Hk Hrun.
  pose proof (search_index_reads_only ilike priority_key session_id query top_k db)
    as Hpure.
  destruct (search_index ilike priority_key session_id query top_k db)
    as [res db1] eqn:Hs. simpl in Hrun, Hpure. subst res db1.
  destruct (search_index_rows db db session_id query top_k items Hk Hs)
    as (rows & Hids & Hnd & Hrows).
  pose proof (select_requested_rows (stored db) session_id rows Hk Hnd Hrows)
    as Hperm.
  assert (Hlen : length rows = length items).
  { by rewrite <- (length_map Memory.id rows), <- Hids, length_map. }
  unfold progressive_search, await at 1. rewrite Hs. unfold layer_of.
  destruct (depth =? 1)%Z; [eexists; split; [reflexivity|by repeat split]|].
  rewrite Hids.
  destruct (depth =? 2)%Z.
  - destruct (get_timeline_length session_id (map Memory.id rows) db)
      as (l & Hl & Hcount).
    unfold await. rewrite Hl. eexists. split; [reflexivity|].
    cbn [layer count estimated_tokens fst snd].
    rewrite Hcount, (Permutation_length Hperm), Hlen. by repeat split.
  - destruct (get_full_length session_id (map Memory.id rows) db)
      as (l & Hl & Hcount).
    unfold await. rewrite Hl. eexists. split; [reflexivity|].
    cbn [layer count estimated_tokens fst snd].
    rewrite Hcount, (Permutation_length Hperm), Hlen. by repeat split.
Qed.

End ProgressiveFacts.

Lemma progressive_search_same_count_witness :
  exists r : ProgressiveDisclosure.Disclosure,
    ProgressiveDisclosure.progressive_search ilike_plain priority_declared
      1%positive "jwt" 2 20 hybrid_db = (Ok r, hybrid_db)
    /\ ProgressiveDisclosure.layer r = fst (ProgressiveDisclosure.layer_of 2)
    /\ ProgressiveDisclosure.count r = Z.of_nat (length hybrid_keyword_results)
    /\ ProgressiveDisclosure.estimated_tokens r
       = Z.of_nat (length hybrid_keyword_results)
         * snd (ProgressiveDisclosure.layer_of 2).
Proof.
  apply (progressive_search_same_count ilike_plain priority_declared hybrid_db
           1%positive "jwt" 2 20 hybrid_keyword_results).
  - exact hybrid_db_keyed.
  - vm_compute. reflexivity.
Defined.


(** ** Curation *)

Section CurationFacts.

Import CurationService.

Lemma delete_each_run (to_remove : list Memory.t) (st wk : Db) (next : positive)
    (time : Z) (faults : list bool) :
  delete_each to_remove (mkAS st wk next time faults)
  = (Ok tt,
     mkAS st
          (mkDb (sessions wk)
                (foldl (fun acc m => delete (Memory.id m) acc) (memories wk) to_remove)
                (checkpoints wk) (session_lineage wk))
          next time faults).
Proof.
  revert wk. induction to_remove as [|m rest IH]; intros wk.
  - by destruct wk.
  - cbn [delete_each]. unfold await, MemoryStore.delete_Memory, with_working.
    cbn [stored working next_uuid clock commit_faults]. rewrite IH. reflexivity.
Qed.

Lemma deleted_lookup (rows : list Memory.t) (table : gmap UUID Memory.t) (k : UUID) :
  foldl (fun acc m => delete (Memory.id m) acc) table rows !! k
  = if decide (k ∈ map Memory.id rows) then None else table !! k.
Proof.
  revert table. induction rows as [|x rows IH]; intros table.
  - simpl. destruct (decide (k ∈ [])) as [H|_]; [by apply elem_of_nil in H|done].
  - cbn [foldl map]. rewrite IH.
    destruct (decide (k ∈ map Memory.id rows)) as [Hin|Hout].
    + rewrite decide_True by (by right). reflexivity.
    + destruct (decide (k = Memory.id x)) as [->|Hne].
      * rewrite decide_True by (by left). apply lookup_delete_eq.
      * rewrite decide_False.
        -- by rewrite lookup_delete_ne.
        -- intros H. apply elem_of_cons in H as [H|H]; done.
Qed.

Lemma deleted_values (rows : list Memory.t) (table : gmap UUID Memory.t) :
  map_Forall (fun k m => Memory.id m = k) table ->
  map snd (map_to_list (foldl (fun acc m => delete (Memory.id m) acc) table rows))
  ≡ₚ filter (fun m => Memory.id m ∉ map Memory.id rows)
            (map snd (map_to_list table)).
Proof.
  revert table. induction rows as [|x rows IH]; intros table Hk.
  - simpl. rewrite filter_all; [reflexivity|].
    apply Forall_forall. intros m _ H. by apply elem_of_nil in H.
  - cbn [foldl map]. rewrite IH by (by apply map_Forall_delete).
    rewrite (keyed_delete_values (mkDb ∅ table ∅ ∅) (Memory.id x) Hk).
    cbn [memories]. rewrite list_filter_filter.
    apply reflexive_eq, list_filter_iff. intros m. rewrite not_elem_of_cons.
    tauto.
Qed.

Lemma filter_split_length {B : Type} (f : B -> bool) (l : list B) :
  (length (filter (fun x => f x = true) l)
   + length (filter (fun x => f x = false) l) = length l)%nat.
Proof.
  induction l as [|x l IH]; [reflexivity|].
  rewrite !filter_cons. destruct (f x); simpl; lia.
Qed.

Lemma filter_complement_length {B : Type} (P : B -> Prop)
    `{!forall x, Decision (P x)} (l : list B) :
  (length (filter P l) + length (filter (fun x => ~ P x) l) = length l)%nat.
Proof.
  induction l as [|x l IH]; [reflexivity|].
  rewrite !filter_cons. destruct (decide (P x)), (decide (~ P x)); simpl; try lia;
    tauto.
Qed.

(** X23: curation spares what it should. [curate_memories] removes only
    memories of the session outside the preserved categories (decision and
    error unless others are given): protected memories and memories of other
    sessions stay, nothing is added, the two counts it reports add up to the
    session's memories before, the session holds [remaining_count] memories
    afterwards, and that is at most [keep_top] unless the protected memories
    alone are more. *)
Theorem curate_memories_spares_protected (db : AsyncSession) (session_id : UUID)
    (keep_top : Z) (preserve_categories : option (list string)) :
  working db = stored db ->
  memories_keyed (stored db) ->
  SessionService.commit_goes_through db ->
  let categories := or_categories preserve_categories in
  exists (r : CurationResult) (db' : AsyncSession),
    curate_memories session_id keep_top preserve_categories db = (Ok r, db')
    /\ 0 <= removed_count r
    /\ removed_count r + remaining_count r
       = Z.of_nat (length (session_rows (stored db) session_id))
    /\ remaining_count r
       <= Z.max keep_top
            (Z.of_nat (length (protected_rows (stored db) session_id categories)))
    /\ Z.of_nat (length (session_rows (stored db') session_id)) = remaining_count r
    /\ (forall k m, memories (stored db) !! k = Some m ->
          Memory.session_id m <> session_id \/ is_protected categories m = true ->
          memories (stored db') !! k = Some m)
    /\ (forall k m, memories (stored db') !! k = Some m ->
          memories (stored db) !! k = Some m)
    /\ sessions (stored db') = sessions (stored db)
    /\ checkpoints (stored db') = checkpoints (stored db)
    /\ session_lineage (stored db') = session_lineage (stored db).
Proof.
  intros Hw Hk Hc categories.
  destruct db as [st wk next time faults]. simpl in Hw, Hk. subst wk.
  unfold SessionService.commit_goes_through in Hc. simpl in Hc.
  cbn [stored].
  set (rows := session_rows st session_id).
  set (mem := sorted_desc (fun m => inject_Z (Memory.created_at m)) rows).
  assert (Hmem : mem ≡ₚ rows) by apply sorted_desc_perm.
  set (kept := filter (fun m => is_protected categories m = true) mem).
  set (candidates := filter (fun m => is_protected categories m = false) mem).
  assert (Hkept : length kept = length (protected_rows st session_id categories)).
  { unfold kept, protected_rows. fold rows. by rewrite Hmem. }
  assert (Hsplit : (length kept + length candidates = length mem)%nat)
    by apply filter_split_length.
  assert (Hlen : length mem = length rows) by (by rewrite Hmem).
  set (n := Z.to_nat (Z.max 0 (keep_top - Z.of_nat (length kept)))).
  set (to_remove := drop n candidates).
  assert (Hdrop : length to_remove = (length candidates - n)%nat)
    by apply length_drop.
  assert (Hrun : curate_memories session_id keep_top preserve_categories
                   (mkAS st st next time faults)
    = if (Z.of_nat (length mem) <=? keep_top)%Z
      then (Ok {| removed_count := 0;
                  remaining_count := Z.of_nat (length mem);
                  tokens_freed := 0 |}, mkAS st st next time faults)
      else match to_remove with
           | [] => (Ok {| removed_count := 0;
                          remaining_count := Z.of_nat (length mem);
                          tokens_freed := 0 |}, mkAS st st next time faults)
           | _ =>
               let st' :=
                 mkDb (sessions st)
                      (foldl (fun acc m => delete (Memory.id m) acc)
                             (memories st) to_remove)
                      (checkpoints st) (session_lineage st) in
               (Ok {| removed_count := Z.of_nat (length to_remove);
                      remaining_count :=
                        Z.of_nat (length mem) - Z.of_nat (length to_remove);
                      tokens_freed :=
                        foldr Z.add 0
                          (map (fun m =>
                                  Z.of_nat (String.length (Memory.content m)) / 4)
                               to_remove) |},
                mkAS st' st' next time (tail faults))
           end).
  { unfold curate_memories, await at 1, select_newest_first.
    cbn [stored]. fold (session_rows st session_id). fold rows. fold mem.
    fold categories.
    destruct (Z.of_nat (length mem) <=? keep_top)%Z; [reflexivity|].
    fold kept. fold candidates. fold n. fold to_remove.
    destruct to_remove as [|x rest] eqn:E; [reflexivity|].
    unfold await at 1. rewrite delete_each_run.
    unfold await at 1. rewrite commit_run by exact Hc.
    reflexivity. }
  rewrite Hrun. clear Hrun.
  (* what is removed comes from the session, outside the categories *)
  assert (Hremoved : forall x, x ∈ to_remove ->
            is_protected categories x = false /\ x ∈ rows).
  { intros x Hx. unfold to_remove in Hx.
    assert (Hc' : x ∈ candidates).
    { rewrite <- (take_drop n candidates). apply elem_of_app. by right. }
    apply list_elem_of_filter in Hc' as [Hp Hx']. rewrite Hmem in Hx'. done. }
  assert (Hnd : NoDup to_remove).
  { assert (H : NoDup candidates).
    { apply NoDup_filter. rewrite Hmem. apply NoDup_filter.
      by apply keyed_rows_NoDup. }
    rewrite <- (take_drop n candidates) in H. by apply NoDup_app in H as (_ & _ & H). }
  destruct (Z.of_nat (length mem) <=? keep_top)%Z eqn:Ekeep.
  { apply Z.leb_le in Ekeep. eexists _, _. split; [reflexivity|].
    cbn [removed_count remaining_count stored]. fold rows.
    repeat split; try lia; auto. }
  apply Z.leb_gt in Ekeep.
  destruct to_remove as [|x rest] eqn:E.
  { eexists _, _. split; [reflexivity|].
    cbn [removed_count remaining_count stored]. fold rows.
    simpl in Hdrop. repeat split; try lia; auto. }
  rewrite <- E in *. clear E x rest.
  eexists _, _. split; [reflexivity|].
  cbn [removed_count remaining_count stored memories sessions checkpoints
       session_lineage]. fold rows.
  split; [lia|]. split; [lia|]. split; [lia|].
  split.
  { (* the rows the session holds afterwards *)
    unfold session_rows at 1. cbn [memories].
    rewrite (deleted_values to_remove (memories st) Hk), list_filter_filter.
    pose proof (filter_complement_length
                  (fun m => Memory.id m ∈ map Memory.id to_remove) rows) as Hparts.
    assert (Hin : filter (fun m => Memory.id m ∈ map Memory.id to_remove) rows
                  ≡ₚ to_remove).
    { etransitivity;
        [|apply (select_requested_rows st session_id to_remove Hk Hnd)].
      - unfold rows, session_rows. rewrite list_filter_filter.
        apply reflexive_eq, list_filter_iff. intros m. tauto.
      - intros m Hm. destruct (Hremoved m Hm) as [_ Hrows].
        unfold rows, session_rows in Hrows.
        apply list_elem_of_filter in Hrows. exact Hrows. }
    rewrite (Permutation_length Hin) in Hparts.
    assert (Hout : filter (fun m => Memory.session_id m = session_id
                                    /\ Memory.id m ∉ map Memory.id to_remove)
                          (map snd (map_to_list (memories st)))
                   = filter (fun m => ~ Memory.id m ∈ map Memory.id to_remove) rows).
    { unfold rows, session_rows. rewrite list_filter_filter.
      apply list_filter_iff. intros m. tauto. }
    rewrite Hout. lia. }
  split.
  { intros k m Hm Hsafe. rewrite deleted_lookup.
    destruct (decide (k ∈ map Memory.id to_remove)) as [Hin|_]; [|exact Hm].
    exfalso. apply list_elem_of_fmap in Hin as (x & -> & Hx).
    destruct (Hremoved x Hx) as [Hp Hrows].
    unfold rows, session_rows in Hrows.
    apply list_elem_of_filter in Hrows as [Hs Hall].
    apply list_elem_of_fmap in Hall as [[k' x'] [-> Hall]].
    apply elem_of_map_to_list in Hall. simpl in *.
    pose proof (Hk _ _ Hall) as Hid. simpl in Hid. rewrite Hid in Hm.
    assert (E : Some x' = Some m).
    { etransitivity; [symmetry; exact Hall|exact Hm]. }
    injection E as ->. destruct Hsafe as [H|H]; [done|congruence]. }
  split.
  { intros k m. rewrite deleted_lookup.
    destruct (decide (k ∈ map Memory.id to_remove)); [discriminate|done]. }
  done.
Qed.

End CurationFacts.

Lemma curate_memories_spares_protected_witness :
  exists (r : CurationService.CurationResult) (db' : AsyncSession),
    CurationService.curate_memories 1%positive 1 None crowded_db = (Ok r, db')
    /\ 0 <= CurationService.removed_count r
    /\ CurationService.removed_count r + CurationService.remaining_count r
       = Z.of_nat (length (CurationService.session_rows (stored crowded_db) 1%positive))
    /\ CurationService.remaining_count r
       <= Z.max 1
            (Z.of_nat (length (CurationService.protected_rows (stored crowded_db)
                                 1%positive (CurationService.or_categories None))))
    /\ Z.of_nat (length (CurationService.session_rows (stored db') 1%positive))
       = CurationService.remaining_count r
    /\ (forall k m, memories (stored crowded_db) !! k = Some m ->
          Memory.session_id m <> 1%positive
          \/ CurationService.is_protected (CurationService.or_categories None) m
             = true ->
          memories (stored db') !! k = Some m)
    /\ (forall k m, memories (stored db') !! k = Some m ->
          memories (stored crowded_db) !! k = Some m)
    /\ sessions (stored db') = sessions (stored crowded_db)
    /\ checkpoints (stored db') = checkpoints (stored crowded_db)
    /\ session_lineage (stored db') = session_lineage (stored crowded_db).
Proof.
  apply (curate_memories_spares_protected crowded_db 1%positive 1 None).
  - reflexivity.
  - unfold memories_keyed, crowded_db, open_session. simpl.
    repeat apply map_Forall_insert_2; try reflexivity.
    apply map_Forall_empty.
  - vm_compute. discriminate.
Defined.


(** ** Resuming from a parent *)

Section RestoreFacts.

Import Preconditions LineageRestore.

Lemma head_elem {B : Type} (l : list B) (x : B) : head l = Some x -> x ∈ l.
Proof. destruct l; [discriminate|]. intros [= ->]. left. Qed.

(** X24: [restore_from_parent], when its two commits go through, stores an
    active child without tokens whose task is the new task or else Continue:
    and the first 80 characters of the parent's, links it to the parent for a
    5-hour boundary reset with the parent's latest checkpoint (none when the
    parent has none), and counts the memories that checkpoint restores; the
    parent row, the memories and the checkpoints are left as they are. *)
Theorem restore_from_parent_links_child (db : AsyncSession)
    (parent_session_id : UUID) (new_task : option string) (parent : Session.t) :
  working db = stored db ->
  checkpoints_keyed (stored db) ->
  commits_go_through 2 db ->
  sessions (stored db) !! parent_session_id = Some parent ->
  sessions (stored db) !! next_uuid db = None ->
  exists (r : RestoreResult) (db' : AsyncSession) (child : Session.t)
         (link : SessionLineage.t) (latest : option Checkpoint.t),
    restore_from_parent parent_session_id new_task db = (Ok r, db')
    /\ CheckpointQueries.get_latest_checkpoint parent_session_id db = (Ok latest, db)
    /\ new_session_id r = next_uuid db
    /\ task r = or_str new_task
                  ("Continue: "
                   ++ String.substring 0 80 (Session.task_description parent))%string
    /\ sessions (stored db') !! next_uuid db = Some child
    /\ Session.status child = ACTIVE
    /\ Session.current_tokens child = 0
    /\ Session.max_tokens child
       = SessionService.or_default (Some (Session.max_tokens parent))
    /\ Session.task_description child = task r
    /\ sessions (stored db') !! parent_session_id = Some parent
    /\ session_lineage (stored db') !! Pos.succ (next_uuid db) = Some link
    /\ SessionLineage.parent_session_id link = Some parent_session_id
    /\ SessionLineage.child_session_id link = next_uuid db
    /\ SessionLineage.handoff_reason link = "5-hour boundary reset"
    /\ SessionLineage.checkpoint_id link = Checkpoint.id <$> latest
    /\ checkpoint_id r = Checkpoint.id <$> latest
    /\ checkpoint_restored r = is_not_None latest
    /\ memories_count r
       = match latest with
         | Some c =>
             Z.of_nat (length (filter (fun m => Memory.id m
                                                ∈ Checkpoint.memories_snapshot c)
                                 (map snd (map_to_list (memories (stored db))))))
         | None => 0
         end
    /\ memories (stored db') = memories (stored db)
    /\ checkpoints (stored db') = checkpoints (stored db).
Proof.
  intros Hw Hck Hc Hp Hfresh.
  destruct db as [st wk next time faults]. simpl in Hw, Hck, Hp, Hfresh. subst wk.
  cbn [next_uuid stored].
  set (task := or_str new_task _).
  set (child := Session.mk next task
                  (SessionService.or_default (Some (Session.max_tokens parent)))
                  0 ACTIVE time time).
  set (st1 := mkDb (<[next := child]> (sessions st)) (memories st)
                   (checkpoints st) (session_lineage st)).
  apply (commits_go_through_next 1 st st st1 st1 next (Pos.succ next) time time)
    in Hc as [Hc1 Hc].
  assert (Hc2 : head (tail faults) <> Some true).
  { specialize (Hc 0%nat ltac:(lia)). cbn [commit_faults] in Hc.
    by destruct (tail faults). }
  clear Hc.
  set (latest :=
    head (sorted_desc (fun c => inject_Z (Checkpoint.created_at c))
            (filter (fun c => Checkpoint.session_id c = parent_session_id)
                    (map snd (map_to_list (checkpoints st)))))).
  assert (Hlatest : CheckpointQueries.get_latest_checkpoint parent_session_id
                      (mkAS st st next time faults)
                    = (Ok latest, mkAS st st next time faults)) by reflexivity.
  assert (Hstored : forall c, latest = Some c ->
            checkpoints st !! Checkpoint.id c = Some c).
  { intros c Hl. apply head_elem in Hl. rewrite sorted_desc_perm in Hl.
    apply list_elem_of_filter in Hl as [_ Hl].
    apply list_elem_of_fmap in Hl as [[k c'] [-> Hl]].
    apply elem_of_map_to_list in Hl. simpl.
    pose proof (Hck _ _ Hl) as E. simpl in E. by rewrite E. }
  set (link := SessionLineage.mk (Pos.succ next) (Some parent_session_id) next
                 "5-hour boundary reset" task (Checkpoint.id <$> latest) time).
  set (st2 := mkDb (sessions st1) (memories st1) (checkpoints st1)
                   (<[Pos.succ next := link]> (session_lineage st1))).
  assert (Hrun : exists count,
    restore_from_parent parent_session_id new_task (mkAS st st next time faults)
    = (Ok {| new_session_id := next;
             parent_session_id := parent_session_id;
             checkpoint_restored := is_not_None latest;
             checkpoint_id := Checkpoint.id <$> latest;
             memories_count := count;
             task := task |},
       mkAS st2 st2 (Pos.succ (Pos.succ next)) time (tail (tail faults)))
    /\ count = match latest with
               | Some c =>
                   Z.of_nat (length (filter (fun m => Memory.id m
                                                ∈ Checkpoint.memories_snapshot c)
                                       (map snd (map_to_list (memories st)))))
               | None => 0
               end).
  { unfold restore_from_parent, await at 1, get_Session. cbn [working]. rewrite Hp.
    unfold await at 1. rewrite Hlatest. fold task.
    unfold await at 1.
    rewrite (create_session_goes st next time faults task _ Hc1).
    fold child. fold st1.
    unfold await at 1, uuid4. cbn [next_uuid stored working clock commit_faults].
    unfold await at 1, utcnow. cbn [next_uuid stored working clock commit_faults].
    unfold await at 1, add_SessionLineage, with_working.
    cbn [next_uuid stored working clock commit_faults Session.id child].
    fold link.
    unfold await at 1. rewrite commit_run by exact Hc2.
    cbn [next_uuid stored working clock commit_faults]. fold st2.
    destruct latest as [c|] eqn:El.
    - unfold await, CheckpointQueries.restore_checkpoint, await,
        CheckpointQueries.get_Checkpoint, CheckpointQueries.select_memories_in, ret.
      cbn [working stored checkpoints memories st2 st1].
      rewrite (Hstored c eq_refl).
      eexists. split; [reflexivity|].
      cbn [CheckpointQueries.memories_restored]. by rewrite length_map.
    - eexists. split; [reflexivity|reflexivity]. }
  destruct Hrun as (count & Hrun & Hcount).
  exists {| new_session_id := next;
            parent_session_id := parent_session_id;
            checkpoint_restored := is_not_None latest;
            checkpoint_id := Checkpoint.id <$> latest;
            memories_count := count;
            task := task |},
    (mkAS st2 st2 (Pos.succ (Pos.succ next)) time (tail (tail faults))),
    child, link, latest.
  split; [exact Hrun|]. split; [exact Hlatest|].
  cbn [new_session_id LineageRestore.task checkpoint_id checkpoint_restored
       memories_count stored sessions memories checkpoints session_lineage
       st2 st1].
  do 2 (split; [reflexivity|]).
  split; [apply lookup_insert_eq|]. do 4 (split; [reflexivity|]).
  split.
  { rewrite lookup_insert_ne; [exact Hp|].
    exact (fresh_key_differs _ _ _ _ Hp Hfresh). }
  split; [apply lookup_insert_eq|].
  do 6 (split; [reflexivity|]). split; [exact Hcount|]. split; reflexivity.
Qed.

End RestoreFacts.

Lemma resumable_db_commits : Preconditions.commits_go_through 2 resumable_db.
Proof.
  intros i Hi. destruct i as [|[|i]]; simpl; discriminate.
Defined.

Lemma restore_from_parent_links_child_witness :
  exists (r : LineageRestore.RestoreResult) (db' : AsyncSession) (child : Session.t)
         (link : SessionLineage.t) (latest : option Checkpoint.t),
    LineageRestore.restore_from_parent 1%positive None resumable_db = (Ok r, db')
    /\ CheckpointQueries.get_latest_checkpoint 1%positive resumable_db
       = (Ok latest, resumable_db)
    /\ LineageRestore.new_session_id r = next_uuid resumable_db
    /\ LineageRestore.task r
       = or_str None
           ("Continue: "
            ++ String.substring 0 80 (Session.task_description drained_parent))%string
    /\ sessions (stored db') !! next_uuid resumable_db = Some child
    /\ Session.status child = ACTIVE
    /\ Session.current_tokens child = 0
    /\ Session.max_tokens child
       = SessionService.or_default (Some (Session.max_tokens drained_parent))
    /\ Session.task_description child = LineageRestore.task r
    /\ sessions (stored db') !! 1%positive = Some drained_parent
    /\ session_lineage (stored db') !! Pos.succ (next_uuid resumable_db) = Some link
    /\ SessionLineage.parent_session_id link = Some 1%positive
    /\ SessionLineage.child_session_id link = next_uuid resumable_db
    /\ SessionLineage.handoff_reason link = "5-hour boundary reset"
    /\ SessionLineage.checkpoint_id link = Checkpoint.id <$> latest
    /\ LineageRestore.checkpoint_id r = Checkpoint.id <$> latest
    /\ LineageRestore.checkpoint_restored r = is_not_None latest
    /\ LineageRestore.memories_count r
       = match latest with
         | Some c =>
             Z.of_nat (length (filter (fun m => Memory.id m
                                                ∈ Checkpoint.memories_snapshot c)
                                 (map snd (map_to_list
                                             (memories (stored resumable_db))))))
         | None => 0
         end
    /\ memories (stored db') = memories (stored resumable_db)
    /\ checkpoints (stored db') = checkpoints (stored resumable_db).
Proof.
  apply (restore_from_parent_links_child resumable_db 1%positive None drained_parent).
  - reflexivity.
  - intros k c H. cbn in H. apply lookup_singleton_Some in H as [<- <-].
    reflexivity.
  - exact resumable_db_commits.
  - reflexivity.
  - reflexivity.
Defined.


Section ChildrenFacts.

Import Preconditions LineageRestore ChildrenView.

Variable percent_int : Q -> Z.
Variable llm_complete : string -> string -> Z -> result string.

Lemma omap_agree {B C : Type} (f g : B -> option C) (l : list B) :
  (forall x, x ∈ l -> f x = g x) -> omap f l = omap g l.
Proof.
  induction l as [|x l IH]; intros H; [reflexivity|].
  cbn [omap list_omap]. fold (omap f l). fold (omap g l).
  rewrite (H x) by left. rewrite IH by (intros y Hy; apply H; by right).
  reflexivity.
Qed.

Lemma children_of_omap (lineages : list SessionLineage.t) (db : AsyncSession) :
  children_of lineages db = (Ok (omap (child_entry (working db)) lineages), db).
Proof.
  induction lineages as [|l rest IH]; [reflexivity|].
  cbn [children_of]. unfold await at 1, get_Session. unfold await at 1.
  rewrite IH. cbn [omap list_omap].
  fold (omap (child_entry (working db)) rest).
  destruct (sessions (working db) !! SessionLineage.child_session_id l)
    as [child|] eqn:E;
    assert (Hentry := eq_refl (child_entry (working db) l));
    unfold child_entry at 2 in Hentry; rewrite E in Hentry; rewrite Hentry;
    reflexivity.
Qed.

Lemma get_children_run (session_id : UUID) (db : AsyncSession) :
  get_children session_id db
  = (Ok (omap (child_entry (working db))
           (filter (fun l => SessionLineage.parent_session_id l = Some session_id)
                   (map snd (map_to_list (session_lineage (stored db)))))), db).
Proof.
  unfold get_children, await, select_links_from. cbv beta iota.
  apply children_of_omap.
Qed.

(** X25: after a spawn, [get_children] of the parent lists what it listed
    before and the new child, active, with the reason of the hand-over.  The
    parent may have been spawned itself and may have children already; what
    is asked of the lineage table is that no row refers to the new id and
    that the parent is not recorded as its own child. *)
Theorem spawned_child_is_listed (db : AsyncSession)
    (parent_session_id : UUID) (handoff_reason : string)
    (task_description : option string)
    (parent : Session.t) (percent : Z) (prompt : string)
    (before : list Child) :
  working db = stored db ->
  SessionService.keyed (stored db) ->
  commits_go_through 3 db ->
  sessions (stored db) !! parent_session_id = Some parent ->
  sessions (stored db) !! Pos.succ (next_uuid db) = None ->
  session_lineage (stored db) !! Pos.succ (Pos.succ (next_uuid db)) = None ->
  LineageShape.unreferenced (stored db) (Pos.succ (next_uuid db)) ->
  LineageShape.not_own_child (stored db) parent_session_id ->
  Session.context_usage_percent percent_int parent = Ok percent ->
  llm_complete (Session.task_description parent) handoff_reason percent = Ok prompt ->
  fst (get_children parent_session_id db) = Ok before ->
  exists (r : SpawnResult) (db' : AsyncSession) (after : list Child)
         (child : Session.t),
    execute_spawn percent_int llm_complete parent_session_id handoff_reason
                  task_description db = (Ok r, db')
    /\ get_children parent_session_id db' = (Ok after, db')
    /\ sessions (stored db') !! SpawnService.child_session_id r = Some child
    /\ after ≡ₚ {| child_session_id := SpawnService.child_session_id r;
                   child_task :=
                     String.substring 0 100 (or_str task_description prompt);
                   child_status := "active";
                   child_handoff_reason := handoff_reason;
                   child_created_at := Session.created_at child |} :: before.
Proof.
  intros Hw Hk Hc Hp Hfresh Hlfresh Hun Hown Hpct Hllm Hbefore.
  destruct (execute_spawn_goes percent_int llm_complete db parent_session_id
              handoff_reason task_description parent percent prompt Hw Hk Hc Hp
              Hfresh Hpct Hllm)
    as (db' & parent' & Hrun & Hw' & Hmem & Hcp & Hlin & Hses & Hst & Hid & Htask
        & Htok & Hmax & Hcreated).
  pose proof (fresh_key_differs _ _ _ _ Hp Hfresh) as Hne.
  set (child := Session.mk (Pos.succ (next_uuid db)) _ _ _ _ _ _) in Hses.
  set (link := SessionLineage.mk _ _ _ _ _ _ _) in Hlin.
  rewrite get_children_run in Hbefore. cbn [fst] in Hbefore.
  injection Hbefore as <-.
  eexists _, db', _, child. split; [exact Hrun|].
  split; [apply get_children_run|].
  cbn [SpawnService.child_session_id].
  assert (Hchild : @lookup UUID _ _ _ (Pos.succ (next_uuid db))
                     (sessions (stored db')) = Some child).
  { rewrite Hses. rewrite lookup_insert_ne by (intros E; by apply Hne).
    apply lookup_insert_eq. }
  split; [exact Hchild|].
  rewrite Hw', Hw, Hlin.
  rewrite (map_to_list_insert _ _ _ Hlfresh). cbn [map snd].
  rewrite filter_cons_True by reflexivity. cbn [omap list_omap].
  fold (omap (child_entry (stored db'))
          (filter (fun l => SessionLineage.parent_session_id l = Some parent_session_id)
                  (map snd (map_to_list (session_lineage (stored db)))))).
  unfold child_entry at 1. cbn [SessionLineage.child_session_id link].
  rewrite Hchild. cbn [SessionLineage.handoff_reason link].
  apply Permutation_skip. apply reflexive_eq.
  (* the old links resolve as before *)
  apply omap_agree. intros l Hl.
  apply list_elem_of_filter in Hl as [Hfrom Hl].
  apply list_elem_of_fmap in Hl as [[k l'] [-> Hl]].
  apply elem_of_map_to_list in Hl. simpl in Hfrom |- *.
  pose proof (proj1 (Hun _ _ Hl)) as H1.
  pose proof (Hown _ _ Hl Hfrom) as H2.
  unfold child_entry. rewrite Hses. by rewrite !lookup_insert_ne.
Qed.

End ChildrenFacts.


Lemma family_db_not_own_child :
  LineageShape.not_own_child (stored family_db) 1%positive.
Proof.
  intros k l H. unfold family_db, open_session in H.
  cbn [stored session_lineage] in H.
  apply lookup_insert_Some in H as [[_ <-]|[_ H]]; [discriminate|].
  apply lookup_singleton_Some in H as [_ <-]. discriminate.
Defined.

Lemma spawned_child_is_listed_witness :
  exists (r : SpawnResult) (db' : AsyncSession) (after : list LineageRestore.Child)
         (child : Session.t),
    execute_spawn percent_exact canned_llm 1%positive "context_critical" None
                  family_db = (Ok r, db')
    /\ LineageRestore.get_children 1%positive db' = (Ok after, db')
    /\ sessions (stored db') !! SpawnService.child_session_id r = Some child
    /\ after ≡ₚ {| LineageRestore.child_session_id := SpawnService.child_session_id r;
                   LineageRestore.child_task :=
                     String.substring 0 100
                       (or_str None "Continue refactoring the parser.");
                   LineageRestore.child_status := "active";
                   LineageRestore.child_handoff_reason := "context_critical";
                   LineageRestore.child_created_at := Session.created_at child |}
                :: [ {| LineageRestore.child_session_id := 3%positive;
                        LineageRestore.child_task := "refactor the lexer";
                        LineageRestore.child_status := "active";
                        LineageRestore.child_handoff_reason := "loop_detected";
                        LineageRestore.child_created_at := 5 |} ].
Proof.
  apply (spawned_child_is_listed percent_exact canned_llm family_db 1%positive
           "context_critical" None drained_parent 95
           "Continue refactoring the parser."
           [ {| LineageRestore.child_session_id := 3%positive;
                LineageRestore.child_task := "refactor the lexer";
                LineageRestore.child_status := "active";
                LineageRestore.child_handoff_reason := "loop_detected";
                LineageRestore.child_created_at := 5 |} ]).
  - reflexivity.
  - exact family_db_keyed.
  - exact family_db_commits.
  - reflexivity.
  - reflexivity.
  - reflexivity.
  - exact family_db_unreferenced.
  - exact family_db_not_own_child.
  - reflexivity.
  - reflexivity.
  - reflexivity.
Defined.


(** ** The timeline *)

Section TimelineFacts.

Import MemoryService ProgressiveDisclosure.

Lemma position_from_found (all_memories : list Memory.t) (i : nat) (k : Z)
    (m : Memory.t) :
  NoDup (map Memory.id all_memories) ->
  all_memories !! i = Some m ->
  position_from k (Memory.id m) all_memories = k + Z.of_nat i.
Proof.
  revert i k. induction all_memories as [|x l IH]; intros i k Hnd Hi;
    [by rewrite lookup_nil in Hi|].
  cbn [map] in Hnd. apply NoDup_cons in Hnd as [Hx Hnd].
  cbn [position_from]. destruct i as [|i].
  - simpl in Hi. injection Hi as ->. rewrite decide_True by reflexivity. lia.
  - simpl in Hi. rewrite decide_False.
    + rewrite (IH i (k + 1) Hnd Hi). lia.
    + intros E. apply Hx. rewrite E. apply list_elem_of_fmap. exists m.
      split; [reflexivity|]. by apply list_elem_of_lookup_2 in Hi.
Qed.

Lemma timeline_item_neighbours (all_memories : list Memory.t) (i : nat)
    (m : Memory.t) :
  NoDup (map Memory.id all_memories) ->
  all_memories !! i = Some m ->
  context_before (timeline_item all_memories m)
  = match i with
    | O => None
    | S j => neighbour_summary <$> all_memories !! j
    end
  /\ context_after (timeline_item all_memories m)
     = neighbour_summary <$> all_memories !! S i.
Proof.
  intros Hnd Hi. unfold timeline_item, position.
  rewrite (position_from_found all_memories i 0 m Hnd Hi).
  cbn [context_before context_after].
  pose proof (lookup_lt_Some _ _ _ Hi) as Hlt.
  split.
  - destruct i as [|j].
    + reflexivity.
    + replace (0 <? 0 + Z.of_nat (S j))%Z with true by (symmetry; apply Z.ltb_lt; lia).
      by replace (Z.to_nat (0 + Z.of_nat (S j) - 1)) with j by lia.
  - destruct (0 + Z.of_nat i <? Z.of_nat (length all_memories) - 1)%Z eqn:E.
    + by replace (Z.to_nat (0 + Z.of_nat i + 1)) with (S i) by lia.
    + apply Z.ltb_ge in E. rewrite lookup_ge_None_2 by lia. reflexivity.
Qed.

Lemma timeline_summarize_length (content : string) :
  (String.length (timeline_summarize content) <= 153)%nat.
Proof.
  unfold timeline_summarize. rewrite append_length.
  pose proof (substring_length_le 150 content).
  destruct (150 <? String.length content)%nat; simpl; lia.
Qed.

(** X26: each item of [get_timeline] is a requested memory of the session
    with, as context, the summaries of its neighbours in the session's
    timeline (the memories of the session, oldest first): the one before it,
    none for the first, and the one after it, none for the last; its own
    summary holds at most 153 characters. *)
Theorem get_timeline_neighbours (db : AsyncSession) (session_id : UUID)
    (memory_ids : list UUID) (items : list MemoryTimelineItem)
    (item : MemoryTimelineItem) :
  memories_keyed (stored db) ->
  fst (get_timeline session_id memory_ids db) = Ok items ->
  item ∈ items ->
  let timeline :=
    oldest_first (filter (fun m => Memory.session_id m = session_id)
                         (map snd (map_to_list (memories (stored db))))) in
  exists (i : nat) (m : Memory.t),
    timeline !! i = Some m
    /\ Memory.id m ∈ memory_ids
    /\ timeline_id item = Memory.id m
    /\ context_before item
       = match i with
         | O => None
         | S j => neighbour_summary <$> timeline !! j
         end
    /\ context_after item = neighbour_summary <$> timeline !! S i
    /\ (String.length (timeline_summary item) <= 153)%nat.
Proof.
  intros Hk Hrun Hin timeline.
  assert (Hnd : NoDup (map Memory.id timeline)).
  { apply NoDup_fmap_2_strong.
    - intros x y Hx Hy. unfold timeline, oldest_first in Hx, Hy.
      rewrite sorted_desc_perm in Hx, Hy.
      apply list_elem_of_filter in Hx as [_ Hx].
      apply list_elem_of_filter in Hy as [_ Hy].
      by apply (memories_keyed_inj (stored db)).
    - unfold timeline, oldest_first. rewrite sorted_desc_perm.
      apply NoDup_filter. by apply keyed_rows_NoDup. }
  unfold get_timeline in Hrun.
  destruct memory_ids as [|u us]; [injection Hrun as <-; by apply elem_of_nil in Hin|].
  unfold await at 1, select_requested in Hrun.
  set (found := filter _ _) in Hrun.
  destruct (oldest_first found) as [|x xs] eqn:Eo;
    [injection Hrun as <-; by apply elem_of_nil in Hin|].
  unfold await, select_memories_of, ret in Hrun. cbn [fst] in Hrun.
  fold timeline in Hrun. injection Hrun as <-.
  change (item ∈ map (timeline_item timeline) (x :: xs)) in Hin.
  apply list_elem_of_fmap in Hin as (m & -> & Hm).
  rewrite <- Eo in Hm. unfold oldest_first in Hm. rewrite sorted_desc_perm in Hm.
  apply list_elem_of_filter in Hm as [[Hs Hid] Hm].
  assert (Hmt : m ∈ timeline).
  { unfold timeline, oldest_first. rewrite sorted_desc_perm.
    by apply list_elem_of_filter. }
  apply list_elem_of_lookup_1 in Hmt as [i Hi].
  exists i, m. split; [exact Hi|]. split; [exact Hid|]. split; [reflexivity|].
  destruct (timeline_item_neighbours timeline i m Hnd Hi) as [Hb Ha].
  split; [exact Hb|]. split; [exact Ha|]. apply timeline_summarize_length.
Qed.

End TimelineFacts.


Lemma get_timeline_neighbours_witness :
  let timeline :=
    ProgressiveDisclosure.oldest_first
      (filter (fun m => Memory.session_id m = 1%positive)
              (map snd (map_to_list (memories (stored hybrid_db))))) in
  exists (i : nat) (m : Memory.t),
    timeline !! i = Some m
    /\ Memory.id m ∈ [2%positive]
    /\ ProgressiveDisclosure.timeline_id jwt_timeline_item = Memory.id m
    /\ ProgressiveDisclosure.context_before jwt_timeline_item
       = match i with
         | O => None
         | S j => ProgressiveDisclosure.neighbour_summary <$> timeline !! j
         end
    /\ ProgressiveDisclosure.context_after jwt_timeline_item
       = ProgressiveDisclosure.neighbour_summary <$> timeline !! S i
    /\ (String.length (ProgressiveDisclosure.timeline_summary jwt_timeline_item)
        <= 153)%nat.
Proof.
  apply (get_timeline_neighbours hybrid_db 1%positive [2%positive]
           [jwt_timeline_item] jwt_timeline_item).
  - exact hybrid_db_keyed.
  - vm_compute. reflexivity.
  - left.
Defined.


(** ** Reading and storing a transcript's count *)

Section TailFacts.

Import WatcherStore.

Variable json_loads : string -> result json.

Lemma drop_str_app (head tail : string) :
  drop_str (String.length head) (head ++ tail) = tail.
Proof.
  induction head as [|c head IH]; simpl; [by destruct tail|exact IH].
Qed.

(** X27: of a transcript longer than 10240 characters only the last 10240
    are looked at: the count is the one found in that tail alone, whatever
    stands before it. *)
Theorem long_transcript_read_from_tail (fs : FileSystem) (transcript_path : string)
    (data tail : string) :
  read_file fs transcript_path = Some data ->
  ends_in data tail ->
  Z.of_nat (String.length tail) = TRANSCRIPT_TAIL_SIZE ->
  get_last_assistant_usage json_loads fs transcript_path
  = match _extract_usage_from_content json_loads tail with
    | Ok v => v
    | Raise _ => None
    end.
Proof.
  intros Hread (head & Hne & ->) Hlen.
  unfold get_last_assistant_usage. rewrite Hread. cbv zeta.
  rewrite append_length.
  assert (Hpos : (0 < String.length head)%nat).
  { destruct head; [done|simpl; lia]. }
  replace (Z.of_nat (String.length head + String.length tail)
           <=? TRANSCRIPT_TAIL_SIZE)%Z with false
    by (symmetry; apply Z.leb_gt; lia).
  replace (Z.to_nat (Z.of_nat (String.length head + String.length tail)
                     - TRANSCRIPT_TAIL_SIZE))
    with (String.length head) by lia.
  by rewrite drop_str_app.
Qed.

End TailFacts.

Lemma long_transcript_read_from_tail_witness :
  get_last_assistant_usage Json.loads long_fs demo_path
  = match _extract_usage_from_content Json.loads padded_tail with
    | Ok v => v
    | Raise _ => None
    end.
Proof.
  apply (long_transcript_read_from_tail Json.loads long_fs demo_path
           long_transcript padded_tail).
  - reflexivity.
  - exists "filler". split; [discriminate|reflexivity].
  - vm_compute. reflexivity.
Defined.


Section StoreTokensFacts.

Import WatcherStore.

Lemma newest_elem (rows : list Session.t) (best : option Session.t) (s : Session.t) :
  foldl newer best rows = Some s -> best = Some s \/ s ∈ rows.
Proof.
  revert best. induction rows as [|x rows IH]; intros best H; [by left|].
  cbn [foldl] in H. apply IH in H as [H|H]; [|right; by right].
  destruct best as [b|]; simpl in H.
  - destruct (Session.created_at b <? Session.created_at x)%Z;
      injection H as <-; [right; left|by left].
  - injection H as <-. right. left.
Qed.

(** Rewriting a row in place keeps the number of rows with a given task *)
Lemma auto_detected_rewritten (d : Db) (session_key : string) (k : UUID)
    (s s' : Session.t) (table : gmap UUID Session.t) :
  sessions d = <[k := s']> table ->
  table !! k = Some s ->
  Session.task_description s' = Session.task_description s ->
  length (auto_detected d session_key)
  = length (filter (fun s => Session.task_description s
                             = ("Auto-detected: " ++ session_key)%string)
                   (map snd (map_to_list table))).
Proof.
  intros Hd Hs Htask. unfold auto_detected. rewrite Hd.
  rewrite <- (insert_delete_eq table k s') by done.
  rewrite map_to_list_insert by apply lookup_delete_eq.
  rewrite <- (Permutation_length
                (filter_Permutation _ _ _
                   (Permutation_map snd (map_to_list_delete table k s Hs)))).
  cbn [map snd]. rewrite !filter_cons. rewrite Htask.
  by destruct (decide (Session.task_description s = _)).
Qed.

(** X28: the watcher keeps one session per project. When its commit goes
    through, [store_tokens] leaves a session named Auto-detected: and the
    project's key that holds the count, without adding a second one: the
    project has as many such sessions as before, or one if it had none; the
    sessions of other tasks are untouched. *)
Theorem store_tokens_one_session (db : AsyncSession) (session_key : string)
    (tokens : Z) :
  working db = stored db ->
  SessionService.keyed (stored db) ->
  SessionService.commit_goes_through db ->
  sessions (stored db) !! next_uuid db = None ->
  exists (db' : AsyncSession),
    store_tokens session_key tokens db = (Ok tt, db')
    /\ (exists s, s ∈ auto_detected (stored db') session_key
                  /\ Session.current_tokens s = tokens)
    /\ length (auto_detected (stored db') session_key)
       = Nat.max 1 (length (auto_detected (stored db) session_key))
    /\ forall k s, Session.task_description s
                   <> ("Auto-detected: " ++ session_key)%string ->
         (sessions (stored db') !! k = Some s <-> sessions (stored db) !! k = Some s).
Proof.
  intros Hw Hk Hc Hfresh.
  destruct db as [st wk next time faults]. simpl in Hw, Hk, Hfresh. subst wk.
  unfold SessionService.commit_goes_through in Hc. simpl in Hc.
  cbn [stored].
  set (task := ("Auto-detected: " ++ session_key)%string).
  set (rows := auto_detected st session_key).
  unfold store_tokens, await at 1, select_latest_by_task. cbn [stored].
  destruct (foldl newer None _) as [session|] eqn:E.
  - (* a session is known: it is rewritten in place *)
    change (foldl newer None rows = Some session) in E.
    apply newest_elem in E as [E|Hin]; [discriminate|].
    pose proof Hin as Hin'. unfold rows, auto_detected in Hin'.
    apply list_elem_of_filter in Hin' as [Htask Hall].
    apply list_elem_of_fmap in Hall as [[k s0] [-> Hall]].
    apply elem_of_map_to_list in Hall. cbn [snd] in *.
    pose proof (Hk _ _ Hall) as Hid.
    assert (Hlen : (1 <= length rows)%nat).
    { destruct rows; [by apply elem_of_nil in Hin|simpl; lia]. }
    destruct (Session.current_tokens s0 =? tokens)%Z eqn:Etok.
    + apply Z.eqb_eq in Etok. eexists. split; [reflexivity|]. cbn [stored].
      fold rows. split; [by exists s0|]. split; [lia|]. done.
    + apply Z.eqb_neq in Etok.
      unfold await at 1, assign_Session.
      rewrite decide_False by (intros E; apply Etok; by rewrite E).
      unfold await at 1, utcnow, add_Session, with_working.
      cbn [stored working next_uuid clock commit_faults].
      rewrite commit_run by exact Hc.
      cbn [stored working next_uuid clock commit_faults].
      set (s1 := Session.set_updated_at (Session.set_current_tokens s0 tokens) time).
      assert (Hid1 : Session.id s1 = k) by (by destruct s0).
      assert (Htask1 : Session.task_description s1 = Session.task_description s0)
        by (by destruct s0).
      rewrite Hid1.
      eexists. split; [reflexivity|]. cbn [stored].
      split.
      { exists s1. split; [|by destruct s0].
        unfold auto_detected. apply list_elem_of_filter.
        split; [by rewrite Htask1|]. cbn [sessions].
        apply list_elem_of_fmap. exists (k, s1). split; [reflexivity|].
        apply elem_of_map_to_list, lookup_insert_eq. }
      split.
      { rewrite (auto_detected_rewritten
                   (mkDb (<[k := s1]> (sessions st)) (memories st) (checkpoints st)
                         (session_lineage st))
                   session_key k s0 s1 (sessions st) eq_refl Hall Htask1).
        fold (auto_detected st session_key). fold rows. lia. }
      intros k' s Hs. cbn [sessions].
      destruct (decide (k = k')) as [<-|Hne].
      * rewrite lookup_insert_eq. split.
        -- intros [= <-]. exfalso. apply Hs. by rewrite Htask1.
        -- intros H. exfalso. apply Hs.
           assert (E : Some s0 = Some s).
           { etransitivity; [symmetry; exact Hall|exact H]. }
           injection E as <-. exact Htask.
      * by rewrite lookup_insert_ne.
  - (* none is known: one is made *)
    change (foldl newer None rows = None) in E.
    apply newest_of_none in E.
    unfold await at 1, uuid4. cbn [stored working next_uuid clock commit_faults].
    unfold await at 1, utcnow. cbn [stored working next_uuid clock commit_faults].
    unfold await at 1, add_Session, with_working.
    cbn [stored working next_uuid clock commit_faults Session.id].
    rewrite commit_run by exact Hc.
    cbn [stored working next_uuid clock commit_faults].
    set (s1 := Session.mk next ("Auto-detected: " ++ session_key)%string
                          MAX_CONTEXT_TOKENS tokens ACTIVE time time).
    eexists. split; [reflexivity|]. cbn [stored]. fold s1.
    assert (Hrows : auto_detected
              (mkDb (<[next := s1]> (sessions st)) (memories st) (checkpoints st)
                    (session_lineage st)) session_key ≡ₚ s1 :: rows).
    { unfold auto_detected at 1. cbn [sessions].
      rewrite (map_to_list_insert _ _ _ Hfresh). cbn [map snd].
      by rewrite filter_cons_True by reflexivity. }
    split.
    { exists s1. split; [|reflexivity]. rewrite Hrows. left. }
    split.
    { transitivity (length (s1 :: rows)); [exact (Permutation_length Hrows)|].
      by rewrite E. }
    intros k s Hs. cbn [sessions].
    destruct (decide (next = k)) as [<-|Hne].
    + rewrite lookup_insert_eq. split.
      * intros [= <-]. done.
      * intros H. exfalso.
        assert (E' : None = Some s).
        { etransitivity; [symmetry; exact Hfresh|exact H]. }
        discriminate.
    + by rewrite lookup_insert_ne.
Qed.

End StoreTokensFacts.

Lemma store_tokens_one_session_witness :
  exists (db' : AsyncSession),
    store_tokens "claude:ralph" 1500 spawning_db = (Ok tt, db')
    /\ (exists s, s ∈ WatcherStore.auto_detected (stored db') "claude:ralph"
                  /\ Session.current_tokens s = 1500)
    /\ length (WatcherStore.auto_detected (stored db') "claude:ralph")
       = Nat.max 1 (length (WatcherStore.auto_detected (stored spawning_db)
                              "claude:ralph"))
    /\ forall k s, Session.task_description s
                   <> ("Auto-detected: " ++ "claude:ralph")%string ->
         (sessions (stored db') !! k = Some s
          <-> sessions (stored spawning_db) !! k = Some s).
Proof.
  apply (store_tokens_one_session spawning_db "claude:ralph" 1500).
  - reflexivity.
  - exact spawning_db_keyed.
  - vm_compute. discriminate.
  - reflexivity.
Defined.


(** ** Project names *)

Section ProjectNameFacts.

Import ProjectNames.

Lemma skip_not_dash_user (user rest : string) :
  dashless user = true ->
  skip_not_dash (user ++ String "-" rest) = String "-" rest.
Proof.
  induction user as [|c user IH]; simpl; [reflexivity|].
  destruct (Ascii.eqb c "-"); simpl; [discriminate|exact IH].
Qed.

Lemma startswith_shorter (a b s : string) :
  startswith (a ++ b) s = true -> startswith a s = true.
Proof.
  revert s. induction a as [|c a IH]; intros s; simpl; [reflexivity|].
  destruct s as [|d s]; [discriminate|].
  destruct (Ascii.eqb c d); [apply IH|discriminate].
Qed.

Lemma startswith_longer_false (a b s : string) :
  startswith a s = false -> startswith (a ++ b) s = false.
Proof.
  intros H. destruct (startswith (a ++ b) s) eqn:E; [|reflexivity].
  apply startswith_shorter in E. congruence.
Qed.

Lemma startswith_app (l s : string) : startswith l (l ++ s) = true.
Proof.
  induction l as [|c l IH]; simpl; [reflexivity|].
  by rewrite Ascii.eqb_refl.
Qed.

(** The start of the patterns on the directory of a home project *)
Lemma match_home_user (user rest : string) (pattern : list piece) :
  user <> "" ->
  dashless user = true ->
  match_prefix (Lit "-home-" :: NotDashes :: pattern)
               ("-home-" ++ user ++ String "-" rest)
  = match_prefix pattern (String "-" rest).
Proof.
  intros Hne Hdash.
  change (match_prefix (Lit "-home-" :: NotDashes :: pattern)
                       ("-home-" ++ user ++ String "-" rest))
    with (if startswith "-home-" ("-home-" ++ user ++ String "-" rest)
          then match_prefix (NotDashes :: pattern)
                 (drop_str (String.length "-home-")
                           ("-home-" ++ user ++ String "-" rest))
          else None).
  rewrite startswith_app, drop_str_app.
  destruct user as [|c user]; [done|].
  pose proof (skip_not_dash_user (String c user) rest Hdash) as Hskip.
  simpl in Hdash. apply andb_true_iff in Hdash as [Hc _].
  apply negb_true_iff in Hc.
  change (match_prefix (NotDashes :: pattern) (String c user ++ String "-" rest))
    with (if Ascii.eqb c "-" then None
          else match_prefix pattern
                 (skip_not_dash (String c user ++ String "-" rest))).
  by rewrite Hc, Hskip.
Qed.

Lemma match_lit (l s : string) (pattern : list piece) :
  match_prefix (Lit l :: pattern) s
  = if startswith l s then match_prefix pattern (drop_str (String.length l) s)
    else None.
Proof. reflexivity. Qed.

(** X29: the directory of a project directly under a user's home decodes to
    the project's name: for a user name without dashes and a project name of
    at most 40 characters that starts neither with a dash nor with
    Documents-, [decode_project_name] of -home-user-project is project. *)
Theorem decode_home_project (user project : string) :
  user <> "" ->
  dashless user = true ->
  startswith "-" project = false ->
  startswith "Documents-" project = false ->
  (String.length project <= 40)%nat ->
  decode_project_name (home_project_dir user project) = project.
Proof.
  intros Hne Hdash Hp Hdoc Hlen.
  assert (Hlab : startswith "-Documents-lab-" (String "-" project) = false).
  { change (startswith "Documents-lab-" project = false).
    apply (startswith_longer_false "Documents-" "lab-"). exact Hdoc. }
  assert (Hdocs : startswith "-Documents-" (String "-" project) = false).
  { change (startswith "Documents-" project = false). exact Hdoc. }
  assert (Hhome : startswith "-home" project = false).
  { apply (startswith_longer_false "-" "home"). exact Hp. }
  set (name := ("-home-" ++ user ++ String "-" project)%string).
  assert (Hname : foldl re_sub_prefix name patterns = project).
  { unfold patterns. cbn [foldl].
    assert (H1 : re_sub_prefix name
                   [Lit "-home-"; NotDashes; Lit "-Documents-lab-"; NotDashes; Lit "-"]
                 = name).
    { unfold re_sub_prefix, name. rewrite (match_home_user user project _ Hne Hdash).
      by rewrite match_lit, Hlab. }
    rewrite H1.
    assert (H2 : re_sub_prefix name [Lit "-home-"; NotDashes; Lit "-Documents-lab-"]
                 = name).
    { unfold re_sub_prefix, name. rewrite (match_home_user user project _ Hne Hdash).
      by rewrite match_lit, Hlab. }
    rewrite H2.
    assert (H3 : re_sub_prefix name [Lit "-home-"; NotDashes; Lit "-Documents-"]
                 = name).
    { unfold re_sub_prefix, name. rewrite (match_home_user user project _ Hne Hdash).
      by rewrite match_lit, Hdocs. }
    rewrite H3.
    assert (H4 : re_sub_prefix name [Lit "-home-"; NotDashes; Lit "-"] = project).
    { unfold re_sub_prefix, name. rewrite (match_home_user user project _ Hne Hdash).
      reflexivity. }
    rewrite H4.
    unfold re_sub_prefix. rewrite !match_lit, Hhome. cbn [default].
    by rewrite Hp. }
  change (home_project_dir user project) with name.
  unfold decode_project_name. rewrite Hname.
  replace (40 <? String.length project)%nat with false; [reflexivity|].
  symmetry. apply Nat.ltb_ge. exact Hlen.
Qed.

End ProjectNameFacts.

Lemma decode_home_project_witness :
  decode_project_name (ProjectNames.home_project_dir "u" "ralph") = "ralph".
Proof.
  apply (decode_home_project "u" "ralph").
  - discriminate.
  - reflexivity.
  - reflexivity.
  - reflexivity.
  - simpl. lia.
Defined.


(** ** A fold that fails late *)

Section FoldFailureFacts.

Import Compression FoldExecution.

Variable percent_int : Q -> Z.
Variable estimate_tokens : string -> Z.
Variable COMPRESSION_SYSTEM_PROMPT : string.
Variable llm_complete : string -> string -> Z -> result string.
Variable _extract_section : string -> string -> string.

(** X30: when the commit of the new token count is refused after the
    checkpoint's went through, [execute_fold] raises the engine's error; the
    checkpoint stays in the store, and the session keeps the count it had,
    both in the store and in the view of the session that made the call. *)
Theorem fold_late_failure_keeps_checkpoint (db : AsyncSession) (session_id : UUID)
    (trajectory label reply : string) (session : Session.t) (rest : list bool) :
  let target := int_of (inject_Z (estimate_tokens trajectory) * 0.25)%Q in
  working db = stored db ->
  sessions (stored db) !! session_id = Some session ->
  commit_faults db = false :: true :: rest ->
  llm_complete (compression_prompt target trajectory) COMPRESSION_SYSTEM_PROMPT
               (target + 500) = Ok reply ->
  exists (db' : AsyncSession) (checkpoint : Checkpoint.t),
    execute_fold percent_int
      (compress estimate_tokens COMPRESSION_SYSTEM_PROMPT llm_complete
                _extract_section)
      session_id trajectory label db = (Raise DBAPIError, db')
    /\ working db' = stored db'
    /\ sessions (stored db') = sessions (stored db)
    /\ memories (stored db') = memories (stored db)
    /\ checkpoints (stored db')
       = <[next_uuid db := checkpoint]> (checkpoints (stored db))
    /\ Checkpoint.label checkpoint = label
    /\ Checkpoint.session_id checkpoint = session_id
    /\ Checkpoint.state_current_tokens checkpoint = Session.current_tokens session.
Proof.
  intros target Hw Hs Hf Hllm.
  destruct db as [st wk next time faults]. simpl in Hw, Hs, Hf. subst wk faults.
  destruct (context_usage_percent_returns percent_int session) as [percent Hpct].
  unfold execute_fold, await at 1, get_Session. cbn [working]. rewrite Hs.
  unfold await at 1, lift, compress. fold target. rewrite Hllm. cbn [bind].
  cbn [summary compressed_tokens tokens_saved compression_ratio].
  unfold await at 1.
  rewrite (create_checkpoint_run percent_int st next time (true :: rest)
             session_id _ _ session percent Hs Hpct).
  unfold await at 1, assign_Session.
  destruct (decide (session = Session.set_current_tokens session
                                (estimate_tokens reply))) as [Hsame|Hdiff].
  - unfold ret at 1. unfold await at 1, commit. cbn [commit_faults].
    eexists _, _. split; [reflexivity|]. repeat split.
  - unfold await at 1, utcnow, add_Session, with_working.
    cbn [next_uuid stored working clock commit_faults].
    unfold await at 1, commit. cbn [commit_faults].
    eexists _, _. split; [reflexivity|]. repeat split.
Qed.

End FoldFailureFacts.

Lemma fold_late_failure_keeps_checkpoint_witness :
  exists (db' : AsyncSession) (checkpoint : Checkpoint.t),
    FoldExecution.execute_fold percent_exact
      (Compression.compress four_chars_a_token "" canned_compression no_section)
      1%positive "edit parser.py; run the tests; fix the lexer" "auto-fold"
      refusing_fold_db = (Raise DBAPIError, db')
    /\ working db' = stored db'
    /\ sessions (stored db') = sessions (stored refusing_fold_db)
    /\ memories (stored db') = memories (stored refusing_fold_db)
    /\ checkpoints (stored db')
       = <[next_uuid refusing_fold_db := checkpoint]>
           (checkpoints (stored refusing_fold_db))
    /\ Checkpoint.label checkpoint = "auto-fold"
    /\ Checkpoint.session_id checkpoint = 1%positive
    /\ Checkpoint.state_current_tokens checkpoint
       = Session.current_tokens drained_parent.
Proof.
  apply (fold_late_failure_keeps_checkpoint percent_exact four_chars_a_token ""
           canned_compression no_section refusing_fold_db 1%positive
           "edit parser.py; run the tests; fix the lexer" "auto-fold"
           ("SUMMARY:" ++ Compression.LF ++ "Parser refactored.")%string
           drained_parent []).
  - reflexivity.
  - reflexivity.
  - reflexivity.
  - reflexivity.
Defined.
